(** * beta-trader: the intelligence-gathering core, embedded and checked

    A shallow embedding of the Python sources

      intel/errors.py, intel/circuit_breaker.py, intel/retry.py,
      intel/events.py, intel/sources/{exa,tavily,firecrawl}.py,
      intel/orchestrator.py, backend/sse.py

    Conventions of the embedding.

    - A Python [float] is read as the rational it denotes ([Q]);
      comparisons are exact.  Where the code computes a cost, the
      arithmetic is that of binary64: a literal, [+], [*], [/] and the
      conversion of an [int] round to the nearest double, ties to even
      ([Float64]).  Elsewhere (clock readings, delays, scores) a decimal
      literal is the rational it spells and no rounding is modelled.
    - A coroutine is a function from a world to an outcome and a new world.
      The world carries what the code can observe of its environment: the
      monotonic clock, the HTTP exchange, the sleeps, the random samples.
      The clock only moves at an [await].
    - An object ([CircuitBreaker], [ExaSource], ...) is a record that is
      passed in and handed back.
    - [raise] is the [Raises] outcome.  [except Exception] catches every
      exception but the [BaseException]-only ones ([CancelledError]). *)

From Stdlib Require Import ZArith QArith Qminmax Qabs Qround Qpower Lqa Lia List String Bool.
From Stdlib Require Import Sorting.Permutation Sorting.Sorted.
From stdpp Require Import gmap strings list.

Local Open Scope string_scope.
Local Open Scope list_scope.

(** ** Exceptions and outcomes *)

Inductive exn : Type :=
| TypeError (msg : string)
| AttributeError (msg : string)
| ValueError (msg : string)
| RuntimeError (msg : string)
| APIError (http_status : Z)
| RateLimitError (retry_after_seconds : option Q)
| CircuitOpenError (reopens_in_seconds : Q)
| CancelledError.

(** [isinstance(e, Exception)]: [asyncio.CancelledError] derives from
    [BaseException] only. *)
Definition isinstance_Exception (e : exn) : bool :=
  match e with CancelledError => false | _ => true end.

Definition isinstance_RateLimitError (e : exn) : bool :=
  match e with RateLimitError _ => true | _ => false end.

Definition isinstance_TypeError (e : exn) : bool :=
  match e with TypeError _ => true | _ => false end.

Definition isinstance_CircuitOpenError (e : exn) : bool :=
  match e with CircuitOpenError _ => true | _ => false end.

Inductive outcome (A : Type) : Type :=
| Returns (a : A)
| Raises (e : exn).
Arguments Returns {A} a.
Arguments Raises {A} e.

Definition returned {A} (o : outcome A) : bool :=
  match o with Returns _ => true | Raises _ => false end.

(** Python truthiness of an optional float: [None] and [0.0] are falsy. *)
Definition truthy_float (x : option Q) : bool :=
  match x with
  | Some r => negb (Qeq_bool r 0)
  | None => false
  end.

Definition Qltb (x y : Q) : bool := negb (Qle_bool y x).

(** ** Python floats in the cost arithmetic

    A double is the rational it denotes.  [round] takes a rational to
    the nearest double, ties to the even mantissa: for [q] other than 0,
    [exponent] is the [e] with [2^e <= |q| < 2^(e+1)], and [|q|] is
    rounded to a multiple of [2^(e-52)], which leaves 53 significant
    bits.  The range of the exponent is not modelled (no overflow to
    [inf], no subnormal numbers); the costs of a query lie far inside
    it. *)
Module Float64.

(** The nearest integer, a tie going to the even one. *)
Definition round_half_even (x : Q) : Z :=
  let f := Qfloor x in
  match Qcompare (x - inject_Z f) (1 # 2) with
  | Lt => f
  | Gt => (f + 1)%Z
  | Eq => if Z.even f then f else (f + 1)%Z
  end.

(** For [0 < a]: the [e] with [2^e <= a < 2^(e+1)].  The difference of
    the two logarithms is [e] or [e + 1]. *)
Definition exponent (a : Q) : Z :=
  let k := (Z.log2 (Qnum a) - Z.log2 (Zpos (Qden a)))%Z in
  if Qle_bool (2 ^ k) a then k else (k - 1)%Z.

Definition round (q : Q) : Q :=
  if Qeq_bool q 0 then 0
  else
    let a := Qabs q in
    let ulp := (2 ^ (exponent a - 52))%Q in
    let r := (inject_Z (round_half_even (a / ulp)) * ulp)%Q in
    if Qle_bool 0 q then r else (- r)%Q.

(** A decimal literal of the source, [float(n)] for an [int], and the
    three operations. *)
Definition literal (q : Q) : Q := round q.
Definition of_int (n : Z) : Q := round (inject_Z n).
Definition add (x y : Q) : Q := round (x + y).
Definition mul (x y : Q) : Q := round (x * y).
Definition div (x y : Q) : Q := round (x / y).

(** Half the distance, relative to 1, between 1 and the next double:
    [2^-53]. *)
Definition eps : Q := 1 # 9007199254740992.

End Float64.

(** ** The runtime a coroutine sees

    [time.monotonic()], [asyncio.sleep] and [random.random] as an
    interface over the world type. *)

Class Runtime (W : Type) : Type := {
  monotonic : W -> Q;
  sleep : Q -> W -> W;
  random : W -> Q * W
}.

(** A coroutine returning [A] in a world [W]. *)
Definition coro (W A : Type) : Type := W -> outcome A * W.

(** ** Class bodies and argument binding

    A class body is executed top to bottom; a later [def] of a name
    rebinds it.  A method is looked up in the resulting namespace, and
    its arguments are bound against the signature found there. *)

Record pydef : Type := {
  def_line : Z;                       (* line of the [def] in the source *)
  def_params : list (string * bool)   (* after [self]: name, has a default *)
}.

Definition class_attr (name : string) (body : list (string * pydef))
  : option pydef :=
  fold_left
    (fun acc nd => if String.eqb (fst nd) name then Some (snd nd) else acc)
    body None.

Definition has_param (d : pydef) (kw : string) : bool :=
  existsb (fun p => String.eqb (fst p) kw) (def_params d).

Definition positional_names (d : pydef) (npos : nat) : list string :=
  map fst (firstn npos (def_params d)).

Definition unfilled_required (d : pydef) (npos : nat) (kws : list string)
  : list string :=
  map fst
    (List.filter
       (fun p => negb (snd p) && negb (existsb (String.eqb (fst p)) kws))
       (skipn npos (def_params d))).

(** Binding [npos] positional arguments and the keywords [kws] to the
    parameters of [d]; every failure is a [TypeError]. *)
Definition bind_arguments (fname : string) (d : pydef)
           (npos : nat) (kws : list string) : outcome unit :=
  if Nat.ltb (length (def_params d)) npos then
    Raises (TypeError (fname ++ "() takes too many positional arguments"))
  else
    match List.filter (fun kw => negb (has_param d kw)) kws with
    | kw :: _ =>
        Raises (TypeError
                  (fname ++ "() got an unexpected keyword argument '" ++ kw ++ "'"))
    | [] =>
        match List.filter (fun kw => existsb (String.eqb kw) (positional_names d npos)) kws with
        | kw :: _ =>
            Raises (TypeError
                      (fname ++ "() got multiple values for argument '" ++ kw ++ "'"))
        | [] =>
            match unfilled_required d npos kws with
            | p :: _ =>
                Raises (TypeError
                          (fname ++ "() missing required argument '" ++ p ++ "'"))
            | [] => Returns tt
            end
        end
    end.

(** ** intel/circuit_breaker.py *)

Module CircuitBreaker.

Inductive CircuitState : Type := CLOSED | OPEN | HALF_OPEN.

Definition CircuitState_eqb (a b : CircuitState) : bool :=
  match a, b with
  | CLOSED, CLOSED | OPEN, OPEN | HALF_OPEN, HALF_OPEN => true
  | _, _ => false
  end.

Record CircuitBreakerConfig : Type := {
  failure_threshold : Z;
  timeout_seconds : Q;
  half_open_max_calls : Z;
  failure_window_seconds : Q
}.

Definition INTEL_API_CONFIG : CircuitBreakerConfig :=
  {| failure_threshold := 3;
     timeout_seconds := 60;
     half_open_max_calls := 1;
     failure_window_seconds := 60 |}.

Definition OPENROUTER_CONFIG : CircuitBreakerConfig :=
  {| failure_threshold := 3;
     timeout_seconds := 60;
     half_open_max_calls := 1;
     failure_window_seconds := 30 |}.

Record t : Type := {
  config : CircuitBreakerConfig;
  _state : CircuitState;
  _failure_count : Z;
  _failure_timestamps : list Q;
  _opened_at : Q;
  _half_open_calls : Z
}.

(** [__init__] *)
Definition init (cfg : CircuitBreakerConfig) : t :=
  {| config := cfg;
     _state := CLOSED;
     _failure_count := 0;
     _failure_timestamps := [];
     _opened_at := 0;
     _half_open_calls := 0 |}.

(** The class body, in source order.  [call], [_record_failure] and
    [_record_success] are each defined twice. *)
Definition class_body : list (string * pydef) :=
  [ ("__init__",
     {| def_line := 75;
        def_params := [("service_name", false); ("config", true);
                       ("source_module", true)] |});
    ("state", {| def_line := 92; def_params := [] |});
    ("is_closed", {| def_line := 101; def_params := [] |});
    ("is_open", {| def_line := 105; def_params := [] |});
    ("_transition_to",
     {| def_line := 108;
        def_params := [("new_state", false); ("query_id", true)] |});
    ("call",
     {| def_line := 154;
        def_params := [("func", false); ("query_id", true)] |});
    ("_record_success", {| def_line := 187; def_params := [] |});
    ("_record_failure",
     {| def_line := 192; def_params := [("query_id", true)] |});
    ("_prune_old_failures", {| def_line := 219; def_params := [] |});
    ("_record_failure", {| def_line := 225; def_params := [] |});
    ("_record_success", {| def_line := 239; def_params := [] |});
    ("call", {| def_line := 247; def_params := [("fn", false)] |});
    ("reset", {| def_line := 280; def_params := [] |}) ].

(** [_transition_to] (line 108).  The event it schedules with
    [create_task] touches no field of the breaker and is left out.
    Counters are reset on a transition to [CLOSED] only. *)
Definition _transition_to (new_state : CircuitState) (cb : t) : t :=
  let old_state := _state cb in
  if CircuitState_eqb old_state new_state then cb
  else
    if CircuitState_eqb new_state CLOSED then
      {| config := config cb;
         _state := new_state;
         _failure_count := 0;
         _failure_timestamps := [];
         _opened_at := _opened_at cb;
         _half_open_calls := 0 |}
    else
      {| config := config cb;
         _state := new_state;
         _failure_count := _failure_count cb;
         _failure_timestamps := _failure_timestamps cb;
         _opened_at := _opened_at cb;
         _half_open_calls := _half_open_calls cb |}.

(** The [state] property (line 92): reading it may move the breaker
    from [OPEN] to [HALF_OPEN]. *)
Definition state (now : Q) (cb : t) : CircuitState * t :=
  match _state cb with
  | OPEN =>
      let elapsed := (now - _opened_at cb)%Q in
      if Qle_bool (timeout_seconds (config cb)) elapsed then
        let cb' := _transition_to HALF_OPEN cb in (_state cb', cb')
      else (_state cb, cb)
  | _ => (_state cb, cb)
  end.

(** [is_open] (line 105) reads the field, not the property. *)
Definition is_open (cb : t) : bool := CircuitState_eqb (_state cb) OPEN.

Definition is_closed (now : Q) (cb : t) : bool * t :=
  let '(s, cb') := state now cb in (CircuitState_eqb s CLOSED, cb').

(** [_prune_old_failures] (line 219) *)
Definition _prune_old_failures (now : Q) (cb : t) : t :=
  let cutoff := (now - failure_window_seconds (config cb))%Q in
  let kept := List.filter (fun ts => Qle_bool cutoff ts) (_failure_timestamps cb) in
  {| config := config cb;
     _state := _state cb;
     _failure_count := Z.of_nat (length kept);
     _failure_timestamps := kept;
     _opened_at := _opened_at cb;
     _half_open_calls := _half_open_calls cb |}.

Definition set_opened_at (now : Q) (cb : t) : t :=
  {| config := config cb;
     _state := _state cb;
     _failure_count := _failure_count cb;
     _failure_timestamps := _failure_timestamps cb;
     _opened_at := now;
     _half_open_calls := _half_open_calls cb |}.

Definition append_failure (now : Q) (cb : t) : t :=
  {| config := config cb;
     _state := _state cb;
     _failure_count := _failure_count cb;
     _failure_timestamps := _failure_timestamps cb ++ [now];
     _opened_at := _opened_at cb;
     _half_open_calls := _half_open_calls cb |}.

Definition incr_half_open_calls (cb : t) : t :=
  {| config := config cb;
     _state := _state cb;
     _failure_count := _failure_count cb;
     _failure_timestamps := _failure_timestamps cb;
     _opened_at := _opened_at cb;
     _half_open_calls := _half_open_calls cb + 1 |}.

(** [_record_failure], the effective definition (line 225) *)
Definition _record_failure (now : Q) (cb : t) : t :=
  let cb := _prune_old_failures now (append_failure now cb) in
  match _state cb with
  | HALF_OPEN => _transition_to OPEN (set_opened_at now cb)
  | _ =>
      if Z.leb (failure_threshold (config cb)) (_failure_count cb) then
        _transition_to OPEN (set_opened_at now cb)
      else cb
  end.

(** [_record_success], the effective definition (line 239) *)
Definition _record_success (now : Q) (cb : t) : t :=
  match _state cb with
  | HALF_OPEN => _transition_to CLOSED cb
  | CLOSED => _prune_old_failures now cb
  | OPEN => cb
  end.

(** [reset] (line 280) *)
Definition reset (cb : t) : t := _transition_to CLOSED cb.

Section Call.
Context {W : Type} `{Runtime W} {A : Type}.

(** The body of [call] at line 247. *)
Definition call (fn : coro W A) (cb : t) (w : W) : outcome A * t * W :=
  let now := monotonic w in
  let '(current_state, cb) := state now cb in
  let run (cb : t) :=
    match fn w with
    | (Returns result, w') =>
        (Returns result, _record_success (monotonic w') cb, w')
    | (Raises e, w') =>
        if isinstance_Exception e
        then (Raises e, _record_failure (monotonic w') cb, w')
        else (Raises e, cb, w')
    end in
  match current_state with
  | OPEN =>
      let remaining :=
        (timeout_seconds (config cb) - (now - _opened_at cb))%Q in
      (Raises (CircuitOpenError (Qmax 0 remaining)), cb, w)
  | HALF_OPEN =>
      let cb := incr_half_open_calls cb in
      if Z.ltb (half_open_max_calls (config cb)) (_half_open_calls cb)
      then (Raises (CircuitOpenError 0), cb, w)
      else run cb
  | CLOSED => run cb
  end.

(** A call expression [cb.call(a1, .., an, k1=.., ..)]: look [call]
    up in the class, bind the arguments, then run the body found.
    The name resolves to the definition at line 247
    ([call_is_the_second_definition] below), whose body is [call]. *)
Definition call_expr (npos : nat) (kws : list string)
           (fn : coro W A) (cb : t) (w : W) : outcome A * t * W :=
  match class_attr "call" class_body with
  | None =>
      (Raises (AttributeError "'CircuitBreaker' object has no attribute 'call'"),
       cb, w)
  | Some d =>
      match bind_arguments "call" d npos kws with
      | Raises e => (Raises e, cb, w)
      | Returns _ => call fn cb w
      end
  end.
End Call.

End CircuitBreaker.

(** ** intel/retry.py *)

Module Retry.

Local Open Scope Z_scope.

Definition API_ERROR_MAX_ATTEMPTS : Z := 3.
Definition API_ERROR_BASE_DELAY : Q := 1.
Definition API_ERROR_MAX_DELAY : Q := 30.
Definition RATE_LIMIT_MAX_ATTEMPTS : Z := 5.
Definition RATE_LIMIT_BASE_DELAY : Q := 2.
Definition RATE_LIMIT_MAX_DELAY : Q := 32.

(** The keyword parameters of [retry_with_backoff] ([on_retry] apart). *)
Record params : Type := {
  max_attempts : Z;
  base_delay : Q;
  max_delay : Q;
  jitter : bool;
  retryable_exceptions : exn -> bool;
  rate_limit_max_attempts : Z;
  rate_limit_base_delay : Q;
  rate_limit_max_delay : Q
}.

(** The default tuple [(APIError, RateLimitError)]. *)
Definition default_retryable (e : exn) : bool :=
  match e with
  | APIError _ | RateLimitError _ => true
  | _ => false
  end.

Definition defaults : params :=
  {| max_attempts := 3;
     base_delay := 1;
     max_delay := 30;
     jitter := true;
     retryable_exceptions := default_retryable;
     rate_limit_max_attempts := RATE_LIMIT_MAX_ATTEMPTS;
     rate_limit_base_delay := RATE_LIMIT_BASE_DELAY;
     rate_limit_max_delay := RATE_LIMIT_MAX_DELAY |}.

(** The three local counters of the loop. *)
Record counters : Type := {
  rl_attempt : Z;
  other_attempt : Z;
  total_attempt : Z
}.

Definition start : counters :=
  {| rl_attempt := 0; other_attempt := 0; total_attempt := 0 |}.

Definition next_total (c : counters) : counters :=
  {| rl_attempt := rl_attempt c;
     other_attempt := other_attempt c;
     total_attempt := total_attempt c + 1 |}.

(** Lines 89-98: the failure is charged to one counter; the result is
    the counters, [effective_max] and [attempt_idx]. *)
Definition charge (p : params) (c : counters) (exc : exn)
  : counters * Z * Z :=
  if isinstance_RateLimitError exc then
    ({| rl_attempt := rl_attempt c + 1;
        other_attempt := other_attempt c;
        total_attempt := total_attempt c |},
     rate_limit_max_attempts p, rl_attempt c + 1)
  else
    ({| rl_attempt := rl_attempt c;
        other_attempt := other_attempt c + 1;
        total_attempt := total_attempt c |},
     max_attempts p, other_attempt c + 1).

Definition retry_after_of (exc : exn) : option Q :=
  match exc with
  | RateLimitError r => r
  | _ => None
  end.

(** [2 ** (n - 1)] for the 1-based counter [n], an [int].  Multiplied
    by a float base delay it is converted to a float, which raises
    [OverflowError] from [n - 1 = 1024] on; that error is not modelled,
    and a statement that depends on so long a run says so. *)
Definition pow2 (n : Z) : Q := inject_Z (2 ^ (n - 1)).

(** Lines 110-120: the delay before jitter, from the charged counters. *)
Definition backoff (p : params) (c : counters) (exc : exn) : Q :=
  if isinstance_RateLimitError exc then
    let delay :=
      Qmin (rate_limit_base_delay p * pow2 (rl_attempt c))%Q
           (rate_limit_max_delay p) in
    match retry_after_of exc with
    | Some r => if truthy_float (Some r) then Qmax delay r else delay
    | None => delay
    end
  else
    Qmin (base_delay p * pow2 (other_attempt c))%Q (max_delay p).

(** [random.uniform(a, b)] is [a + (b - a) * random()]. *)
Definition uniform_at (a b u : Q) : Q := (a + (b - a) * u)%Q.

(** Lines 122-123: the delay handed to [asyncio.sleep] when [random()]
    returns [u]. *)
Definition jittered (p : params) (delay u : Q) : Q :=
  if jitter p then uniform_at (delay * (5 # 10))%Q (delay * (15 # 10))%Q u
  else delay.

Section Loop.
Context {W : Type} `{Runtime W} {A : Type}.
Variable p : params.
Variable on_retry : option (Z -> Q -> exn -> coro W unit).
Variable fn : coro W A.

Definition draw_delay (delay : Q) (w : W) : Q * W :=
  if jitter p then
    let '(u, w') := random w in (jittered p delay u, w')
  else (delay, w).

(** One run of the [while True] loop, at most [fuel] iterations.  The
    list is the retryable failures caught so far, oldest first; it is
    an observation, not a variable of the source. *)
Fixpoint loop (fuel : nat) (c : counters) (caught : list exn) (w : W)
  : option (outcome A * counters * list exn * W) :=
  match fuel with
  | O => None
  | S fuel' =>
      let c := next_total c in
      match fn w with
      | (Returns result, w) => Some (Returns result, c, caught, w)
      | (Raises exc, w) =>
          if retryable_exceptions p exc then
            let '(c, effective_max, attempt_idx) := charge p c exc in
            let caught := caught ++ [exc] in
            if Z.leb effective_max attempt_idx then
              Some (Raises exc, c, caught, w)
            else
              let '(delay, w) := draw_delay (backoff p c exc) w in
              match on_retry with
              | Some callback =>
                  match callback (total_attempt c) delay exc w with
                  | (Returns _, w) => loop fuel' c caught (sleep delay w)
                  | (Raises e, w) => Some (Raises e, c, caught, w)
                  end
              | None => loop fuel' c caught (sleep delay w)
              end
          else Some (Raises exc, c, caught, w)
      end
  end.

(** Iterations that can be needed: every iteration but the last
    charges a counter that stays below its budget. *)
Definition enough : nat :=
  (Z.to_nat (max_attempts p) + Z.to_nat (rate_limit_max_attempts p) + 1)%nat.

Definition run (w : W) : option (outcome A * counters * list exn * W) :=
  loop enough start [] w.

Definition retry_with_backoff : coro W A :=
  fun w =>
    match run w with
    | Some (o, _, _, w') => (o, w')
    | None => (Raises (RuntimeError "retry_with_backoff: unreachable"), w)
    end.
End Loop.

End Retry.

(** ** intel/types.py

    [raw_data], [metadata], [timestamp], [merged_text] and [embeddings]
    are read by no function below whose result depends on them and are
    left out of the records. *)

Inductive IntelDepth : Type := SHALLOW | STANDARD | DEEP.

Definition IntelDepth_value (d : IntelDepth) : string :=
  match d with
  | SHALLOW => "SHALLOW"
  | STANDARD => "STANDARD"
  | DEEP => "DEEP"
  end.

Module SearchResult.
Record t : Type := {
  url : option string;
  title : string;
  snippet : string;
  relevance_score : Q;
  source_name : string
}.
End SearchResult.

Module ScrapedContent.
Record t : Type := {
  url : string;
  title : string;
  content : string;
  markdown : string;
  cost_usd : Q;
  latency_ms : Q
}.
End ScrapedContent.

Module IntelSource.
Record t : Type := {
  source_name : string;
  url : option string;
  title : string;
  snippet : string;
  relevance_score : Q;
  cost_usd : Q;
  latency_ms : Q
}.

(** The field constraints [ge=0.0, le=1.0] and [ge=0.0]. *)
Definition valid (s : t) : bool :=
  Qle_bool 0 (relevance_score s) && Qle_bool (relevance_score s) 1
  && Qle_bool 0 (cost_usd s) && Qle_bool 0 (latency_ms s).

(** The constructor call: pydantic raises its [ValidationError] (a
    [ValueError]) when a constraint fails. *)
Definition make (s : t) : outcome t :=
  if valid s then Returns s
  else Raises (ValueError "validation error for IntelSource").
End IntelSource.

Module IntelResult.
Record t : Type := {
  query_id : string;
  correlation_id : string;
  sources : list IntelSource.t;
  depth_used : IntelDepth;
  total_cost_usd : Q;
  latency_ms : Q;
  cached : bool
}.

Definition make (r : t) : outcome t :=
  if Qle_bool 0 (total_cost_usd r) && Qle_bool 0 (latency_ms r)
  then Returns r
  else Raises (ValueError "validation error for IntelResult").

Definition set_latency_ms (l : Q) (r : t) : t :=
  {| query_id := query_id r;
     correlation_id := correlation_id r;
     sources := sources r;
     depth_used := depth_used r;
     total_cost_usd := total_cost_usd r;
     latency_ms := l;
     cached := cached r |}.

Definition set_cached (b : bool) (r : t) : t :=
  {| query_id := query_id r;
     correlation_id := correlation_id r;
     sources := sources r;
     depth_used := depth_used r;
     total_cost_usd := total_cost_usd r;
     latency_ms := latency_ms r;
     cached := b |}.
End IntelResult.

Module IntelQuery.
Record t : Type := {
  query_id : string;
  text : string;
  depth : IntelDepth;
  max_sources : Z;
  cache_ttl_seconds : option Z;
  correlation_id : string
}.
End IntelQuery.

(** ** The world of the source clients *)

Inductive service : Type := exa | tavily | firecrawl.

Definition service_eqb (a b : service) : bool :=
  match a, b with
  | exa, exa | tavily, tavily | firecrawl, firecrawl => true
  | _, _ => false
  end.

Definition service_name (s : service) : string :=
  match s with
  | exa => "exa"
  | tavily => "tavily"
  | firecrawl => "firecrawl"
  end.

(** The [Retry-After] header as [float(...)] sees it. *)
Inductive retry_after_header : Type :=
| HeaderAbsent
| HeaderNumber (seconds : Q)
| HeaderNotANumber.

(** One entry of the ["results"] array of a search reply, decoded. *)
Record result_item : Type := {
  item_url : option string;
  item_title : string;
  item_text : option string;        (* "text" (exa) or "content" (tavily) *)
  item_highlights : list string;
  item_score : Q
}.

(** An HTTP reply, its JSON body decoded. *)
Record HttpResponse : Type := {
  status_code : Z;
  retry_after : retry_after_header;
  results : list result_item;          (* body of a search reply *)
  page_title : string;                 (* body of a scrape reply *)
  page_rawHtml : string;
  page_markdown : string;
  elapsed : Q                          (* seconds the exchange took *)
}.

Record Event : Type := {
  event_type : string;
  source_module : string;
  status : string
}.

Record World : Type := {
  clock : Q;                                       (* time.monotonic() *)
  backend : service -> nat -> outcome HttpResponse; (* reply to the n-th post *)
  posts : list service;                            (* posts issued, oldest first *)
  slept : list Q;                                  (* asyncio.sleep arguments *)
  samples : nat -> Q;                              (* random.random() values *)
  drawn : nat;
  emitted : list Event                             (* envelopes the bus built *)
}.

Definition posts_to (svc : service) (w : World) : nat :=
  length (List.filter (service_eqb svc) (posts w)).

Definition world_sleep (d : Q) (w : World) : World :=
  {| clock := (clock w + Qmax 0 d)%Q;
     backend := backend w;
     posts := posts w;
     slept := slept w ++ [d];
     samples := samples w;
     drawn := drawn w;
     emitted := emitted w |}.

Definition world_random (w : World) : Q * World :=
  (samples w (drawn w),
   {| clock := clock w;
      backend := backend w;
      posts := posts w;
      slept := slept w;
      samples := samples w;
      drawn := S (drawn w);
      emitted := emitted w |}).

#[export] Instance World_runtime : Runtime World :=
  {| monotonic := clock; sleep := world_sleep; random := world_random |}.

(** [await client.post(...)] *)
Definition post (svc : service) : coro World HttpResponse :=
  fun w =>
    let reply := backend w svc (posts_to svc w) in
    let took := match reply with Returns r => Qmax 0 (elapsed r) | Raises _ => 0%Q end in
    (reply,
     {| clock := (clock w + took)%Q;
        backend := backend w;
        posts := posts w ++ [svc];
        slept := slept w;
        samples := samples w;
        drawn := drawn w;
        emitted := emitted w |}).

(** [await self._event_bus.emit(...)] as the clients and the orchestrator
    use it: the envelope is recorded and the call returns (see [EventBus]
    below for the bus itself). *)
Definition emit_event (ty module st : string) (w : World) : World :=
  {| clock := clock w;
     backend := backend w;
     posts := posts w;
     slept := slept w;
     samples := samples w;
     drawn := drawn w;
     emitted := emitted w ++ [{| event_type := ty; source_module := module; status := st |}] |}.

(** ** intel/sources/{exa,tavily,firecrawl}.py

    The three classes keep the same two fields and wrap their request in
    the same [try]/[except]; that shared text is [SourceClient]. *)

Definition substring_to (n : nat) (s : string) : string := String.substring 0 n s.

Module SourceClient.

Record t : Type := {
  _rate_limited_until : Q;
  _circuit_breaker : CircuitBreaker.t
}.

Definition init : t :=
  {| _rate_limited_until := 0;
     _circuit_breaker := CircuitBreaker.init CircuitBreaker.INTEL_API_CONFIG |}.

Definition with_breaker (cb : CircuitBreaker.t) (src : t) : t :=
  {| _rate_limited_until := _rate_limited_until src;
     _circuit_breaker := cb |}.

(** The [is_rate_limited] property. *)
Definition is_rate_limited_at (now : Q) (src : t) : bool :=
  Qltb now (_rate_limited_until src).

Definition is_rate_limited (src : t) (w : World) : bool :=
  is_rate_limited_at (monotonic w) src.

(** [exc.retry_after_seconds if exc.retry_after_seconds else 60.0] *)
Definition window (retry_after_seconds : option Q) : Q :=
  match retry_after_seconds with
  | Some r => if truthy_float (Some r) then r else 60
  | None => 60
  end.

(** The first statement of the [except Exception as exc] block
    (exa.py 147-150, tavily.py 146-149, firecrawl.py 153-156). *)
Definition mark_rate_limited (exc : exn) (now : Q) (src : t) : t :=
  match exc with
  | RateLimitError r =>
      {| _rate_limited_until := (now + window r)%Q;
         _circuit_breaker := _circuit_breaker src |}
  | _ => src
  end.

(** The classification of a reply in [_do_request]. *)
Definition classify (r : HttpResponse) : outcome HttpResponse :=
  if Z.eqb (status_code r) 429 then
    match retry_after r with
    | HeaderAbsent => Raises (RateLimitError (Some 2%Q))
    | HeaderNumber q => Raises (RateLimitError (Some q))
    | HeaderNotANumber => Raises (ValueError "could not convert string to float")
    end
  else if negb (Z.eqb (status_code r) 200) then Raises (APIError (status_code r))
  else Returns r.

(** The arguments every client passes to [retry_with_backoff]. *)
Definition retry_params : Retry.params :=
  {| Retry.max_attempts := 3;
     Retry.base_delay := 1;
     Retry.max_delay := 30;
     Retry.jitter := true;
     Retry.retryable_exceptions := Retry.default_retryable;
     Retry.rate_limit_max_attempts := 5;
     Retry.rate_limit_base_delay := 2;
     Retry.rate_limit_max_delay := 32 |}.

(** [_do_request] up to the parsing of the body. *)
Definition _do_request {A} (svc : service) (parse : HttpResponse -> A)
  : coro World A :=
  fun w =>
    match post svc w with
    | (Raises e, w) => (Raises e, w)
    | (Returns response, w) =>
        match classify response with
        | Raises e => (Raises e, w)
        | Returns r => (Returns (parse r), w)
        end
    end.

(** [_execute_search] / [_execute_scrape] *)
Definition _execute {A} (svc : service) (parse : HttpResponse -> A)
  : coro World A :=
  Retry.retry_with_backoff retry_params None (_do_request svc parse).

(** The breaker as [search] / [scrape] use it: an object with a
    [call] method, called with one positional argument and keywords. *)
Definition breaker_call (A : Type) : Type :=
  nat -> list string -> coro World A -> CircuitBreaker.t -> World
  -> outcome A * CircuitBreaker.t * World.

(** The body of [search] / [scrape]: the started event, the request
    under the breaker, and the two ways out.  [call] is the [call]
    method of [self._circuit_breaker]. *)
Definition guarded_with {A} (call : breaker_call A)
           (svc : service) (request : coro World A)
           (on_success : Q -> A -> A)
           (src : t) (w : World) : outcome A * t * World :=
  let start_time := monotonic w in
  let module := ("intel." ++ service_name svc)%string in
  let w := emit_event "source_querying" module "started" w in
  match call 1%nat ["query_id"] request (_circuit_breaker src) w with
  | (Returns result, cb, w) =>
      let latency_ms := ((monotonic w - start_time) * 1000)%Q in
      (Returns (on_success latency_ms result), with_breaker cb src,
       emit_event "SourceQueried" module "completed" w)
  | (Raises exc, cb, w) =>
      let src := with_breaker cb src in
      if isinstance_Exception exc then
        (Raises exc, mark_rate_limited exc (monotonic w) src,
         emit_event "SourceQueried" module "failed" w)
      else (Raises exc, src, w)
  end.

(** With the breaker the clients construct, a [CircuitBreaker]. *)
Definition guarded {A} : service -> coro World A -> (Q -> A -> A)
                         -> t -> World -> outcome A * t * World :=
  guarded_with (@CircuitBreaker.call_expr World _ A).

End SourceClient.

Module ExaSource.
(** [COST_PER_RESULT = 0.0005] *)
Definition COST_PER_RESULT : Q := Float64.literal (5 # 10000).

Definition _parse_item (item : result_item) : SearchResult.t :=
  let text :=
    match item_text item with
    | Some t => t
    | None => String.concat " " (item_highlights item)
    end in
  {| SearchResult.url := item_url item;
     SearchResult.title := item_title item;
     SearchResult.snippet :=
       if String.eqb text "" then item_title item else substring_to 500 text;
     SearchResult.relevance_score := item_score item;
     SearchResult.source_name := "exa" |}.

Definition _parse_results (data : HttpResponse) : list SearchResult.t :=
  map _parse_item (results data).

Definition _execute_search : coro World (list SearchResult.t) :=
  SourceClient._execute exa _parse_results.

Definition search (src : SourceClient.t) (w : World)
  : outcome (list SearchResult.t) * SourceClient.t * World :=
  SourceClient.guarded exa _execute_search (fun _ r => r) src w.
End ExaSource.

Module TavilySource.
(** [COST_PER_SEARCH = 0.01] *)
Definition COST_PER_SEARCH : Q := Float64.literal (1 # 100).

Definition _parse_item (item : result_item) : SearchResult.t :=
  {| SearchResult.url := item_url item;
     SearchResult.title := item_title item;
     SearchResult.snippet :=
       substring_to 500 (match item_text item with Some t => t | None => "" end);
     SearchResult.relevance_score := item_score item;
     SearchResult.source_name := "tavily" |}.

Definition _parse_results (data : HttpResponse) : list SearchResult.t :=
  map _parse_item (results data).

Definition _execute_search : coro World (list SearchResult.t) :=
  SourceClient._execute tavily _parse_results.

Definition search (src : SourceClient.t) (w : World)
  : outcome (list SearchResult.t) * SourceClient.t * World :=
  SourceClient.guarded tavily _execute_search (fun _ r => r) src w.
End TavilySource.

Module FirecrawlSource.
(** [COST_PER_PAGE = 0.001] *)
Definition COST_PER_PAGE : Q := Float64.literal (1 # 1000).
Definition MAX_CONCURRENT_SCRAPES : Z := 5.

Definition _parse_scrape_result (url : string) (data : HttpResponse)
  : ScrapedContent.t :=
  {| ScrapedContent.url := url;
     ScrapedContent.title := page_title data;
     ScrapedContent.content := page_rawHtml data;
     ScrapedContent.markdown := page_markdown data;
     ScrapedContent.cost_usd := 0;
     ScrapedContent.latency_ms := 0 |}.

Definition _execute_scrape (url : string) : coro World ScrapedContent.t :=
  SourceClient._execute firecrawl (_parse_scrape_result url).

(** [result.latency_ms = latency_ms; result.cost_usd = COST_PER_PAGE] *)
Definition stamp (latency_ms : Q) (r : ScrapedContent.t) : ScrapedContent.t :=
  {| ScrapedContent.url := ScrapedContent.url r;
     ScrapedContent.title := ScrapedContent.title r;
     ScrapedContent.content := ScrapedContent.content r;
     ScrapedContent.markdown := ScrapedContent.markdown r;
     ScrapedContent.cost_usd := COST_PER_PAGE;
     ScrapedContent.latency_ms := latency_ms |}.

Definition scrape (url : string) (src : SourceClient.t) (w : World)
  : outcome ScrapedContent.t * SourceClient.t * World :=
  SourceClient.guarded firecrawl (_execute_scrape url) stamp src w.

(** [batch_scrape]: the scrapes are taken in the order of [urls] (the
    order in which [asyncio.gather] returns them); a scrape that raises
    an [Exception] yields [None] and is dropped. *)
Fixpoint scrape_all (urls : list string) (src : SourceClient.t) (w : World)
  : outcome (list ScrapedContent.t) * SourceClient.t * World :=
  match urls with
  | [] => (Returns [], src, w)
  | url :: rest =>
      match scrape url src w with
      | (Returns page, src, w) =>
          match scrape_all rest src w with
          | (Returns pages, src, w) => (Returns (page :: pages), src, w)
          | (Raises e, src, w) => (Raises e, src, w)
          end
      | (Raises e, src, w) =>
          if isinstance_Exception e then scrape_all rest src w
          else (Raises e, src, w)
      end
  end.

Definition batch_scrape (urls : list string) (src : SourceClient.t) (w : World)
  : outcome (list ScrapedContent.t) * SourceClient.t * World :=
  match urls with
  | [] => (Returns [], src, w)
  | _ => scrape_all urls src w
  end.
End FirecrawlSource.

(** ** intel/cache.py

    The Redis server is a finite map from keys to stored results; expiry
    of an entry is the server's business and is not modelled.  A cache
    that was never connected raises inside [get] and [set], which both
    catch it. *)

Module RedisCache.
Record t : Type := {
  connected : bool;
  store : gmap string IntelResult.t
}.

Section Key.
(** [hashlib.sha256(...).hexdigest()] *)
Variable sha256_hexdigest : string -> string.

Definition make_key (query depth : string) : string :=
  "intel:cache:" ++ sha256_hexdigest (query ++ ":" ++ depth).
End Key.

Definition get (key : string) (c : t) : option IntelResult.t :=
  if connected c then
    match store c !! key with
    | Some r => Some (IntelResult.set_cached true r)
    | None => None
    end
  else None.

Definition set (key : string) (value : IntelResult.t) (c : t) : t :=
  if connected c then
    {| connected := true; store := <[key := value]> (store c) |}
  else c.
End RedisCache.

(** ** intel/orchestrator.py *)

(** What the orchestrator asks of a search client and of a scraper: the
    methods it calls on [self._exa], [self._tavily], [self._firecrawl]. *)
Record SearchOps (C : Type) : Type := {
  search : string -> Z -> C -> World -> outcome (list SearchResult.t) * C * World;
  is_rate_limited : C -> World -> bool
}.
Arguments search {C} _ _ _ _ _.
Arguments is_rate_limited {C} _ _ _.

Record ScrapeOps (C : Type) : Type := {
  batch_scrape : list string -> C -> World -> outcome (list ScrapedContent.t) * C * World
}.
Arguments batch_scrape {C} _ _ _ _.

Definition ExaSource_ops : SearchOps SourceClient.t :=
  {| search := fun _ _ => ExaSource.search;
     is_rate_limited := SourceClient.is_rate_limited |}.

Definition TavilySource_ops : SearchOps SourceClient.t :=
  {| search := fun _ _ => TavilySource.search;
     is_rate_limited := SourceClient.is_rate_limited |}.

Definition FirecrawlSource_ops : ScrapeOps SourceClient.t :=
  {| batch_scrape := FirecrawlSource.batch_scrape |}.

(** [str.lower] on the ASCII letters; strings are byte strings here. *)
Definition ascii_lower (c : Ascii.ascii) : Ascii.ascii :=
  let n := Ascii.nat_of_ascii c in
  if (Nat.leb 65 n && Nat.leb n 90)%bool then Ascii.ascii_of_nat (n + 32) else c.

Fixpoint lower (s : string) : string :=
  match s with
  | EmptyString => EmptyString
  | String c s' => String (ascii_lower c) (lower s')
  end.

(** [p in s] for strings. *)
Fixpoint contains (p s : string) : bool :=
  String.prefix p s
  || match s with
     | EmptyString => false
     | String _ s' => contains p s'
     end.

(** An optional string that is neither [None] nor empty. *)
Definition truthy_url (u : option string) : option string :=
  match u with
  | Some s => if String.eqb s "" then None else Some s
  | None => None
  end.

(** A [dict] keeps its keys in insertion order; assigning to a key that
    is present replaces the value where it stands. *)
Fixpoint dict_get {V} (k : string) (d : list (string * V)) : option V :=
  match d with
  | [] => None
  | (k', v) :: d' => if String.eqb k k' then Some v else dict_get k d'
  end.

Fixpoint dict_set {V} (k : string) (v : V) (d : list (string * V))
  : list (string * V) :=
  match d with
  | [] => [(k, v)]
  | (k', v') :: d' =>
      if String.eqb k k' then (k, v) :: d' else (k', v') :: dict_set k v d'
  end.

Definition dict_values {V} (d : list (string * V)) : list V := map snd d.

Module IntelOrchestrator.

Definition EXA_COST_PER_RESULT : Q := ExaSource.COST_PER_RESULT.
Definition TAVILY_COST_PER_SEARCH : Q := TavilySource.COST_PER_SEARCH.
Definition COST_PER_PAGE : Q := FirecrawlSource.COST_PER_PAGE.

Definition len {X} (l : list X) : Z := Z.of_nat (length l).

Fixpoint make_all (l : list IntelSource.t) : outcome (list IntelSource.t) :=
  match l with
  | [] => Returns []
  | s :: l' =>
      match IntelSource.make s with
      | Raises e => Raises e
      | Returns s =>
          match make_all l' with
          | Raises e => Raises e
          | Returns l'' => Returns (s :: l'')
          end
      end
  end.

Definition _convert_search_results
           (results : list SearchResult.t) (source_name : string)
  : outcome (list IntelSource.t) :=
  let per_result_cost :=
    if String.eqb source_name "exa" then EXA_COST_PER_RESULT
    else Float64.div TAVILY_COST_PER_SEARCH
                     (Float64.of_int (Z.max (len results) 1)) in
  make_all
    (map (fun r =>
            {| IntelSource.source_name := source_name;
               IntelSource.url := SearchResult.url r;
               IntelSource.title := SearchResult.title r;
               IntelSource.snippet := SearchResult.snippet r;
               IntelSource.relevance_score := SearchResult.relevance_score r;
               IntelSource.cost_usd := per_result_cost;
               IntelSource.latency_ms := 0 |})
         results).

(** The loop of [_deduplicate_sources]: [seen_urls] and
    [no_url_sources] after one more source. *)
Definition dedup_step
           (acc : list (string * IntelSource.t) * list IntelSource.t)
           (source : IntelSource.t)
  : list (string * IntelSource.t) * list IntelSource.t :=
  let '(seen_urls, no_url_sources) := acc in
  match truthy_url (IntelSource.url source) with
  | Some u =>
      match dict_get u seen_urls with
      | None => (dict_set u source seen_urls, no_url_sources)
      | Some existing =>
          if Qltb (IntelSource.relevance_score existing)
                  (IntelSource.relevance_score source)
          then (dict_set u source seen_urls, no_url_sources)
          else (seen_urls, no_url_sources)
      end
  | None => (seen_urls, no_url_sources ++ [source])
  end.

(** [list.sort(key=lambda s: s.relevance_score, reverse=True)]: the
    stable sort, equal keys keeping their order. *)
Fixpoint insert_desc (x : IntelSource.t) (l : list IntelSource.t)
  : list IntelSource.t :=
  match l with
  | [] => [x]
  | y :: l' =>
      if Qltb (IntelSource.relevance_score x) (IntelSource.relevance_score y)
      then y :: insert_desc x l'
      else x :: y :: l'
  end.

Definition sort_desc (l : list IntelSource.t) : list IntelSource.t :=
  fold_right insert_desc [] l.

Definition _deduplicate_sources (sources : list IntelSource.t)
  : list IntelSource.t :=
  let '(seen_urls, no_url_sources) := fold_left dedup_step sources ([], []) in
  let deduped := dict_values seen_urls ++ no_url_sources in
  sort_desc deduped.

Definition skip_patterns : list string :=
  ["twitter.com"; "x.com"; "reddit.com"; "facebook.com"; "youtube.com";
   "google.com"].

Definition _extract_scrape_urls (results : list SearchResult.t) (max_urls : nat)
  : list string :=
  fold_left
    (fun urls r =>
       match truthy_url (SearchResult.url r) with
       | Some u =>
           if Nat.ltb (length urls) max_urls then
             if negb (existsb (fun p => contains p (lower u)) skip_patterns)
             then urls ++ [u] else urls
           else urls
       | None => urls
       end)
    results [].

(** The scraped page as a source (lines 343-353). *)
Definition scraped_source (sc : ScrapedContent.t) : IntelSource.t :=
  {| IntelSource.source_name := "firecrawl";
     IntelSource.url := Some (ScrapedContent.url sc);
     IntelSource.title := ScrapedContent.title sc;
     IntelSource.snippet :=
       if String.eqb (ScrapedContent.markdown sc) ""
       then substring_to 500 (ScrapedContent.content sc)
       else substring_to 500 (ScrapedContent.markdown sc);
     IntelSource.relevance_score := 8 # 10;
     IntelSource.cost_usd := COST_PER_PAGE;
     IntelSource.latency_ms := ScrapedContent.latency_ms sc |}.

(** The [for sc in scraped] loop: sources and cost after it. *)
Fixpoint add_scraped (scraped : list ScrapedContent.t)
         (sources : list IntelSource.t) (cost : Q)
  : outcome (list IntelSource.t * Q) :=
  match scraped with
  | [] => Returns (sources, cost)
  | sc :: rest =>
      match IntelSource.make (scraped_source sc) with
      | Raises e => Raises e
      | Returns s =>
          add_scraped rest (sources ++ [s]) (Float64.add cost COST_PER_PAGE)
      end
  end.

Definition result_of (query : IntelQuery.t) (sources : list IntelSource.t)
           (depth : IntelDepth) (cost : Q) : outcome IntelResult.t :=
  IntelResult.make
    {| IntelResult.query_id := IntelQuery.query_id query;
       IntelResult.correlation_id := IntelQuery.correlation_id query;
       IntelResult.sources := sources;
       IntelResult.depth_used := depth;
       IntelResult.total_cost_usd := cost;
       IntelResult.latency_ms := 0;
       IntelResult.cached := false |}.

(** What [_gather_shallow] does with the hits once [search] returned. *)
Definition shallow_result (query : IntelQuery.t)
           (exa_results : list SearchResult.t) : outcome IntelResult.t :=
  match _convert_search_results exa_results "exa" with
  | Raises e => Raises e
  | Returns sources =>
      let cost := Float64.mul (Float64.of_int (len exa_results))
                              EXA_COST_PER_RESULT in
      result_of query sources SHALLOW cost
  end.

(** Lines 296-314 of [_gather_standard]. *)
Definition standard_result (query : IntelQuery.t)
           (exa_results tavily_results : list SearchResult.t)
  : outcome IntelResult.t :=
  match _convert_search_results exa_results "exa" with
  | Raises e => Raises e
  | Returns from_exa =>
      match _convert_search_results tavily_results "tavily" with
      | Raises e => Raises e
      | Returns from_tavily =>
          let sources := _deduplicate_sources (from_exa ++ from_tavily) in
          let cost := Float64.mul (Float64.of_int (len exa_results))
                                  EXA_COST_PER_RESULT in
          let cost :=
            match tavily_results with
            | [] => cost
            | _ => Float64.add cost TAVILY_COST_PER_SEARCH
            end in
          result_of query sources STANDARD cost
      end
  end.

(** Lines 326-365 of [_gather_deep], [scraped] being what
    [batch_scrape] returned ([[]] when it was not called). *)
Definition deep_result (query : IntelQuery.t)
           (exa_results : list SearchResult.t)
           (scraped : list ScrapedContent.t) : outcome IntelResult.t :=
  match _convert_search_results exa_results "exa" with
  | Raises e => Raises e
  | Returns sources =>
      let cost := Float64.mul (Float64.of_int (len exa_results))
                              EXA_COST_PER_RESULT in
      match add_scraped scraped sources cost with
      | Raises e => Raises e
      | Returns (sources, cost) =>
          result_of query (_deduplicate_sources sources) DEEP cost
      end
  end.

Section Orchestrator.
Context {E T F : Type}.
Variable exa_ops : SearchOps E.
Variable tavily_ops : SearchOps T.
Variable firecrawl_ops : ScrapeOps F.
Variable sha256_hexdigest : string -> string.

Record t : Type := {
  _exa : E;
  _tavily : T;
  _firecrawl : F;
  _cache : option RedisCache.t;
  _default_cache_ttl : Z
}.

Definition with_exa (c : E) (o : t) : t :=
  {| _exa := c; _tavily := _tavily o; _firecrawl := _firecrawl o;
     _cache := _cache o; _default_cache_ttl := _default_cache_ttl o |}.

Definition with_tavily (c : T) (o : t) : t :=
  {| _exa := _exa o; _tavily := c; _firecrawl := _firecrawl o;
     _cache := _cache o; _default_cache_ttl := _default_cache_ttl o |}.

Definition with_firecrawl (c : F) (o : t) : t :=
  {| _exa := _exa o; _tavily := _tavily o; _firecrawl := c;
     _cache := _cache o; _default_cache_ttl := _default_cache_ttl o |}.

Definition with_cache (c : option RedisCache.t) (o : t) : t :=
  {| _exa := _exa o; _tavily := _tavily o; _firecrawl := _firecrawl o;
     _cache := c; _default_cache_ttl := _default_cache_ttl o |}.

Definition _gather_shallow (query : IntelQuery.t) (o : t) (w : World)
  : outcome IntelResult.t * t * World :=
  match search exa_ops (IntelQuery.text query) 5 (_exa o) w with
  | (Raises e, c, w) => (Raises e, with_exa c o, w)
  | (Returns exa_results, c, w) =>
      (shallow_result query exa_results, with_exa c o, w)
  end.

(** [_gather_standard].  The two searches are awaited together by
    [asyncio.gather(..., return_exceptions=True)]; here the exa task
    runs to its end before the tavily task.  A task that raised
    contributes no hits. *)
Definition _gather_standard (query : IntelQuery.t) (o : t) (w : World)
  : outcome IntelResult.t * t * World :=
  let exa_rate_limited := is_rate_limited exa_ops (_exa o) w in
  let tavily_rate_limited := is_rate_limited tavily_ops (_tavily o) w in
  let '(exa_results, o, w) :=
    if exa_rate_limited then ([], o, w)
    else
      match search exa_ops (IntelQuery.text query) 10 (_exa o) w with
      | (Returns l, c, w) => (l, with_exa c o, w)
      | (Raises _, c, w) => ([], with_exa c o, w)
      end in
  let '(tavily_results, o, w) :=
    if tavily_rate_limited then ([], o, w)
    else
      match search tavily_ops (IntelQuery.text query) 5 (_tavily o) w with
      | (Returns l, c, w) => (l, with_tavily c o, w)
      | (Raises _, c, w) => ([], with_tavily c o, w)
      end in
  (standard_result query exa_results tavily_results, o, w).

Definition _gather_deep (query : IntelQuery.t) (o : t) (w : World)
  : outcome IntelResult.t * t * World :=
  match search exa_ops (IntelQuery.text query) 10 (_exa o) w with
  | (Raises e, c, w) => (Raises e, with_exa c o, w)
  | (Returns exa_results, c, w) =>
      let o := with_exa c o in
      match _extract_scrape_urls exa_results 5 with
      | [] => (deep_result query exa_results [], o, w)
      | urls_to_scrape =>
          match batch_scrape firecrawl_ops urls_to_scrape (_firecrawl o) w with
          | (Raises e, c, w) => (Raises e, with_firecrawl c o, w)
          | (Returns scraped, c, w) =>
              (deep_result query exa_results scraped, with_firecrawl c o, w)
          end
      end
  end.

Definition cache_key (query : IntelQuery.t) : string :=
  RedisCache.make_key sha256_hexdigest (IntelQuery.text query)
                      (IntelDepth_value (IntelQuery.depth query)).

(** The [try] block of [gather_intel]. *)
Definition gather_intel_try (start_time : Q) (query : IntelQuery.t)
           (o : t) (w : World) : outcome IntelResult.t * t * World :=
  let hit :=
    match _cache o with
    | Some c => RedisCache.get (cache_key query) c
    | None => None
    end in
  match hit with
  | Some cached =>
      let latency_ms := ((monotonic w - start_time) * 1000)%Q in
      let cached := IntelResult.set_latency_ms latency_ms cached in
      let w := emit_event "IntelGathered" "intel.orchestrator" "cached" w in
      let w := emit_event "query_completed" "intel.orchestrator" "success" w in
      (Returns cached, o, w)
  | None =>
      let gathered :=
        match IntelQuery.depth query with
        | SHALLOW => _gather_shallow query o w
        | STANDARD => _gather_standard query o w
        | DEEP => _gather_deep query o w
        end in
      match gathered with
      | (Raises e, o, w) => (Raises e, o, w)
      | (Returns result, o, w) =>
          let result :=
            IntelResult.set_latency_ms
              ((monotonic w - start_time) * 1000)%Q result in
          let o :=
            match _cache o with
            | Some c =>
                with_cache (Some (RedisCache.set (cache_key query) result c)) o
            | None => o
            end in
          let w := emit_event "IntelGathered" "intel.orchestrator" "gathered" w in
          let w := emit_event "query_completed" "intel.orchestrator" "success" w in
          (Returns result, o, w)
      end
  end.

(** [gather_intel] for a query already normalised to an [IntelQuery]. *)
Definition gather_intel (query : IntelQuery.t) (o : t) (w : World)
  : outcome IntelResult.t * t * World :=
  let start_time := monotonic w in
  let w := emit_event "query_started" "intel.orchestrator" "" w in
  match gather_intel_try start_time query o w with
  | (Returns result, o, w) => (Returns result, o, w)
  | (Raises e, o, w) =>
      if isinstance_Exception e
      then (Raises e, o, emit_event "error_occurred" "intel.orchestrator" "" w)
      else (Raises e, o, w)
  end.
End Orchestrator.

End IntelOrchestrator.

(** ** intel/events.py

    An [asyncio.Queue] is an object: the bus lists the queues of its
    streaming subscribers, and each subscriber keeps a reference to its
    own queue.  Queues therefore live in a heap, and lists and references
    hold addresses. *)

Module EventBus.

Record EventEnvelope : Type := {
  event_id : nat;                 (* uuid4, a fresh number here *)
  event_type : string;
  source_module : string;
  correlation_id : string;
  payload : gmap string string
}.

(** What can be done to the subscriptions of the bus while a handler is
    awaited, by the handler or by a task that runs meanwhile:
    [subscribe(event_type, handler)] and
    [unsubscribe(event_type, handler)].  A handler is known to the bus
    by its identity; one that is subscribed in this way is taken to
    leave the subscriptions alone when its turn comes. *)
Inductive bus_call : Type :=
| Subscribes (ty : string) (id : nat) (name : string)
             (body : EventEnvelope -> outcome unit)
| Unsubscribes (ty : string) (id : nat).

(** A handler is a callable object: its identity, its name, what
    awaiting it on an event returns or raises, and the calls made on the
    bus while it is awaited, in order. *)
Record EventHandler : Type := {
  handler_id : nat;
  qualname : string;
  run : EventEnvelope -> outcome unit;
  calls : EventEnvelope -> list bus_call
}.

Record Queue : Type := {
  maxsize : nat;
  items : list EventEnvelope
}.

(** [put_nowait]: [None] is [QueueFull]. *)
Definition put_nowait (e : EventEnvelope) (q : Queue) : option Queue :=
  if (Nat.ltb 0 (maxsize q) && Nat.leb (maxsize q) (length (items q)))%bool
  then None
  else Some {| maxsize := maxsize q; items := items q ++ [e] |}.

Record t : Type := {
  _handlers : gmap string (list EventHandler);
  _sse_queues : list nat;         (* addresses, in subscription order *)
  heap : gmap nat Queue;
  next_addr : nat;
  next_event_id : nat
}.

Definition init : t :=
  {| _handlers := ∅; _sse_queues := []; heap := ∅;
     next_addr := 0; next_event_id := 0 |}.

(** What an observer of one [emit] sees, in order. *)
Inductive action : Type :=
| Called (h : nat)            (* the handler was awaited *)
| LoggedFailure (h : nat)     (* "Event handler failed" *)
| Delivered (q : nat)         (* put_nowait succeeded *)
| Dropped (q : nat).          (* "SSE queue full, dropping event" *)

Definition handlers_for (event_type : string) (b : t) : list EventHandler :=
  default [] (_handlers b !! event_type).

Definition subscribe (event_type : string) (h : EventHandler) (b : t) : t :=
  {| _handlers := <[event_type := handlers_for event_type b ++ [h]]> (_handlers b);
     _sse_queues := _sse_queues b; heap := heap b;
     next_addr := next_addr b; next_event_id := next_event_id b |}.

(** [list.remove]: the first equal element. *)
Fixpoint remove_handler (id : nat) (l : list EventHandler) : list EventHandler :=
  match l with
  | [] => []
  | h :: l' => if Nat.eqb (handler_id h) id then l' else h :: remove_handler id l'
  end.

(** [unsubscribe], the handler given by its identity. *)
Definition unsubscribe_id (event_type : string) (id : nat) (b : t) : t :=
  match _handlers b !! event_type with
  | Some l =>
      {| _handlers := <[event_type := remove_handler id l]> (_handlers b);
         _sse_queues := _sse_queues b; heap := heap b;
         next_addr := next_addr b; next_event_id := next_event_id b |}
  | None => b
  end.

Definition unsubscribe (event_type : string) (h : EventHandler) (b : t) : t :=
  unsubscribe_id event_type (handler_id h) b.

Definition perform (b : t) (c : bus_call) : t :=
  match c with
  | Subscribes ty id name body =>
      subscribe ty {| handler_id := id; qualname := name; run := body;
                      calls := fun _ => [] |} b
  | Unsubscribes ty id => unsubscribe_id ty id b
  end.

(** The [for handler in handlers] loop of [emit].  [handlers] is the
    list object stored under the event type, not a copy: the loop reads
    the element at its index [i] from the list as it is then, so what is
    subscribed or unsubscribed meanwhile shows (an element removed at or
    before the index makes the loop pass over the next one).  [None]:
    more than [fuel] iterations. *)
Fixpoint dispatch (fuel : nat) (event_type : string) (i : nat)
         (e : EventEnvelope) (b : t) : option (outcome unit * t * list action) :=
  match fuel with
  | O => None
  | S fuel =>
      match handlers_for event_type b !! i with
      | None => Some (Returns tt, b, [])
      | Some h =>
          let b := fold_left perform (calls h e) b in
          match run h e with
          | Returns _ =>
              match dispatch fuel event_type (S i) e b with
              | Some (o, b, tr) => Some (o, b, Called (handler_id h) :: tr)
              | None => None
              end
          | Raises exc =>
              if isinstance_Exception exc then
                match dispatch fuel event_type (S i) e b with
                | Some (o, b, tr) =>
                    Some (o, b, Called (handler_id h) :: LoggedFailure (handler_id h) :: tr)
                | None => None
                end
              else Some (Raises exc, b, [Called (handler_id h)])
          end
      end
  end.

(** Iterations that can be needed: one for each handler of the list and
    one for each call a handler makes (a call can add a handler). *)
Definition weight (e : EventEnvelope) (l : list EventHandler) : nat :=
  fold_right (fun h n => S (length (calls h e) + n)) 0%nat l.

Definition enough (event_type : string) (e : EventEnvelope) (b : t) : nat :=
  S (weight e (handlers_for event_type b)).

(** The [for queue in self._sse_queues] loop of [emit]. *)
Fixpoint offer_all (queues : list nat) (e : EventEnvelope) (hp : gmap nat Queue)
  : gmap nat Queue * list action :=
  match queues with
  | [] => (hp, [])
  | a :: rest =>
      match hp !! a with
      | Some q =>
          match put_nowait e q with
          | Some q' =>
              let '(hp', tr) := offer_all rest e (<[a := q']> hp) in
              (hp', Delivered a :: tr)
          | None =>
              let '(hp', tr) := offer_all rest e hp in (hp', Dropped a :: tr)
          end
      | None => offer_all rest e hp
      end
  end.

Definition emit (event_type : string) (payload : gmap string string)
           (source_module correlation_id : string) (b : t)
  : outcome EventEnvelope * t * list action :=
  let envelope :=
    {| event_id := next_event_id b;
       event_type := event_type;
       source_module := source_module;
       correlation_id := correlation_id;
       payload := payload |} in
  let b :=
    {| _handlers := _handlers b; _sse_queues := _sse_queues b; heap := heap b;
       next_addr := next_addr b; next_event_id := S (next_event_id b) |} in
  match dispatch (enough event_type envelope b) event_type 0 envelope b with
  | None => (Raises (RuntimeError "emit: unreachable"), b, [])
  | Some (Raises exc, b, tr) => (Raises exc, b, tr)
  | Some (Returns _, b, tr) =>
      let '(hp, tr') := offer_all (_sse_queues b) envelope (heap b) in
      (Returns envelope,
       {| _handlers := _handlers b; _sse_queues := _sse_queues b; heap := hp;
          next_addr := next_addr b; next_event_id := next_event_id b |},
       tr ++ tr')
  end.

(** [sse_subscribe] up to its first [await queue.get()]: a new queue of
    capacity 256 is listed; the generator keeps its address. *)
Definition sse_subscribe (b : t) : nat * t :=
  let a := next_addr b in
  (a,
   {| _handlers := _handlers b;
      _sse_queues := _sse_queues b ++ [a];
      heap := <[a := {| maxsize := 256; items := [] |}]> (heap b);
      next_addr := S a;
      next_event_id := next_event_id b |}).

Fixpoint remove_addr (a : nat) (l : list nat) : option (list nat) :=
  match l with
  | [] => None
  | x :: l' =>
      if Nat.eqb x a then Some l'
      else match remove_addr a l' with
           | Some l'' => Some (x :: l'')
           | None => None
           end
  end.

(** The [finally] of [sse_subscribe]: [self._sse_queues.remove(queue)],
    a [ValueError] when the queue is no longer listed. *)
Definition sse_close (a : nat) (b : t) : outcome unit * t :=
  match remove_addr a (_sse_queues b) with
  | Some l =>
      (Returns tt,
       {| _handlers := _handlers b; _sse_queues := l; heap := heap b;
          next_addr := next_addr b; next_event_id := next_event_id b |})
  | None => (Raises (ValueError "list.remove(x): x not in list"), b)
  end.

Definition sse_unsubscribe_all (b : t) : t :=
  {| _handlers := _handlers b; _sse_queues := []; heap := heap b;
     next_addr := next_addr b; next_event_id := next_event_id b |}.

(** [await queue.get()] when an envelope is waiting. *)
Definition take (a : nat) (b : t) : option (EventEnvelope * t) :=
  match heap b !! a with
  | Some {| maxsize := m; items := e :: rest |} =>
      Some (e,
            {| _handlers := _handlers b; _sse_queues := _sse_queues b;
               heap := <[a := {| maxsize := m; items := rest |}]> (heap b);
               next_addr := next_addr b; next_event_id := next_event_id b |})
  | _ => None
  end.

End EventBus.

(** ** backend/sse.py *)

Module SSEEventEmitter.

(** What a session queue holds. *)
Inductive item : Type :=
| Envelope (e : EventBus.EventEnvelope)
| HEARTBEAT.

Record t : Type := {
  bus : EventBus.t;
  _queues : gmap string (list item);    (* session_id -> queue, capacity 100 *)
  system_queue : gmap string nat        (* session_id -> the bus queue its
                                           forwarder reads, while it runs *)
}.

Definition init (b : EventBus.t) : t :=
  {| bus := b; _queues := ∅; system_queue := ∅ |}.

(** [subscribe(session_id)] up to its first [yield]: the session queue
    is stored, and the forwarder task has entered [sse_subscribe]. *)
Definition subscribe_enter (session_id : string) (em : t) : t :=
  let '(a, b) := EventBus.sse_subscribe (bus em) in
  {| bus := b;
     _queues := <[session_id := []]> (_queues em);
     system_queue := <[session_id := a]> (system_queue em) |}.

(** The [finally] block of [subscribe] (lines 67-79): both tasks are
    cancelled, [sse_unsubscribe_all] is awaited, the session's queue is
    deleted. *)
Definition subscribe_exit (session_id : string) (em : t) : t :=
  {| bus := EventBus.sse_unsubscribe_all (bus em);
     _queues := delete session_id (_queues em);
     system_queue := delete session_id (system_queue em) |}.

(** One turn of [_forward_events] for a session: an envelope waiting in
    its bus queue is moved to the session queue, or dropped if that
    queue is full. *)
Definition forward (session_id : string) (em : t) : t :=
  match system_queue em !! session_id, _queues em !! session_id with
  | Some a, Some dest =>
      match EventBus.take a (bus em) with
      | Some (e, b) =>
          {| bus := b;
             _queues :=
               if Nat.leb 100 (length dest) then _queues em
               else <[session_id := dest ++ [Envelope e]]> (_queues em);
             system_queue := system_queue em |}
      | None => em
      end
  | _, _ => em
  end.

(** An [emit] on the emitter's bus. *)
Definition emit (event_type : string) (payload : gmap string string) (em : t)
  : outcome EventBus.EventEnvelope * t :=
  let '(o, b, _) := EventBus.emit event_type payload "" "" (bus em) in
  (o, {| bus := b; _queues := _queues em; system_queue := system_queue em |}).

End SSEEventEmitter.

(** ** Scenarios

    Worlds, replies and objects the statements below are evaluated on. *)

(** The error of a call that passes [query_id=] to the effective [call]. *)
Definition unexpected_query_id : exn :=
  TypeError "call() got an unexpected keyword argument 'query_id'".

Definition reply (status : Z) (items : list result_item) : HttpResponse :=
  {| status_code := status;
     retry_after := HeaderAbsent;
     results := items;
     page_title := "";
     page_rawHtml := "";
     page_markdown := "";
     elapsed := 1 # 10 |}.

(** A world at time 0 in which nothing has happened yet; [random()]
    returns [u] every time. *)
Definition fresh_world (b : service -> nat -> outcome HttpResponse) (u : Q) : World :=
  {| clock := 0;
     backend := b;
     posts := [];
     slept := [];
     samples := fun _ => u;
     drawn := 0;
     emitted := [] |}.

Definition hit (url : string) (score : Q) : result_item :=
  {| item_url := Some url;
     item_title := "title";
     item_text := Some "text";
     item_highlights := [];
     item_score := score |}.

(** The reply of tests/integration/test_intel_pipeline.py, [EXA_RESPONSE]. *)
Definition bitcoin_items : list result_item :=
  [ hit "https://example.com/btc-analysis" (95 # 100);
    hit "https://example.com/crypto-news" (88 # 100);
    hit "https://example.com/etf-update" (82 # 100) ].

Definition bitcoin_backend (svc : service) (n : nat) : outcome HttpResponse :=
  match svc with
  | exa => Returns (reply 200 bitcoin_items)
  | _ => Returns (reply 404 [])
  end.

Definition query_of (text : string) (depth : IntelDepth) : IntelQuery.t :=
  {| IntelQuery.query_id := "query-1";
     IntelQuery.text := text;
     IntelQuery.depth := depth;
     IntelQuery.max_sources := 10;
     IntelQuery.cache_ttl_seconds := None;
     IntelQuery.correlation_id := "req-1" |}.

(** [IntelOrchestrator(exa=ExaSource(...))]: the three real clients, no
    cache. *)
Definition real_orchestrator
  : @IntelOrchestrator.t SourceClient.t SourceClient.t SourceClient.t :=
  {| IntelOrchestrator._exa := SourceClient.init;
     IntelOrchestrator._tavily := SourceClient.init;
     IntelOrchestrator._firecrawl := SourceClient.init;
     IntelOrchestrator._cache := None;
     IntelOrchestrator._default_cache_ttl := 3600 |}.

Definition gather_intel_real (sha256_hexdigest : string -> string) :=
  IntelOrchestrator.gather_intel
    ExaSource_ops TavilySource_ops FirecrawlSource_ops sha256_hexdigest.

(** [AsyncMock(spec=ExaSource)] with [search.return_value] (or
    [side_effect]) and [is_rate_limited] set, as the unit tests build
    their clients. *)
Definition mock_search (ret : outcome (list SearchResult.t)) (rate_limited : bool)
  : SearchOps unit :=
  {| search := fun _ _ c w => (ret, c, w);
     is_rate_limited := fun _ _ => rate_limited |}.

Definition mock_scraper (ret : outcome (list ScrapedContent.t)) : ScrapeOps unit :=
  {| batch_scrape := fun _ c w => (ret, c, w) |}.

Definition mock_orchestrator : @IntelOrchestrator.t unit unit unit :=
  {| IntelOrchestrator._exa := tt;
     IntelOrchestrator._tavily := tt;
     IntelOrchestrator._firecrawl := tt;
     IntelOrchestrator._cache := None;
     IntelOrchestrator._default_cache_ttl := 3600 |}.

(** A neural-search backend that answers 500 four times and 200 from
    then on. *)
Definition flaky_backend (svc : service) (n : nat) : outcome HttpResponse :=
  if Nat.ltb n 4 then Returns (reply 500 []) else Returns (reply 200 bitcoin_items).

(** One request to the neural search, not retried. *)
Definition one_request : coro World (list SearchResult.t) :=
  SourceClient._do_request exa ExaSource._parse_results.

(** The breaker of a client through two half-open episodes: three failed
    calls open it; after the timeout a probe is admitted and fails; after
    the timeout again a call is made while the service has recovered. *)
Definition two_episodes
  : outcome (list SearchResult.t) * CircuitBreaker.t * World :=
  let cb := CircuitBreaker.init CircuitBreaker.INTEL_API_CONFIG in
  let w := fresh_world flaky_backend (1 # 2) in
  let '(_, cb, w) := CircuitBreaker.call one_request cb w in
  let '(_, cb, w) := CircuitBreaker.call one_request cb w in
  let '(_, cb, w) := CircuitBreaker.call one_request cb w in
  let w := sleep 60 w in
  let '(_, cb, w) := CircuitBreaker.call one_request cb w in
  let w := sleep 60 w in
  CircuitBreaker.call one_request cb w.

(** The same up to the first probe, which is the fourth request. *)
Definition first_episode
  : outcome (list SearchResult.t) * CircuitBreaker.t * World :=
  let cb := CircuitBreaker.init CircuitBreaker.INTEL_API_CONFIG in
  let w := fresh_world flaky_backend (1 # 2) in
  let '(_, cb, w) := CircuitBreaker.call one_request cb w in
  let '(_, cb, w) := CircuitBreaker.call one_request cb w in
  let '(_, cb, w) := CircuitBreaker.call one_request cb w in
  let w := sleep 60 w in
  CircuitBreaker.call one_request cb w.

(** A backend that answers 429 with [Retry-After: seconds]. *)
Definition rate_limited_backend (seconds : Q) (svc : service) (n : nat)
  : outcome HttpResponse :=
  Returns {| status_code := 429;
             retry_after := HeaderNumber seconds;
             results := [];
             page_title := "";
             page_rawHtml := "";
             page_markdown := "";
             elapsed := 1 # 10 |}.



(** The budget of the class of [e], and what that class has consumed. *)
Definition budget_of (p : Retry.params) (e : exn) : Z :=
  if isinstance_RateLimitError e then Retry.rate_limit_max_attempts p
  else Retry.max_attempts p.

Definition consumed_by_class_of (e : exn) (c : Retry.counters) : Z :=
  if isinstance_RateLimitError e then Retry.rl_attempt c
  else Retry.other_attempt c.

(** The retry loop of a client against the 429 backend, [random()]
    returning [u]. *)
Definition rate_limited_retry (u : Q)
  : option (outcome (list SearchResult.t) * Retry.counters * list exn * World) :=
  Retry.run SourceClient.retry_params None one_request
            (fresh_world (rate_limited_backend 5) u).


(** A source whose [url] is truthy. *)
Definition has_url (s : IntelSource.t) : bool :=
  match truthy_url (IntelSource.url s) with
  | Some _ => true
  | None => false
  end.

(** "All URL-bearing sources appear before all URL-less sources": no
    URL-less source is followed by a URL-bearing one. *)
Fixpoint url_bearing_first (l : list IntelSource.t) : bool :=
  match l with
  | [] => true
  | s :: l' =>
      (has_url s || forallb (fun x => negb (has_url x)) l') && url_bearing_first l'
  end.

(** The order the merge step establishes between a source and any later
    one: the score does not increase, and a URL-less source stands
    before a URL-bearing one only with a strictly higher score. *)
Definition merged_order (x y : IntelSource.t) : Prop :=
  (IntelSource.relevance_score y <= IntelSource.relevance_score x)%Q
  /\ (has_url x = false -> has_url y = true ->
      (IntelSource.relevance_score y < IntelSource.relevance_score x)%Q).

Definition score_order (x y : IntelSource.t) : Prop :=
  (IntelSource.relevance_score y <= IntelSource.relevance_score x)%Q.

(** Once a URL-less source is met, only URL-less sources follow. *)
Definition url_less_stay_behind (x y : IntelSource.t) : Prop :=
  has_url x = false -> has_url y = false.

Definition search_hit (url : option string) (score : Q) (name : string)
  : SearchResult.t :=
  {| SearchResult.url := url;
     SearchResult.title := "title";
     SearchResult.snippet := "snippet";
     SearchResult.relevance_score := score;
     SearchResult.source_name := name |}.

(** Two neural-search hits: one with a URL and score 0.5, one without a
    URL and score 0.9. *)
Definition hits_with_and_without_url : list SearchResult.t :=
  [ search_hit (Some "https://a.example/1") (5 # 10) "exa";
    search_hit None (9 # 10) "exa" ].

(** [sum(s.cost_usd for s in sources)]: Python adds the costs from the
    left, starting at 0, each addition rounding. *)
Definition sum_cost (l : list IntelSource.t) : Q :=
  fold_left (fun acc s => Float64.add acc (IntelSource.cost_usd s)) l 0%Q.


(** The truthy URLs of a list of sources, in order. *)
Definition present_urls (l : list IntelSource.t) : list string :=
  flat_map (fun s => match truthy_url (IntelSource.url s) with
                     | Some u => [u]
                     | None => []
                     end) l.




Section GatheredSources.
Context {E T F : Type}.
Variable exa_ops : SearchOps E.
Variable tavily_ops : SearchOps T.
Variable firecrawl_ops : ScrapeOps F.


End GatheredSources.


(** The second end-to-end scenario of the specification: the neural
    search and the news search both return [https://shared/1]. *)
Definition shared_exa_hits : list SearchResult.t :=
  [ search_hit (Some "https://shared/1") (9 # 10) "exa" ].

Definition shared_tavily_hits : list SearchResult.t :=
  [ search_hit (Some "https://shared/1") (8 # 10) "tavily";
    search_hit (Some "https://news/2") (85 # 100) "tavily" ].

(** [n] hits of one client with pairwise distinct URLs and the score
    0.5. *)
Fixpoint marks (n : nat) : string :=
  match n with
  | O => ""
  | S n => ("i" ++ marks n)%string
  end.

Definition numbered_hits (name : string) (n : nat) : list SearchResult.t :=
  map (fun i => search_hit (Some ("https://" ++ name ++ "/" ++ marks i)%string)
                        (5 # 10) name)
      (seq 0 n).



Definition offered_queues (tr : list EventBus.action) : list nat :=
  flat_map (fun a => match a with
                     | EventBus.Delivered q | EventBus.Dropped q => [q]
                     | _ => []
                     end) tr.



(** A bus with three handlers for ["query_started"], the first and the
    second failing, and one streaming subscriber. *)
Definition failing_handler (id : nat) (exc : exn) : EventBus.EventHandler :=
  {| EventBus.handler_id := id;
     EventBus.qualname := "failing";
     EventBus.run := fun _ => Raises exc;
     EventBus.calls := fun _ => [] |}.

Definition quiet_handler (id : nat) : EventBus.EventHandler :=
  {| EventBus.handler_id := id;
     EventBus.qualname := "capture";
     EventBus.run := fun _ => Returns tt;
     EventBus.calls := fun _ => [] |}.

Definition bus_with_failing_handlers : EventBus.t :=
  snd (EventBus.sse_subscribe
         (EventBus.subscribe "query_started" (quiet_handler 3)
            (EventBus.subscribe "query_started" (failing_handler 2 (ValueError "boom"))
               (EventBus.subscribe "query_started" (failing_handler 1 (RuntimeError "boom"))
                  EventBus.init)))).

(** Two streaming sessions on one emitter. *)
Definition two_sessions : SSEEventEmitter.t :=
  SSEEventEmitter.subscribe_enter "session-B"
    (SSEEventEmitter.subscribe_enter "session-A"
       (SSEEventEmitter.init EventBus.init)).

(** What session B's queue holds after an event is emitted and B's
    forwarder has had its turn. *)
Definition session_B_receives (em : SSEEventEmitter.t) : option (list SSEEventEmitter.item) :=
  let '(_, em) := SSEEventEmitter.emit "query_started" ∅ em in
  SSEEventEmitter._queues (SSEEventEmitter.forward "session-B" em) !! "session-B".

(** A coroutine that returns [a] and one that raises [e], both leaving
    the world as it is. *)
Definition returning {W A} (a : A) : coro W A := fun w => (Returns a, w).

Definition raising {W A} (e : exn) : coro W A := fun w => (Raises e, w).

(** A breaker that opened at time 10. *)
Definition opened_breaker : CircuitBreaker.t :=
  {| CircuitBreaker.config := CircuitBreaker.INTEL_API_CONFIG;
     CircuitBreaker._state := CircuitBreaker.OPEN;
     CircuitBreaker._failure_count := 3;
     CircuitBreaker._failure_timestamps := [8; 9; 10]%Q;
     CircuitBreaker._opened_at := 10;
     CircuitBreaker._half_open_calls := 0 |}.

(** A world whose clock shows [t]. *)
Definition world_at (t : Q) : World :=
  {| clock := t;
     backend := bitcoin_backend;
     posts := [];
     slept := [];
     samples := fun _ => 1 # 2;
     drawn := 0;
     emitted := [] |}.

(** The failures a breaker counts at [now]: the recorded ones and the
    new one that lie within the window. *)
Definition failures_in_window (now : Q) (cb : CircuitBreaker.t) : Z :=
  Z.of_nat
    (length
       (List.filter
          (fun ts => Qle_bool (now - CircuitBreaker.failure_window_seconds
                                        (CircuitBreaker.config cb))%Q ts)
          (CircuitBreaker._failure_timestamps cb ++ [now]))).

(** A breaker whose probe episode can start: it opened at time 10 and
    the clock shows 80. *)
Definition probe_world : World := world_at 80.


(** Every value of the dictionary is stored under its own URL. *)
Definition keyed_by_url (d : list (string * IntelSource.t)) : Prop :=
  Forall (fun kv => truthy_url (IntelSource.url (snd kv)) = Some (fst kv)) d.

(** An orchestrator of mocked clients with a connected, empty cache. *)
Definition caching_orchestrator : @IntelOrchestrator.t unit unit unit :=
  {| IntelOrchestrator._exa := tt;
     IntelOrchestrator._tavily := tt;
     IntelOrchestrator._firecrawl := tt;
     IntelOrchestrator._cache :=
       Some {| RedisCache.connected := true; RedisCache.store := ∅ |};
     IntelOrchestrator._default_cache_ttl := 3600 |}.

(** The result an outcome carries, [d] when it carries none. *)
Definition result_or (d : IntelResult.t) (o : outcome IntelResult.t) : IntelResult.t :=
  match o with
  | Returns r => r
  | Raises _ => d
  end.

Definition no_result : IntelResult.t :=
  {| IntelResult.query_id := "";
     IntelResult.correlation_id := "";
     IntelResult.sources := [];
     IntelResult.depth_used := SHALLOW;
     IntelResult.total_cost_usd := 0;
     IntelResult.latency_ms := 0;
     IntelResult.cached := false |}.

(** A queue holds no more than its capacity ([maxsize <= 0] is
    unbounded). *)
Definition within_capacity (q : EventBus.Queue) : Prop :=
  EventBus.maxsize q = 0%nat
  \/ (length (EventBus.items q) <= EventBus.maxsize q)%nat.

(** [q'] is [q] after some envelopes were put at its end. *)
Definition grown_from (q q' : EventBus.Queue) : Prop :=
  EventBus.maxsize q' = EventBus.maxsize q
  /\ (exists added, EventBus.items q' = EventBus.items q ++ added)
  /\ (within_capacity q -> within_capacity q').

(** ** routing/openrouter/models.py *)

(** [time.sleep]: the clock moves on; nothing else happens meanwhile. *)
Definition time_sleep (seconds : Q) (w : World) : World :=
  {| clock := (clock w + Qmax 0 seconds)%Q;
     backend := backend w;
     posts := posts w;
     slept := slept w;
     samples := samples w;
     drawn := drawn w;
     emitted := emitted w |}.

Module ModelRotator.

Record OpenRouterModel : Type := {
  id : string;
  name : string;
  context : Z;
  strength : string;
  notes : string
}.

Definition OPENROUTER_FREE_MODELS : list OpenRouterModel :=
  [ {| id := "deepseek/deepseek-r1-0528:free";
       name := "DeepSeek R1 0528";
       context := 164000;
       strength := "reasoning";
       notes := "o1-tier reasoning, fully open-source" |};
    {| id := "nvidia/nemotron-3-nano-30b-a3b:free";
       name := "NVIDIA Nemotron 3 Nano";
       context := 256000;
       strength := "agentic";
       notes := "Best for agentic AI, MoE architecture" |};
    {| id := "openai/gpt-oss-120b:free";
       name := "GPT-OSS 120B";
       context := 131000;
       strength := "reasoning";
       notes := "OpenAI open-weight, tool use, chain-of-thought" |};
    {| id := "meta-llama/llama-3.3-70b-instruct:free";
       name := "Llama 3.3 70B";
       context := 131000;
       strength := "general";
       notes := "GPT-4 tier performance" |};
    {| id := "qwen/qwen3-coder-480b-a35b:free";
       name := "Qwen3 Coder 480B";
       context := 262000;
       strength := "coding";
       notes := "Best for code generation, agentic tasks" |};
    {| id := "nous/hermes-3-405b:free";
       name := "Hermes 3 405B";
       context := 131000;
       strength := "complex";
       notes := "Fine-tuned Llama 405B, instruction following" |};
    {| id := "z.ai/glm-4.5-air:free";
       name := "GLM-4.5 Air";
       context := 131000;
       strength := "multilingual";
       notes := "Strong multilingual support" |} ].

Record t : Type := {
  models : list OpenRouterModel;
  current_index : nat;
  rate_limited : gset string;
  wait_handler : Q -> World -> World
}.

(** [ModelRotator(wait_handler)]; the default handler is [time.sleep]. *)
Definition init (wait_handler : Q -> World -> World) : t :=
  {| models := OPENROUTER_FREE_MODELS;
     current_index := 0;
     rate_limited := ∅;
     wait_handler := wait_handler |}.

Definition available (limited : gset string) (m : OpenRouterModel) : bool :=
  negb (bool_decide (id m ∈ limited)).

(** [get_next_model].  [None] is the [ZeroDivisionError] of
    [self.current_index % len(candidates)] when there is no model at
    all. *)
Definition get_next_model (task_type : string) (r : t) (w : World)
  : option string * t * World :=
  let candidates := List.filter (available (rate_limited r)) (models r) in
  let '(candidates, r, w) :=
    match candidates with
    | [] =>
        (models r,
         {| models := models r; current_index := current_index r;
            rate_limited := ∅; wait_handler := wait_handler r |},
         wait_handler r 60 w)
    | _ => (candidates, r, w)
    end in
  let candidates :=
    if negb (String.eqb task_type "") then
      match List.filter (fun m => String.eqb (strength m) task_type) candidates with
      | [] => candidates
      | preferred => preferred
      end
    else candidates in
  match nth_error candidates (current_index r mod length candidates) with
  | None => (None, r, w)
  | Some model =>
      (Some (id model),
       {| models := models r; current_index := S (current_index r);
          rate_limited := rate_limited r; wait_handler := wait_handler r |},
       w)
  end.

Definition mark_rate_limited (model_id : string) (r : t) : t :=
  {| models := models r; current_index := current_index r;
     rate_limited := {[ model_id ]} ∪ rate_limited r;
     wait_handler := wait_handler r |}.

End ModelRotator.

(** ** routing/openrouter/client.py *)

Definition isinstance_APIError (e : exn) : bool :=
  match e with APIError _ => true | _ => false end.

Module OpenRouterClient.

Record LLMUsage : Type := {
  prompt_tokens : Z;
  completion_tokens : Z;
  total_tokens : Z;
  cost : Q
}.

Record CompletionResult : Type := {
  content : string;
  model : string;
  usage : LLMUsage
}.

Record t : Type := {
  api_key : option string;
  rotator : ModelRotator.t;
  session_cost : Q;
  breakers : gmap string CircuitBreaker.t
}.

(** [OpenRouterClient(api_key)] *)
Definition init (api_key : option string) : t :=
  {| api_key := api_key;
     rotator := ModelRotator.init time_sleep;
     session_cost := 0;
     breakers := ∅ |}.

(** How [complete] can end without a result: an exception of the
    classes above; the [ZeroDivisionError] of the rotator; the
    [APIError] (without a status) raised after the last attempt. *)
Inductive failure : Type :=
| Raised (e : exn)
| ZeroDivisionError
| AllAttemptsFailed.

(** What the breaker is handed as its function: the bound method
    [self._execute_with_backoff].  Awaiting [fn()], as the body of
    [call] does, calls it without its three arguments. *)
Definition _execute_with_backoff_without_arguments : coro World CompletionResult :=
  raising (TypeError "_execute_with_backoff() missing 3 required positional arguments").

Definition with_rotator (r : ModelRotator.t) (c : t) : t :=
  {| api_key := api_key c; rotator := r; session_cost := session_cost c;
     breakers := breakers c |}.

Definition with_breakers (bs : gmap string CircuitBreaker.t) (c : t) : t :=
  {| api_key := api_key c; rotator := rotator c; session_cost := session_cost c;
     breakers := bs |}.

(** The [while attempt < max_attempts] loop of [complete], [remaining]
    being [max_attempts - attempt].  The breaker is called with four
    positional arguments: [breaker.call(self._execute_with_backoff,
    prompt, model_id, max_tokens)]. *)
Fixpoint complete_loop (remaining : nat) (task_type : string) (c : t) (w : World)
  : (CompletionResult + failure) * t * World :=
  match remaining with
  | O => (inr AllAttemptsFailed, c, w)
  | S remaining =>
      match ModelRotator.get_next_model task_type (rotator c) w with
      | (None, r, w) => (inr ZeroDivisionError, with_rotator r c, w)
      | (Some model_id, r, w) =>
          let c := with_rotator r c in
          let c :=
            match breakers c !! model_id with
            | Some _ => c
            | None =>
                with_breakers
                  (<[model_id := CircuitBreaker.init CircuitBreaker.OPENROUTER_CONFIG]>
                     (breakers c)) c
            end in
          let breaker :=
            default (CircuitBreaker.init CircuitBreaker.OPENROUTER_CONFIG)
                    (breakers c !! model_id) in
          match CircuitBreaker.call_expr 4 [] _execute_with_backoff_without_arguments
                                         breaker w with
          | (Returns result, cb, w) =>
              (inl result, with_breakers (<[model_id := cb]> (breakers c)) c,
               emit_event "CompletionGenerated" "openrouter_client" "" w)
          | (Raises e, cb, w) =>
              let c := with_breakers (<[model_id := cb]> (breakers c)) c in
              if (isinstance_RateLimitError e || isinstance_CircuitOpenError e)%bool then
                let c := with_rotator
                           (ModelRotator.mark_rate_limited model_id (rotator c)) c in
                let w := emit_event "RateLimitHit" "openrouter_client" "" w in
                let w := emit_event "ModelRotated" "openrouter_client" "" w in
                complete_loop remaining task_type c w
              else if isinstance_APIError e then
                let w := emit_event "ModelError" "openrouter_client" "" w in
                complete_loop remaining task_type c w
              else (inr (Raised e), c, w)
          end
      end
  end.

Definition complete (prompt task_type : string) (max_tokens : Z) (c : t) (w : World)
  : (CompletionResult + failure) * t * World :=
  complete_loop 10 task_type c w.

(** [generate_completion]: [max_retries] is not used. *)
Definition generate_completion (prompt task_type : string) (max_retries : Z)
           (c : t) (w : World) : (CompletionResult + failure) * t * World :=
  complete prompt task_type 4096 c w.

End OpenRouterClient.

(** The two free models whose strength is reasoning. *)
Definition deepseek_r1 : ModelRotator.OpenRouterModel :=
  {| ModelRotator.id := "deepseek/deepseek-r1-0528:free";
     ModelRotator.name := "DeepSeek R1 0528";
     ModelRotator.context := 164000;
     ModelRotator.strength := "reasoning";
     ModelRotator.notes := "o1-tier reasoning, fully open-source" |}.

Definition gpt_oss : ModelRotator.OpenRouterModel :=
  {| ModelRotator.id := "openai/gpt-oss-120b:free";
     ModelRotator.name := "GPT-OSS 120B";
     ModelRotator.context := 131000;
     ModelRotator.strength := "reasoning";
     ModelRotator.notes := "OpenAI open-weight, tool use, chain-of-thought" |}.

(** A new rotator after its first call. *)
Definition rotator_after_one_call : ModelRotator.t :=
  {| ModelRotator.models := ModelRotator.OPENROUTER_FREE_MODELS;
     ModelRotator.current_index := 1;
     ModelRotator.rate_limited := ∅;
     ModelRotator.wait_handler := time_sleep |}.

(** ** backend/depth.py *)

Module DepthRecommender.

Definition deep_triggers : list string :=
  ["analyze"; "report"; "comprehensive"; "full text"; "scrape"; "deep"].

Definition shallow_triggers : list string :=
  ["price"; "current"; "weather"; "who is"; "define"; "simple"].

Definition recommend (query : string) : IntelDepth :=
  let q_lower := lower query in
  if existsb (fun t => contains t q_lower) deep_triggers then DEEP
  else if existsb (fun t => contains t q_lower) shallow_triggers then SHALLOW
  else STANDARD.

End DepthRecommender.

(** A world that also counts how often a function was called: the
    count is an observation, the runtime is that of the world. *)
#[export] Instance counted_runtime {W : Type} `{Runtime W} : Runtime (nat * W) :=
  {| monotonic := fun cw => monotonic (snd cw);
     sleep := fun d cw => (fst cw, sleep d (snd cw));
     random := fun cw => let '(u, w) := random (snd cw) in (u, (fst cw, w)) |}.

(** [fn], each call of it counted. *)
Definition counting {W A} (fn : coro W A) : coro (nat * W) A :=
  fun cw => let '(o, w) := fn (snd cw) in (o, (S (fst cw), w)).

(** A coroutine that is not counted. *)
Definition uncounted {W A} (c : coro W A) : coro (nat * W) A :=
  fun cw => let '(o, w) := c (snd cw) in (o, (fst cw, w)).

Definition uncounted_callback {W} (on_retry : option (Z -> Q -> exn -> coro W unit))
  : option (Z -> Q -> exn -> coro (nat * W) unit) :=
  option_map (fun callback attempt delay exc => uncounted (callback attempt delay exc))
             on_retry.

(** The event type a call on the bus concerns. *)
Definition call_type (c : EventBus.bus_call) : string :=
  match c with
  | EventBus.Subscribes ty _ _ _ | EventBus.Unsubscribes ty _ => ty
  end.




(** ** Theorems *)

Lemma call_is_the_second_definition :
  class_attr "call" CircuitBreaker.class_body
  = Some {| def_line := 247; def_params := [("fn", false)] |}.
Proof. reflexivity. Qed.

Lemma call_expr_rejects_query_id {W} `{Runtime W} {A} (fn : coro W A) cb (w : W) :
  CircuitBreaker.call_expr 1 ["query_id"] fn cb w
  = (Raises unexpected_query_id, cb, w).
Proof. reflexivity. Qed.

Lemma guarded_raises {A} svc (request : coro World A) on_success src w :
  SourceClient.guarded svc request on_success src w
  = (Raises unexpected_query_id, src,
     emit_event "SourceQueried" ("intel." ++ service_name svc) "failed"
       (emit_event "source_querying" ("intel." ++ service_name svc) "started" w)).
Proof.
  unfold SourceClient.guarded, SourceClient.guarded_with.
  rewrite call_expr_rejects_query_id.
  cbn. destruct src; reflexivity.
Qed.

(** *** The breaker's [call] and the clients (C1, C2) *)

(** C2.  [ExaSource.search], [TavilySource.search] and
    [FirecrawlSource.scrape] pass [query_id=] to [CircuitBreaker.call];
    the class's effective [call] (the second definition) takes [fn] only,
    so binding the arguments raises [TypeError] before the body runs:
    whatever the backend would answer, the operation raises that
    [TypeError], no request is posted, nothing sleeps, and the client's
    state is as before. *)
Theorem sources_raise_TypeError_before_any_request
        (src : SourceClient.t) (w : World) (url : string) :
  (forall (A : Type) (fn : coro World A) (cb : CircuitBreaker.t),
      CircuitBreaker.call_expr 1 ["query_id"] fn cb w
      = (Raises unexpected_query_id, cb, w))
  /\ (exists w', ExaSource.search src w = (Raises unexpected_query_id, src, w')
                 /\ posts w' = posts w /\ slept w' = slept w)
  /\ (exists w', TavilySource.search src w = (Raises unexpected_query_id, src, w')
                 /\ posts w' = posts w /\ slept w' = slept w)
  /\ (exists w', FirecrawlSource.scrape url src w = (Raises unexpected_query_id, src, w')
                 /\ posts w' = posts w /\ slept w' = slept w).
Proof.
  split; [ intros; apply call_expr_rejects_query_id | ].
  unfold ExaSource.search, TavilySource.search, FirecrawlSource.scrape.
  rewrite !guarded_raises.
  repeat split; eexists; (split; [ reflexivity | split; reflexivity ]).
Qed.

(** The scraper's batch: every scrape fails, so no page comes back. *)
Lemma batch_scrape_returns_nothing (urls : list string) src w :
  exists w', FirecrawlSource.batch_scrape urls src w = (Returns [], src, w')
             /\ posts w' = posts w.
Proof.
  destruct urls as [|u urls]; [ eexists; split; reflexivity | ].
  unfold FirecrawlSource.batch_scrape.
  generalize (u :: urls) as l. clear u urls. intros l. revert w.
  induction l as [|u l IH]; intros w; cbn [FirecrawlSource.scrape_all].
  - eexists; split; reflexivity.
  - unfold FirecrawlSource.scrape. rewrite guarded_raises. cbn [isinstance_Exception unexpected_query_id].
    destruct (IH (emit_event "SourceQueried" ("intel." ++ service_name firecrawl) "failed"
                    (emit_event "source_querying" ("intel." ++ service_name firecrawl) "started" w)))
      as [w' [E P]].
    exists w'. split; [ exact E | rewrite P; reflexivity ].
Qed.

(** C1 (code bug).  The shallow happy path on the real client: the
    backend holds three hits with scores 0.95, 0.88, 0.82 and distinct
    URLs, and [gather_intel] raises the [TypeError] of the breaker call
    without posting a request; no [Result] is returned. *)
Theorem shallow_happy_path_raises_TypeError (sha256_hexdigest : string -> string) :
  let '(o, _, w) :=
    gather_intel_real sha256_hexdigest (query_of "Bitcoin ETF" SHALLOW)
                      real_orchestrator (fresh_world bitcoin_backend (1 # 2)) in
  o = Raises unexpected_query_id /\ returned o = false /\ posts w = [].
Proof. cbv - [String.append]. repeat split. Qed.

(** What the same query yields when the client's [search] does return the
    three hits (a mocked client, as in the unit tests): three sources, a
    cost of 0.0015, the best hit first. *)
Lemma shallow_happy_path_with_mocked_client (sha256_hexdigest : string -> string) :
  let hits := ExaSource._parse_results (reply 200 bitcoin_items) in
  exists r o w,
    IntelOrchestrator.gather_intel
      (mock_search (Returns hits) false) (mock_search (Returns []) false)
      (mock_scraper (Returns [])) sha256_hexdigest
      (query_of "Bitcoin ETF" SHALLOW) mock_orchestrator
      (fresh_world bitcoin_backend (1 # 2)) = (Returns r, o, w)
    /\ length (IntelResult.sources r) = 3%nat
    /\ (Qabs (IntelResult.total_cost_usd r - (15 # 10000)) < 1 # 1000000000)%Q
    /\ (option_map IntelSource.relevance_score (head (IntelResult.sources r))
        = Some (95 # 100)).
Proof.
  do 3 eexists. split; [ cbv - [String.append]; reflexivity | ].
  repeat split; vm_compute; reflexivity.
Qed.

(** *** The breaker's half-open state (C6) *)

(** Reading [state] never touches the half-open counter: the transition
    from [OPEN] to [HALF_OPEN] keeps whatever count the last episode
    left. *)
Lemma state_keeps_half_open_calls (now : Q) (cb : CircuitBreaker.t) :
  CircuitBreaker._half_open_calls (snd (CircuitBreaker.state now cb))
  = CircuitBreaker._half_open_calls cb.
Proof.
  unfold CircuitBreaker.state.
  destruct (CircuitBreaker._state cb) eqn:S; cbn; try reflexivity.
  destruct (Qle_bool _ _); cbn; try reflexivity.
  unfold CircuitBreaker._transition_to. rewrite S. reflexivity.
Qed.

(** In the first episode the probe is admitted: it is the fourth request,
    it fails, and the breaker is open again with the counter at 1. *)
Lemma first_half_open_episode_runs_the_probe :
  let '(o, cb, w) := first_episode in
  o = Raises (APIError 500)
  /\ CircuitBreaker._state cb = CircuitBreaker.OPEN
  /\ CircuitBreaker._half_open_calls cb = 1%Z
  /\ posts_to exa w = 4%nat.
Proof. vm_compute. repeat split. Qed.

(** C6 (code bug).  In the second half-open episode, after a failed probe
    re-opened the breaker and the timeout elapsed again, the counter is
    not back at 0: the call finds it at 1, raises it to 2, which exceeds
    [half_open_max_calls = 1], and is rejected with [CircuitOpenError]
    without a request being posted (the fifth request would have been
    answered 200). *)
Theorem second_half_open_episode_rejects_the_probe :
  let '(o, cb, w) := two_episodes in
  o = Raises (CircuitOpenError 0)
  /\ CircuitBreaker._state cb = CircuitBreaker.HALF_OPEN
  /\ CircuitBreaker._half_open_calls cb = 2%Z
  /\ CircuitBreaker.half_open_max_calls (CircuitBreaker.config cb) = 1%Z
  /\ posts_to exa w = 4%nat
  /\ returned (fst (one_request w)) = true.
Proof. vm_compute. repeat split. Qed.

(** *** The rate-limit window of a client (C5) *)

Lemma Qltb_lt (x y : Q) : Qltb x y = true <-> (x < y)%Q.
Proof.
  unfold Qltb. rewrite negb_true_iff. split.
  - intros E. apply Qnot_le_lt. intros L. apply Qle_bool_iff in L. congruence.
  - intros L. destruct (Qle_bool y x) eqn:E; [ | reflexivity ].
    apply Qle_bool_iff in E. exfalso. apply (Qlt_not_le _ _ L E).
Qed.

(** C5 (code bug).  The neural-search service answers every request
    with 429 and [Retry-After: 5]: the request itself, retried, ends
    in a [RateLimitError] carrying 5 seconds.  [search] on a new client
    never gets that far: the breaker call raises the [TypeError] of C2,
    no request is posted, [rate_limited_until] stays at 0 and
    [is_rate_limited] stays false.  This holds of the three clients in
    every state and world: the operation never ends in a
    [RateLimitError], and [rate_limited_until] and [is_rate_limited]
    are as before.  (Were the [except] block reached, it would add
    [retry_after_seconds] when that is given and not zero, 60 seconds
    otherwise: for 5 seconds a window of 5, not of max(5, 60).) *)
Theorem rate_limited_reply_never_marks_the_client :
  (let w := fresh_world (rate_limited_backend 5) (1 # 2) in
   fst (ExaSource._execute_search w) = Raises (RateLimitError (Some 5%Q))
   /\ let '(o, src, w') := ExaSource.search SourceClient.init w in
      o = Raises unexpected_query_id
      /\ SourceClient._rate_limited_until src = 0%Q
      /\ SourceClient.is_rate_limited src w' = false
      /\ posts w' = [])
  /\ (forall (src : SourceClient.t) (w : World) (url : string),
        let after (o : outcome (list SearchResult.t) * SourceClient.t * World) :=
          isinstance_RateLimitError
            (match fst (fst o) with Raises e => e | Returns _ => CancelledError end)
          = false
          /\ SourceClient._rate_limited_until (snd (fst o))
             = SourceClient._rate_limited_until src
          /\ forall now, SourceClient.is_rate_limited_at now (snd (fst o))
                         = SourceClient.is_rate_limited_at now src in
        after (ExaSource.search src w)
        /\ after (TavilySource.search src w)
        /\ fst (fst (FirecrawlSource.scrape url src w)) = Raises unexpected_query_id
        /\ snd (fst (FirecrawlSource.scrape url src w)) = src)
  /\ SourceClient.window (Some 5%Q) = 5%Q
  /\ ~ (SourceClient.window (Some 5%Q) == Qmax 5 60)%Q.
Proof.
  split; [ vm_compute; repeat split | ].
  split.
  - intros src w url. cbv zeta.
    unfold ExaSource.search, TavilySource.search, FirecrawlSource.scrape.
    rewrite !guarded_raises. cbn [fst snd]. repeat split.
  - split; [ reflexivity | vm_compute; discriminate ].
Qed.

(** *** The retry engine: the delay slept (C7) *)

Lemma pow2_nonneg (n : Z) : (0 <= Retry.pow2 n)%Q.
Proof.
  unfold Retry.pow2. change 0%Q with (inject_Z 0). rewrite <- Zle_Qle.
  apply Z.pow_nonneg. lia.
Qed.

Lemma Qmin_nonneg (x y : Q) : (0 <= x -> 0 <= y -> 0 <= Qmin x y)%Q.
Proof. intros. apply Q.min_glb; assumption. Qed.

(** The first statement of an iteration that retries a rate-limit
    failure: the loop sleeps what [draw_delay] returns for the backoff of
    the charged counters. *)
Lemma loop_sleeps_the_drawn_delay {W} `{Runtime W} {A}
      (p : Retry.params) (fn : coro W A)
      (fuel : nat) (c : Retry.counters) (caught : list exn) (w w1 : W) (exc : exn) :
  fn w = (Raises exc, w1) ->
  Retry.retryable_exceptions p exc = true ->
  let c1 := fst (fst (Retry.charge p (Retry.next_total c) exc)) in
  (consumed_by_class_of exc c1 < budget_of p exc)%Z ->
  let d := Retry.draw_delay p (Retry.backoff p c1 exc) w1 in
  Retry.loop p None fn (S fuel) c caught w
  = Retry.loop p None fn fuel c1 (caught ++ [exc]) (sleep (fst d) (snd d)).
Proof.
  intros F R c1 B d. cbn [Retry.loop]. rewrite F, R.
  subst c1 d. unfold consumed_by_class_of, budget_of, Retry.charge in *.
  destruct (isinstance_RateLimitError exc); cbn in B |- *;
    (destruct (Z.leb _ _) eqn:L; [ apply Z.leb_le in L; lia | ]);
    destruct (Retry.draw_delay _ _ _); reflexivity.
Qed.

(** C7 (counterexample).  A client's retry loop against a backend that
    answers 429 with [Retry-After: 5], the jitter sample being 0: the
    first failure is retried, its computed backoff is 2 <= 5, and the
    loop sleeps 2.5 seconds, less than the retry delay. *)
Lemma jitter_can_sleep_less_than_retry_after :
  (Qmin (Retry.rate_limit_base_delay SourceClient.retry_params * Retry.pow2 1)
        (Retry.rate_limit_max_delay SourceClient.retry_params) <= 5)%Q
  /\ match rate_limited_retry 0 with
     | Some (_, _, caught, w) =>
         head caught = Some (RateLimitError (Some 5%Q))
         /\ (1 < length caught)%nat
         /\ exists d, head (slept w) = Some d /\ (d == 5 # 2)%Q /\ (d < 5)%Q
     | None => False
     end.
Proof.
  split; [ vm_compute; discriminate | ].
  vm_compute. repeat split; [ lia | ].
  eexists. repeat split.
Qed.

(** C7 (amended).  When a retried [RateLimitError] carries a retry
    delay [r] that is at least the computed exponential backoff (base
    delay and cap being non-negative), the loop sleeps at least [r] if
    jitter is disabled; with jitter enabled it sleeps
    [d * 0.5 + d * u] for [d = max(backoff, r)] and the sample [u] of
    [random()], which is at least half of [r] (and at most 1.5 [r]) for
    every sample in [0, 1], and can be below [r]. *)
Theorem retry_after_floor_up_to_jitter
        {W : Type} `{Runtime W} (p : Retry.params) (c : Retry.counters)
        (r : Q) (w : W) :
  (0 <= Retry.rate_limit_base_delay p)%Q ->
  (0 <= Retry.rate_limit_max_delay p)%Q ->
  (Qmin (Retry.rate_limit_base_delay p * Retry.pow2 (Retry.rl_attempt c))
        (Retry.rate_limit_max_delay p) <= r)%Q ->
  (0 <= fst (random w) <= 1)%Q ->
  let slept := fst (Retry.draw_delay p (Retry.backoff p c (RateLimitError (Some r))) w) in
  (Retry.jitter p = false -> (r <= slept)%Q)
  /\ (Retry.jitter p = true -> (r * (1 # 2) <= slept /\ slept <= r * (3 # 2))%Q).
Proof.
  intros Hb Hm Hr [Hu0 Hu1]. cbn zeta.
  set (computed := Qmin (Retry.rate_limit_base_delay p * Retry.pow2 (Retry.rl_attempt c))
                        (Retry.rate_limit_max_delay p)) in *.
  assert (Hc : (0 <= computed)%Q).
  { apply Qmin_nonneg; [ | assumption ].
    apply Qmult_le_0_compat; [ assumption | apply pow2_nonneg ]. }
  assert (Hd : (Retry.backoff p c (RateLimitError (Some r)) == r)%Q).
  { unfold Retry.backoff. cbn [isinstance_RateLimitError Retry.retry_after_of truthy_float].
    fold computed.
    destruct (Qeq_bool r 0) eqn:E; cbn [negb].
    - apply Qeq_bool_iff in E. rewrite E in *. apply Qle_antisym; assumption.
    - apply Q.max_r. assumption. }
  assert (Hr0 : (0 <= r)%Q) by (eapply Qle_trans; eassumption).
  unfold Retry.draw_delay.
  split; intros J; rewrite J.
  - cbn [fst]. rewrite Hd. apply Qle_refl.
  - destruct (random w) as [u w'] eqn:Ru. cbn [fst] in *.
    unfold Retry.jittered, Retry.uniform_at. rewrite J.
    set (d := Retry.backoff p c (RateLimitError (Some r))) in *.
    assert (E : (d * (5 # 10) + (d * (15 # 10) - d * (5 # 10)) * u
                 == r * ((1 # 2) + u))%Q) by (rewrite Hd; ring).
    rewrite E. split; nra.
Qed.

(** An instance: the first retry of a client (jitter on, [rl_attempt]
    charged to 1), [Retry-After: 5]. *)
Lemma retry_after_floor_up_to_jitter_witness :
  let p := SourceClient.retry_params in
  let c := fst (fst (Retry.charge p (Retry.next_total Retry.start)
                                  (RateLimitError (Some 5%Q)))) in
  let w := fresh_world (rate_limited_backend 5) 0 in
  let slept := fst (Retry.draw_delay p (Retry.backoff p c (RateLimitError (Some 5%Q))) w) in
  (Retry.jitter p = false -> (5 <= slept)%Q)
  /\ (Retry.jitter p = true -> (5 * (1 # 2) <= slept /\ slept <= 5 * (3 # 2))%Q).
Proof.
  cbn zeta.
  apply (@retry_after_floor_up_to_jitter World World_runtime
           SourceClient.retry_params
           (fst (fst (Retry.charge SourceClient.retry_params
                        (Retry.next_total Retry.start) (RateLimitError (Some 5%Q)))))
           5%Q (fresh_world (rate_limited_backend 5) 0)).
  - vm_compute; discriminate.
  - vm_compute; discriminate.
  - vm_compute; discriminate.
  - split; vm_compute; discriminate.
Defined.

(** *** The retry engine: two budgets (C8) *)





(** A failure is charged to the counter of its class and to no other. *)
Lemma charge_touches_one_counter (p : Retry.params) (c : Retry.counters) (e : exn) :
  let '(c', effective_max, attempt_idx) := Retry.charge p c e in
  effective_max = budget_of p e
  /\ attempt_idx = consumed_by_class_of e c'
  /\ Retry.total_attempt c' = Retry.total_attempt c
  /\ if isinstance_RateLimitError e
     then Retry.rl_attempt c' = (Retry.rl_attempt c + 1)%Z
          /\ Retry.other_attempt c' = Retry.other_attempt c
     else Retry.other_attempt c' = (Retry.other_attempt c + 1)%Z
          /\ Retry.rl_attempt c' = Retry.rl_attempt c.
Proof.
  unfold Retry.charge, budget_of, consumed_by_class_of.
  destruct (isinstance_RateLimitError e); cbn; repeat split.
Qed.



(** *** The merge step: order of the sources (C4) *)

(** C4 (counterexample).  A Standard query whose neural search returns a
    hit with a URL and score 0.5 and a hit without URL and score 0.9:
    the merged sources have the URL-less one first. *)
Lemma url_less_source_can_come_first :
  match IntelOrchestrator.standard_result (query_of "q" STANDARD)
                                          hits_with_and_without_url [] with
  | Returns r =>
      map (fun s => (IntelSource.url s, IntelSource.relevance_score s))
          (IntelResult.sources r)
      = [ (None, 9 # 10); (Some "https://a.example/1", 5 # 10) ]
      /\ url_bearing_first (IntelResult.sources r) = false
  | Raises _ => False
  end.
Proof. vm_compute. split; reflexivity. Qed.

Lemma Qltb_false_le (x y : Q) : Qltb x y = false -> (y <= x)%Q.
Proof.
  unfold Qltb. rewrite negb_false_iff. apply Qle_bool_iff.
Qed.

Lemma Forall_insert_desc (P : IntelSource.t -> Prop) x l :
  P x -> Forall P l -> Forall P (IntelOrchestrator.insert_desc x l).
Proof.
  intros Px. induction 1 as [|y l Py Pl IH]; cbn.
  - constructor; [ assumption | constructor ].
  - destruct (Qltb _ _); repeat constructor; assumption.
Qed.

Lemma Forall_sort_desc (P : IntelSource.t -> Prop) l :
  Forall P l -> Forall P (IntelOrchestrator.sort_desc l).
Proof.
  induction 1 as [|x l Px Pl IH]; cbn; [ constructor | ].
  apply Forall_insert_desc; assumption.
Qed.

(** Inserting [x] in front of the sources that followed it. *)
Lemma insert_desc_merged_order x l :
  StronglySorted merged_order l ->
  (has_url x = false -> Forall (fun y => has_url y = false) l) ->
  StronglySorted merged_order (IntelOrchestrator.insert_desc x l).
Proof.
  induction 1 as [|y l Sl IH Fy]; intros Hx; cbn.
  - repeat constructor.
  - destruct (Qltb (IntelSource.relevance_score x) (IntelSource.relevance_score y)) eqn:L.
    + apply Qltb_lt in L. constructor.
      * apply IH. intros U. specialize (Hx U). inversion Hx; assumption.
      * apply Forall_insert_desc; [ | assumption ].
        split; [ apply Qlt_le_weak; assumption | intros _ _; assumption ].
    + apply Qltb_false_le in L. constructor; [ constructor; assumption | ].
      constructor.
      * split; [ assumption | ].
        intros U V. specialize (Hx U). inversion Hx; congruence.
      * rewrite List.Forall_forall in Fy |- *. intros z Hz. split.
        -- destruct (Fy z Hz) as [Le _]. eapply Qle_trans; eassumption.
        -- intros U V. specialize (Hx U). rewrite List.Forall_forall in Hx.
           specialize (Hx z (or_intror Hz)). congruence.
Qed.

Lemma sort_desc_merged_order l :
  StronglySorted url_less_stay_behind l ->
  StronglySorted merged_order (IntelOrchestrator.sort_desc l).
Proof.
  induction 1 as [|x l Sl IH Fx]; cbn; [ constructor | ].
  apply insert_desc_merged_order; [ assumption | ].
  intros U. apply Forall_sort_desc.
  eapply List.Forall_impl; [ | exact Fx ]. intros y Hy. exact (Hy U).
Qed.

Lemma url_bearing_then_url_less (bearing less : list IntelSource.t) :
  Forall (fun s => has_url s = true) bearing ->
  Forall (fun s => has_url s = false) less ->
  StronglySorted url_less_stay_behind (bearing ++ less).
Proof.
  intros Hb Hl. induction Hb as [|x b Hx Hb IH]; cbn.
  - induction Hl as [|y l Hy Hl IH]; constructor; [ assumption | ].
    eapply List.Forall_impl; [ | exact Hl ]. intros z Hz _. exact Hz.
  - constructor; [ assumption | ].
    apply List.Forall_forall. intros z _ U. congruence.
Qed.

Lemma Forall_dict_set {V} (P : V -> Prop) k v (d : list (string * V)) :
  P v -> Forall P (dict_values d) -> Forall P (dict_values (dict_set k v d)).
Proof.
  intros Pv. unfold dict_values. induction d as [|[k' v'] d IH]; cbn; intros F.
  - repeat constructor; assumption.
  - inversion F as [|? ? Pv' F']; subst.
    destruct (String.eqb k k'); cbn; constructor; auto.
Qed.

(** The loop of the merge step keeps the sources with a URL in
    [seen_urls] and the others in [no_url_sources]. *)
Lemma dedup_fold_separates (sources : list IntelSource.t) :
  forall seen_urls no_url_sources,
    Forall (fun s => has_url s = true) (dict_values seen_urls) ->
    Forall (fun s => has_url s = false) no_url_sources ->
    let '(seen', no_url') :=
      fold_left IntelOrchestrator.dedup_step sources (seen_urls, no_url_sources) in
    Forall (fun s => has_url s = true) (dict_values seen')
    /\ Forall (fun s => has_url s = false) no_url'.
Proof.
  induction sources as [|s sources IH]; intros seen no_url Hs Hn; cbn [fold_left].
  - split; assumption.
  - unfold IntelOrchestrator.dedup_step at 2.
    destruct (truthy_url (IntelSource.url s)) as [u|] eqn:U.
    + assert (Hu : has_url s = true) by (unfold has_url; rewrite U; reflexivity).
      destruct (dict_get u seen) as [existing|].
      * destruct (Qltb _ _); apply IH; try assumption.
        apply Forall_dict_set; assumption.
      * apply IH; [ apply Forall_dict_set | ]; assumption.
    + assert (Hu : has_url s = false) by (unfold has_url; rewrite U; reflexivity).
      apply IH; [ assumption | ].
      apply List.Forall_app. split; [ assumption | repeat constructor; assumption ].
Qed.

Lemma StronglySorted_weaken {X} (R R' : X -> X -> Prop) l :
  (forall x y, R x y -> R' x y) -> StronglySorted R l -> StronglySorted R' l.
Proof.
  intros I. induction 1 as [|x l Sl IH Fx]; constructor; [ assumption | ].
  eapply List.Forall_impl; [ | exact Fx ]. intros y. apply I.
Qed.

Lemma StronglySorted_filter {X} (R : X -> X -> Prop) (f : X -> bool) l :
  StronglySorted R l -> StronglySorted R (List.filter f l).
Proof.
  induction 1 as [|x l Sl IH Fx]; cbn; [ constructor | ].
  destruct (f x); [ | assumption ].
  constructor; [ assumption | ].
  rewrite List.Forall_forall in *. intros y Hy.
  apply List.filter_In in Hy. apply Fx. tauto.
Qed.

Lemma StronglySorted_split {X} (R : X -> X -> Prop) l1 x l2 y l3 :
  StronglySorted R (l1 ++ x :: l2 ++ y :: l3) -> R x y.
Proof.
  induction l1 as [|z l1 IH]; cbn; intros S; inversion S as [|? ? S' F]; subst.
  - rewrite List.Forall_forall in F. apply F.
    apply List.in_or_app. right. left. reflexivity.
  - apply IH. assumption.
Qed.

(** C4 (amended).  The sources the merge step returns are in
    non-increasing [relevance_score] order as a whole, hence so are the
    URL-bearing ones among them; URL-bearing sources are not all ahead of
    the URL-less ones: a URL-less source stands before a URL-bearing one
    exactly when its score is strictly higher (at equal scores the
    URL-bearing one comes first). *)
Theorem merged_sources_are_sorted_by_score (sources : list IntelSource.t) :
  let merged := IntelOrchestrator._deduplicate_sources sources in
  StronglySorted score_order merged
  /\ StronglySorted score_order (List.filter has_url merged)
  /\ forall l1 x l2 y l3,
      merged = l1 ++ x :: l2 ++ y :: l3 ->
      (IntelSource.relevance_score y <= IntelSource.relevance_score x)%Q
      /\ (has_url x = false -> has_url y = true ->
          (IntelSource.relevance_score y < IntelSource.relevance_score x)%Q).
Proof.
  cbn zeta.
  assert (S : StronglySorted merged_order (IntelOrchestrator._deduplicate_sources sources)).
  { unfold IntelOrchestrator._deduplicate_sources.
    pose proof (dedup_fold_separates sources [] []) as D.
    destruct (fold_left IntelOrchestrator.dedup_step sources ([], [])) as [seen no_url].
    destruct D as [Hs Hn]; [ constructor | constructor | ].
    apply sort_desc_merged_order. apply url_bearing_then_url_less; assumption. }
  assert (S' : StronglySorted score_order (IntelOrchestrator._deduplicate_sources sources)).
  { eapply StronglySorted_weaken; [ | exact S ]. intros x y [Le _]. exact Le. }
  split; [ exact S' | ]. split; [ apply StronglySorted_filter; exact S' | ].
  intros l1 x l2 y l3 E. rewrite E in S.
  exact (StronglySorted_split merged_order l1 x l2 y l3 S).
Qed.

(** *** Rounding to the nearest double *)

Lemma round_half_even_close (x : Q) :
  (Qabs (inject_Z (Float64.round_half_even x) - x) <= 1 # 2)%Q.
Proof.
  pose proof (Qfloor_le x) as L. pose proof (Qlt_floor x) as U.
  rewrite inject_Z_plus in U. change (inject_Z 1) with 1%Q in U.
  apply Qabs_Qle_condition. unfold Float64.round_half_even.
  destruct (Qcompare_spec (x - inject_Z (Qfloor x)) (1 # 2)) as [C|C|C].
  - destruct (Z.even (Qfloor x)); [ | rewrite inject_Z_plus; change (inject_Z 1) with 1%Q ];
      split; lra.
  - split; lra.
  - rewrite inject_Z_plus. change (inject_Z 1) with 1%Q. split; lra.
Qed.

Lemma round_half_even_nonneg (x : Q) :
  (0 <= x)%Q -> (0 <= Float64.round_half_even x)%Z.
Proof.
  intros P. pose proof (round_half_even_close x) as C.
  apply Qabs_Qle_condition in C. destruct C as [C _].
  assert (L : (inject_Z (-1) < inject_Z (Float64.round_half_even x))%Q).
  { change (inject_Z (-1)) with (-(1))%Q. lra. }
  rewrite <- Zlt_Qlt in L. lia.
Qed.

Lemma pow2_pos (k : Z) : (0 < 2 ^ k)%Q.
Proof. apply Qpower_0_lt. reflexivity. Qed.

Lemma pow2_plus (n m : Z) : (2 ^ (n + m) == 2 ^ n * 2 ^ m)%Q.
Proof. apply Qpower_plus. discriminate. Qed.

Lemma pow2_inject (n : Z) : (0 <= n)%Z -> (inject_Z (2 ^ n) == 2 ^ n)%Q.
Proof. intros P. rewrite (Zpower_Qpower 2 n P). reflexivity. Qed.

(** [exponent a] is not too large: [2 ^ exponent a <= a]. *)
Lemma exponent_le (a : Q) : (0 < a)%Q -> (2 ^ Float64.exponent a <= a)%Q.
Proof.
  intros P. unfold Float64.exponent.
  destruct (Qle_bool _ a) eqn:B; [ apply Qle_bool_iff; exact B | ].
  clear B. destruct a as [n d]. cbn [Qnum Qden].
  assert (Pn : (0 < n)%Z) by (unfold Qlt in P; cbn in P; lia).
  pose proof (Z.log2_spec n Pn) as [Ln _].
  pose proof (Z.log2_spec (Zpos d) (Pos2Z.is_pos d)) as [_ Ld].
  pose proof (Z.log2_nonneg n) as Nn. pose proof (Z.log2_nonneg (Zpos d)) as Nd.
  set (ln := Z.log2 n) in *. set (ld := Z.log2 (Zpos d)) in *.
  assert (K : (2 ^ (ln - ld - 1) * 2 ^ (ld + 1) == 2 ^ ln)%Q).
  { rewrite <- pow2_plus. replace (ln - ld - 1 + (ld + 1))%Z with ln by lia. reflexivity. }
  assert (N : (2 ^ ln <= inject_Z n)%Q).
  { rewrite <- pow2_inject by exact Nn. rewrite <- Zle_Qle. exact Ln. }
  assert (D : (inject_Z (Zpos d) <= 2 ^ (ld + 1))%Q).
  { rewrite <- pow2_inject by lia. rewrite <- Zle_Qle.
    unfold Z.succ in Ld. lia. }
  assert (A : ((n # d) * inject_Z (Zpos d) == inject_Z n)%Q).
  { rewrite Qmake_Qdiv. field. discriminate. }
  pose proof (pow2_pos (ld + 1)) as Pp.
  apply (Qmult_le_r _ _ _ Pp). rewrite K.
  eapply Qle_trans; [ exact N | ]. rewrite <- A.
  apply Qmult_le_l; [ exact P | exact D ].
Qed.

(** The rounded magnitude of a number other than 0. *)
Lemma round_magnitude (a : Q) :
  (0 < a)%Q ->
  let r := (inject_Z (Float64.round_half_even (a / 2 ^ (Float64.exponent a - 52)))
            * 2 ^ (Float64.exponent a - 52))%Q in
  (0 <= r)%Q /\ (Qabs (r - a) <= Float64.eps * a)%Q.
Proof.
  intros P. cbn zeta.
  set (ulp := (2 ^ (Float64.exponent a - 52))%Q).
  pose proof (pow2_pos (Float64.exponent a - 52)) as U. fold ulp in U.
  pose proof (round_half_even_close (a / ulp)) as C.
  assert (X : (0 <= a / ulp)%Q).
  { apply Qle_shift_div_l; [ exact U | lra ]. }
  pose proof (round_half_even_nonneg (a / ulp) X) as M.
  rewrite Zle_Qle in M. change (inject_Z 0) with 0%Q in M.
  set (m := inject_Z (Float64.round_half_even (a / ulp))) in *.
  split; [ apply Qmult_le_0_compat; lra | ].
  assert (E : (ulp * 2 ^ 52 <= a)%Q).
  { unfold ulp. rewrite <- pow2_plus.
    replace (Float64.exponent a - 52 + 52)%Z with (Float64.exponent a) by lia.
    apply exponent_le. exact P. }
  assert (E' : (ulp * (4503599627370496 # 1) <= a)%Q) by exact E.
  assert (D : ((a / ulp) * ulp == a)%Q) by (field; lra).
  apply Qabs_Qle_condition in C. destruct C as [C1 C2].
  apply Qabs_Qle_condition. unfold Float64.eps.
  assert (H1 : ((m - a / ulp) * ulp <= (1 # 2) * ulp)%Q)
    by (apply Qmult_le_compat_r; lra).
  assert (H2 : (- (1 # 2) * ulp <= (m - a / ulp) * ulp)%Q)
    by (apply Qmult_le_compat_r; lra).
  assert (H3 : ((m - a / ulp) * ulp == m * ulp - a)%Q) by (rewrite <- D at 2; ring).
  rewrite H3 in H1, H2. split; lra.
Qed.

Lemma Qabs_of_pos (q : Q) : (0 < q)%Q -> Qabs q = q.
Proof.
  intros P. destruct q as [[|n|n] d]; try reflexivity.
  unfold Qlt in P; cbn in P; lia.
Qed.


Lemma Qpos_of_nonneg (q : Q) : (0 <= q)%Q -> ~ (q == 0)%Q -> (0 < q)%Q.
Proof.
  intros S Z. apply Qle_lteq in S. destruct S as [S|S]; [ exact S | ].
  exfalso. apply Z. symmetry. exact S.
Qed.


Lemma round_zero (q : Q) : (q == 0)%Q -> Float64.round q = 0%Q.
Proof.
  intros Z. unfold Float64.round. rewrite (Qeq_eq_bool _ _ Z). reflexivity.
Qed.

Lemma round_nonneg (q : Q) : (0 <= q)%Q -> (0 <= Float64.round q)%Q.
Proof.
  intros S. unfold Float64.round. destruct (Qeq_bool q 0) eqn:Z; [ apply Qle_refl | ].
  apply Qeq_bool_neq in Z. cbn zeta.
  pose proof (Qpos_of_nonneg q S Z) as P.
  apply Qle_bool_iff in S. rewrite S, (Qabs_of_pos q P). apply (round_magnitude q P).
Qed.





(** *** The cost of a result (C3) *)


(** The model rounds as Python does: [0.1 + 0.2] is
    [0.30000000000000004], the double [5404319552844596 / 2^54], and not
    the double of [0.3]. *)
Lemma rounding_of_tenths :
  (Float64.add (Float64.literal (1 # 10)) (Float64.literal (2 # 10))
   == 5404319552844596 # 18014398509481984)%Q
  /\ (Float64.literal (3 # 10)
      < Float64.add (Float64.literal (1 # 10)) (Float64.literal (2 # 10)))%Q.
Proof. split; vm_compute; reflexivity. Qed.

(** Without a shared URL the two sums still differ in the last bit:
    a Standard query with ten hits of the neural search and five of the
    news search has a [total_cost_usd] of 0.015, and its fifteen sources
    sum to the next double above, 0.015000000000000001. *)
Lemma source_sum_can_exceed_total_cost :
  match IntelOrchestrator.gather_intel
          (mock_search (Returns (numbered_hits "exa" 10)) false)
          (mock_search (Returns (numbered_hits "tavily" 5)) false)
          (mock_scraper (Returns [])) (fun s => s)
          (query_of "q" STANDARD) mock_orchestrator
          (fresh_world bitcoin_backend (1 # 2)) with
  | (Returns r, _, _) =>
      length (IntelResult.sources r) = 15%nat
      /\ NoDup (present_urls (IntelResult.sources r))
      /\ IntelResult.total_cost_usd r = Float64.literal (15 # 1000)
      /\ (IntelResult.total_cost_usd r < sum_cost (IntelResult.sources r))%Q
      /\ (sum_cost (IntelResult.sources r) - IntelResult.total_cost_usd r
          == 1 # 576460752303423488)%Q
  | (Raises _, _, _) => False
  end.
Proof.
  vm_compute. repeat split; try congruence.
  repeat (apply NoDup_cons; split; [ vm_compute; set_solver | ]). apply NoDup_nil_2.
Qed.










Lemma dict_get_set k k' v (d : list (string * IntelSource.t)) :
  dict_get k' (dict_set k v d) = if String.eqb k' k then Some v else dict_get k' d.
Proof.
  induction d as [|[k0 v0] d IH]; cbn.
  - destruct (String.eqb k' k); reflexivity.
  - destruct (String.eqb k k0) eqn:E; cbn.
    + apply String.eqb_eq in E. subst k0. destruct (String.eqb k' k); reflexivity.
    + rewrite IH. destruct (String.eqb k' k) eqn:E'; [ | reflexivity ].
      apply String.eqb_eq in E'. subst k'. rewrite E. reflexivity.
Qed.



Lemma deduplicate_sources_unfold (sources : list IntelSource.t) :
  IntelOrchestrator._deduplicate_sources sources
  = let final := fold_left IntelOrchestrator.dedup_step sources ([], []) in
    IntelOrchestrator.sort_desc (dict_values (fst final) ++ snd final).
Proof.
  unfold IntelOrchestrator._deduplicate_sources.
  destruct (fold_left _ sources _); reflexivity.
Qed.












Lemma inject_nat_nonneg (n : nat) : (0 <= inject_Z (Z.of_nat n))%Q.
Proof. change 0%Q with (inject_Z 0). rewrite <- Zle_Qle. lia. Qed.






(** The three prices, as doubles. *)
Lemma cost_constants :
  (0 <= IntelOrchestrator.EXA_COST_PER_RESULT <= 1 # 1000)%Q
  /\ (0 <= IntelOrchestrator.TAVILY_COST_PER_SEARCH <= 2 # 100)%Q
  /\ (0 <= IntelOrchestrator.COST_PER_PAGE <= 2 # 1000)%Q.
Proof. repeat split; vm_compute; discriminate. Qed.











Section GatheredResults.
Context {E T F : Type}.
Variable exa_ops : SearchOps E.
Variable tavily_ops : SearchOps T.
Variable firecrawl_ops : ScrapeOps F.
Variable sha256_hexdigest : string -> string.

Lemma gather_shallow_result query (o o' : @IntelOrchestrator.t E T F) w res w' :
  IntelOrchestrator._gather_shallow exa_ops query o w = (res, o', w') ->
  returned res = true ->
  exists exa_results, res = IntelOrchestrator.shallow_result query exa_results.
Proof.
  unfold IntelOrchestrator._gather_shallow.
  destruct (search exa_ops _ _ _ _) as [[[l|e] c] w1]; intros Hg R;
    injection Hg as <- _ _; [ eexists; reflexivity | discriminate ].
Qed.

Lemma gather_standard_result query (o o' : @IntelOrchestrator.t E T F) w res w' :
  IntelOrchestrator._gather_standard exa_ops tavily_ops query o w = (res, o', w') ->
  exists exa_results tavily_results,
    res = IntelOrchestrator.standard_result query exa_results tavily_results.
Proof.
  unfold IntelOrchestrator._gather_standard.
  destruct (is_rate_limited exa_ops _ _);
    [ | destruct (search exa_ops _ _ _ _) as [[[l1|e1] c1] w1] ];
    (destruct (is_rate_limited tavily_ops _ _);
     [ | destruct (search tavily_ops _ _ _ _) as [[[l2|e2] c2] w2] ]);
    intros Hg; injection Hg as <- _ _; do 2 eexists; reflexivity.
Qed.

Lemma gather_deep_result query (o o' : @IntelOrchestrator.t E T F) w res w' :
  IntelOrchestrator._gather_deep exa_ops firecrawl_ops query o w = (res, o', w') ->
  returned res = true ->
  exists exa_results scraped,
    res = IntelOrchestrator.deep_result query exa_results scraped.
Proof.
  unfold IntelOrchestrator._gather_deep.
  destruct (search exa_ops _ _ _ _) as [[[l|e] c] w1]; intros Hg R.
  - destruct (IntelOrchestrator._extract_scrape_urls l 5) as [|u urls].
    + injection Hg as <- _ _. do 2 eexists; reflexivity.
    + destruct (batch_scrape firecrawl_ops _ _ _) as [[[pages|e] c'] w2];
        injection Hg as <- _ _; [ do 2 eexists; reflexivity | discriminate ].
  - injection Hg as <- _ _. discriminate.
Qed.


Lemma cache_hit_is_marked key c r :
  RedisCache.get key c = Some r -> IntelResult.cached r = true.
Proof.
  unfold RedisCache.get. destruct (RedisCache.connected c); [ | discriminate ].
  destruct (RedisCache.store c !! key); [ | discriminate ].
  intros Hg. injection Hg as <-. reflexivity.
Qed.



End GatheredResults.


(** *** The event bus: handlers are isolated (C9) *)




(** Calls on the subscriptions leave the queues alone. *)
Lemma perform_keeps_queues (b : EventBus.t) (c : EventBus.bus_call) :
  EventBus.heap (EventBus.perform b c) = EventBus.heap b
  /\ EventBus._sse_queues (EventBus.perform b c) = EventBus._sse_queues b
  /\ EventBus.next_event_id (EventBus.perform b c) = EventBus.next_event_id b
  /\ EventBus.next_addr (EventBus.perform b c) = EventBus.next_addr b.
Proof.
  destruct c as [ty id name body|ty id]; cbn [EventBus.perform].
  - repeat split.
  - unfold EventBus.unsubscribe_id. destruct (EventBus._handlers b !! ty); repeat split.
Qed.

Lemma perform_all_keeps_queues (cs : list EventBus.bus_call) :
  forall b : EventBus.t,
    EventBus.heap (fold_left EventBus.perform cs b) = EventBus.heap b
    /\ EventBus._sse_queues (fold_left EventBus.perform cs b) = EventBus._sse_queues b
    /\ EventBus.next_event_id (fold_left EventBus.perform cs b) = EventBus.next_event_id b
    /\ EventBus.next_addr (fold_left EventBus.perform cs b) = EventBus.next_addr b.
Proof.
  induction cs as [|c cs IH]; intros b; cbn [fold_left]; [ repeat split | ].
  destruct (IH (EventBus.perform b c)) as (H1 & H2 & H3 & H4).
  destruct (perform_keeps_queues b c) as (K1 & K2 & K3 & K4).
  repeat split; congruence.
Qed.

Lemma dispatch_keeps_queues (event_type : string) (e : EventBus.EventEnvelope) :
  forall (fuel i : nat) (b b' : EventBus.t) o tr,
    EventBus.dispatch fuel event_type i e b = Some (o, b', tr) ->
    EventBus.heap b' = EventBus.heap b
    /\ EventBus._sse_queues b' = EventBus._sse_queues b
    /\ EventBus.next_event_id b' = EventBus.next_event_id b
    /\ EventBus.next_addr b' = EventBus.next_addr b.
Proof.
  induction fuel as [|fuel IH]; intros i b b' o tr; cbn [EventBus.dispatch];
    [ discriminate | ].
  destruct (EventBus.handlers_for event_type b !! i) as [h|];
    [ | intros D; injection D as _ <- _; repeat split ].
  pose proof (perform_all_keeps_queues (EventBus.calls h e) b) as (K1 & K2 & K3 & K4).
  destruct (EventBus.run h e) as [[]|exc].
  - destruct (EventBus.dispatch fuel event_type (S i) e _) as [[[o1 b1] tr1]|] eqn:D1;
      [ | discriminate ].
    intros D; injection D as _ <- _.
    destruct (IH _ _ _ _ _ D1) as (H1 & H2 & H3 & H4). repeat split; congruence.
  - destruct (isinstance_Exception exc).
    + destruct (EventBus.dispatch fuel event_type (S i) e _) as [[[o1 b1] tr1]|] eqn:D1;
        [ | discriminate ].
      intros D; injection D as _ <- _.
      destruct (IH _ _ _ _ _ D1) as (H1 & H2 & H3 & H4). repeat split; congruence.
    + intros D; injection D as _ <- _. repeat split; assumption.
Qed.

(** A call that concerns another event type leaves the handlers of this
    one as they are. *)
Lemma perform_other_type (event_type : string) (b : EventBus.t) (c : EventBus.bus_call) :
  call_type c <> event_type ->
  EventBus.handlers_for event_type (EventBus.perform b c)
  = EventBus.handlers_for event_type b.
Proof.
  intros N. destruct c as [ty id name body|ty id]; cbn [call_type] in N;
    cbn [EventBus.perform]; unfold EventBus.handlers_for.
  - cbn [EventBus.subscribe EventBus._handlers]. rewrite lookup_insert_ne by exact N.
    reflexivity.
  - unfold EventBus.unsubscribe_id. destruct (EventBus._handlers b !! ty); [ | reflexivity ].
    cbn [EventBus._handlers]. rewrite lookup_insert_ne by exact N. reflexivity.
Qed.


(** The loop never needs more iterations than [enough] allows. *)
Lemma weight_nil (e : EventBus.EventEnvelope) : EventBus.weight e [] = 0%nat.
Proof. reflexivity. Qed.

Lemma weight_cons (e : EventBus.EventEnvelope) (h : EventBus.EventHandler)
      (l : list EventBus.EventHandler) :
  EventBus.weight e (h :: l) = S (length (EventBus.calls h e) + EventBus.weight e l).
Proof. reflexivity. Qed.

Lemma weight_app (e : EventBus.EventEnvelope) (l l' : list EventBus.EventHandler) :
  EventBus.weight e (l ++ l') = (EventBus.weight e l + EventBus.weight e l')%nat.
Proof.
  induction l as [|h l IH]; cbn [app]; [ rewrite weight_nil; reflexivity | ].
  rewrite !weight_cons, IH. lia.
Qed.

Lemma weight_drop (e : EventBus.EventEnvelope) (l : list EventBus.EventHandler) (n : nat) :
  (EventBus.weight e (drop n l) <= EventBus.weight e l)%nat.
Proof.
  rewrite <- (take_drop n l) at 2. rewrite weight_app. lia.
Qed.

Lemma weight_drop_S (e : EventBus.EventEnvelope) (l : list EventBus.EventHandler) (n : nat) :
  (EventBus.weight e (drop (S n) l) <= EventBus.weight e (drop n l))%nat.
Proof.
  replace (drop (S n) l) with (drop 1 (drop n l))
    by (rewrite drop_drop; f_equal; lia).
  apply weight_drop.
Qed.

Lemma weight_drop_remove (e : EventBus.EventEnvelope) (id : nat)
      (l : list EventBus.EventHandler) :
  forall n : nat,
    (EventBus.weight e (drop n (EventBus.remove_handler id l))
     <= EventBus.weight e (drop n l))%nat.
Proof.
  induction l as [|x l IH]; intros n; cbn [EventBus.remove_handler]; [ lia | ].
  destruct (Nat.eqb (EventBus.handler_id x) id).
  - destruct n as [|n].
    + rewrite !drop_0, weight_cons. lia.
    + change (drop (S n) (x :: l)) with (drop n l). apply weight_drop_S.
  - destruct n as [|n].
    + specialize (IH 0%nat). rewrite !drop_0 in *. rewrite !weight_cons. lia.
    + change (drop (S n) (x :: EventBus.remove_handler id l))
        with (drop n (EventBus.remove_handler id l)).
      change (drop (S n) (x :: l)) with (drop n l). apply IH.
Qed.

Lemma weight_drop_snoc (e : EventBus.EventEnvelope) (h : EventBus.EventHandler)
      (l : list EventBus.EventHandler) (n : nat) :
  (EventBus.weight e (drop n (l ++ [h]))
   <= EventBus.weight e (drop n l) + EventBus.weight e [h])%nat.
Proof.
  rewrite drop_app, weight_app.
  pose proof (weight_drop e [h] (n - length l)). lia.
Qed.

Lemma perform_weight (event_type : string) (e : EventBus.EventEnvelope)
      (b : EventBus.t) (c : EventBus.bus_call) (n : nat) :
  (EventBus.weight e (drop n (EventBus.handlers_for event_type (EventBus.perform b c)))
   <= S (EventBus.weight e (drop n (EventBus.handlers_for event_type b))))%nat.
Proof.
  destruct (decide (call_type c = event_type)) as [E|N];
    [ | rewrite (perform_other_type _ _ _ N); lia ].
  destruct c as [ty hid name body|ty hid]; cbn [call_type] in E; subst ty;
    cbn [EventBus.perform].
  - unfold EventBus.handlers_for at 1.
    cbn [EventBus.subscribe EventBus._handlers]. rewrite lookup_insert_eq.
    cbn [default from_option]. unfold id.
    etransitivity; [ apply weight_drop_snoc | ].
    rewrite weight_cons, weight_nil. cbn [EventBus.calls length]. lia.
  - unfold EventBus.unsubscribe_id, EventBus.handlers_for.
    destruct (EventBus._handlers b !! event_type) as [l|] eqn:L;
      [ | rewrite L; lia ].
    cbn [EventBus._handlers]. rewrite lookup_insert_eq.
    cbn [default from_option]. unfold id.
    pose proof (weight_drop_remove e hid l n). lia.
Qed.

Lemma perform_all_weight (event_type : string) (e : EventBus.EventEnvelope)
      (cs : list EventBus.bus_call) (n : nat) :
  forall b : EventBus.t,
    (EventBus.weight e (drop n (EventBus.handlers_for event_type
                                  (fold_left EventBus.perform cs b)))
     <= length cs + EventBus.weight e (drop n (EventBus.handlers_for event_type b)))%nat.
Proof.
  induction cs as [|c cs IH]; intros b; cbn [fold_left length]; [ lia | ].
  specialize (IH (EventBus.perform b c)).
  pose proof (perform_weight event_type e b c n). lia.
Qed.

Lemma dispatch_terminates (event_type : string) (e : EventBus.EventEnvelope) :
  forall (fuel i : nat) (b : EventBus.t),
    (EventBus.weight e (drop i (EventBus.handlers_for event_type b)) < fuel)%nat ->
    is_Some (EventBus.dispatch fuel event_type i e b).
Proof.
  induction fuel as [|fuel IH]; intros i b Hfuel; [ lia | ].
  cbn [EventBus.dispatch].
  destruct (EventBus.handlers_for event_type b !! i) as [h|] eqn:L;
    [ | eexists; reflexivity ].
  rewrite (drop_S _ _ _ L), weight_cons in Hfuel.
  pose proof (perform_all_weight event_type e (EventBus.calls h e) (S i) b) as Hw.
  destruct (IH (S i) (fold_left EventBus.perform (EventBus.calls h e) b)) as [[[o b1] tr] D];
    [ lia | ].
  rewrite D. destruct (EventBus.run h e) as [[]|exc];
    [ | destruct (isinstance_Exception exc) ]; eexists; reflexivity.
Qed.








(** What [except Exception] does not catch goes through: a handler's
    [CancelledError] ends [emit], and the queues are not served. *)
Lemma emit_lets_cancellation_through :
  let b := EventBus.subscribe "query_started" (failing_handler 1 CancelledError)
             (snd (EventBus.sse_subscribe EventBus.init)) in
  let '(o, _, tr) := EventBus.emit "query_started" ∅ "" "" b in
  o = Raises CancelledError /\ offered_queues tr = [].
Proof. vm_compute. split; reflexivity. Qed.

(** Whatever the handlers do, the handler loop of [emit] ends. *)
Lemma emit_handler_loop_ends (event_type : string) (e : EventBus.EventEnvelope)
      (b : EventBus.t) :
  is_Some (EventBus.dispatch (EventBus.enough event_type e b) event_type 0 e b).
Proof.
  apply dispatch_terminates. unfold EventBus.enough. rewrite drop_0. lia.
Qed.

(** *** The streaming emitter: teardown of a session (C10) *)

(** Teardown removes the session's own queue and no other. *)
Lemma subscribe_exit_keeps_other_session_queues
      (session other : string) (em : SSEEventEmitter.t) :
  other <> session ->
  SSEEventEmitter._queues (SSEEventEmitter.subscribe_exit session em) !! other
  = SSEEventEmitter._queues em !! other
  /\ SSEEventEmitter._queues (SSEEventEmitter.subscribe_exit session em) !! session = None.
Proof.
  intros N. cbn [SSEEventEmitter.subscribe_exit SSEEventEmitter._queues]. split.
  - apply lookup_delete_ne. congruence.
  - apply lookup_delete_eq.
Qed.

(** Teardown of any session leaves the bus without a single streaming
    subscription. *)
Lemma subscribe_exit_clears_every_subscription
      (session : string) (em : SSEEventEmitter.t) :
  EventBus._sse_queues (SSEEventEmitter.bus (SSEEventEmitter.subscribe_exit session em))
  = [].
Proof. reflexivity. Qed.

(** While both sessions are live, an emitted envelope reaches B. *)
Lemma live_session_receives :
  option_map length (session_B_receives two_sessions) = Some 1%nat.
Proof. vm_compute. reflexivity. Qed.

(** C10 (code bug).  Two live sessions A and B; A's consumer
    disconnects.  The teardown of A deletes A's queue and keeps B's, but
    it also empties the bus's list of streaming queues: B's subscription
    (queue 1) is no longer registered, and an envelope emitted afterwards
    never reaches B. *)
Theorem teardown_unsubscribes_other_sessions :
  let before := two_sessions in
  let after := SSEEventEmitter.subscribe_exit "session-A" two_sessions in
  EventBus._sse_queues (SSEEventEmitter.bus before) = [0; 1]%nat
  /\ SSEEventEmitter.system_queue after !! "session-B" = Some 1%nat
  /\ SSEEventEmitter._queues after !! "session-A" = None
  /\ SSEEventEmitter._queues after !! "session-B" = Some []
  /\ EventBus._sse_queues (SSEEventEmitter.bus after) = []
  /\ option_map length (session_B_receives before) = Some 1%nat
  /\ session_B_receives after = Some [].
Proof. vm_compute. repeat split. Qed.

(** ** Further properties of the embedded code *)

(** *** The circuit breaker *)

(** X1.  [reset] leaves the breaker [CLOSED] with its configuration;
    coming from [OPEN] or [HALF_OPEN] it clears the failure count, the
    failure timestamps and the half-open counter; on a breaker that is
    already [CLOSED] it changes nothing, recorded failures included. *)
Theorem reset_closes_and_clears_unless_closed (cb : CircuitBreaker.t) :
  CircuitBreaker._state (CircuitBreaker.reset cb) = CircuitBreaker.CLOSED
  /\ CircuitBreaker.config (CircuitBreaker.reset cb) = CircuitBreaker.config cb
  /\ (CircuitBreaker._state cb <> CircuitBreaker.CLOSED ->
      CircuitBreaker._failure_count (CircuitBreaker.reset cb) = 0%Z
      /\ CircuitBreaker._failure_timestamps (CircuitBreaker.reset cb) = []
      /\ CircuitBreaker._half_open_calls (CircuitBreaker.reset cb) = 0%Z)
  /\ (CircuitBreaker._state cb = CircuitBreaker.CLOSED -> CircuitBreaker.reset cb = cb).
Proof.
  unfold CircuitBreaker.reset, CircuitBreaker._transition_to.
  destruct (CircuitBreaker._state cb) eqn:S; cbn; rewrite ?S;
    repeat split; intros; congruence.
Qed.

(** X2.  While a breaker is [OPEN] and its timeout has not elapsed, a
    call is refused with [CircuitOpenError] carrying the time left,
    which is positive; the wrapped function is not run: the world and
    the breaker are as before. *)
Theorem open_breaker_refuses_without_running
        {W : Type} `{Runtime W} {A : Type}
        (fn : coro W A) (cb : CircuitBreaker.t) (w : W) :
  CircuitBreaker._state cb = CircuitBreaker.OPEN ->
  (monotonic w - CircuitBreaker._opened_at cb
   < CircuitBreaker.timeout_seconds (CircuitBreaker.config cb))%Q ->
  exists remaining : Q,
    CircuitBreaker.call fn cb w = (Raises (CircuitOpenError remaining), cb, w)
    /\ (0 < remaining)%Q
    /\ (remaining == CircuitBreaker.timeout_seconds (CircuitBreaker.config cb)
                     - (monotonic w - CircuitBreaker._opened_at cb))%Q.
Proof.
  intros S L. unfold CircuitBreaker.call, CircuitBreaker.state. rewrite S.
  destruct (Qle_bool _ _) eqn:E.
  - apply Qle_bool_iff in E. exfalso. apply (Qlt_not_le _ _ L E).
  - cbv beta iota zeta. rewrite ?S. eexists. split; [ reflexivity | ].
    assert (P : (0 < CircuitBreaker.timeout_seconds (CircuitBreaker.config cb)
                     - (monotonic w - CircuitBreaker._opened_at cb))%Q) by lra.
    split.
    + eapply Qlt_le_trans; [ exact P | apply Q.le_max_r ].
    + apply Q.max_r. apply Qlt_le_weak. exact P.
Qed.

Lemma open_breaker_refuses_without_running_witness :
  exists remaining : Q,
    CircuitBreaker.call (returning (A := nat) 7%nat) opened_breaker (world_at 40)
    = (Raises (CircuitOpenError remaining), opened_breaker, world_at 40)
    /\ (0 < remaining)%Q
    /\ (remaining == CircuitBreaker.timeout_seconds (CircuitBreaker.config opened_breaker)
                     - (monotonic (world_at 40) - CircuitBreaker._opened_at opened_breaker))%Q.
Proof.
  apply (open_breaker_refuses_without_running
           (returning (A := nat) 7%nat) opened_breaker (world_at 40)).
  - reflexivity.
  - vm_compute. reflexivity.
Defined.

(** X3.  A failure recorded on a [CLOSED] breaker: the failure count
    becomes the number of failures within the window (the new one
    included), every timestamp kept lies within the window, and the
    breaker opens, with [opened_at = now], exactly when that count
    reaches [failure_threshold]; otherwise it stays [CLOSED]. *)
Theorem closed_breaker_opens_at_threshold (now : Q) (cb : CircuitBreaker.t) :
  CircuitBreaker._state cb = CircuitBreaker.CLOSED ->
  let cb' := CircuitBreaker._record_failure now cb in
  let n := failures_in_window now cb in
  CircuitBreaker._failure_count cb' = n
  /\ Forall (fun ts => (now - CircuitBreaker.failure_window_seconds
                                (CircuitBreaker.config cb) <= ts)%Q)
            (CircuitBreaker._failure_timestamps cb')
  /\ ((CircuitBreaker.failure_threshold (CircuitBreaker.config cb) <= n)%Z ->
      CircuitBreaker._state cb' = CircuitBreaker.OPEN
      /\ CircuitBreaker._opened_at cb' = now)
  /\ ((n < CircuitBreaker.failure_threshold (CircuitBreaker.config cb))%Z ->
      CircuitBreaker._state cb' = CircuitBreaker.CLOSED
      /\ CircuitBreaker._opened_at cb' = CircuitBreaker._opened_at cb).
Proof.
  intros S. cbn zeta.
  unfold CircuitBreaker._record_failure, CircuitBreaker._prune_old_failures,
    CircuitBreaker.append_failure, failures_in_window.
  cbn [CircuitBreaker._state CircuitBreaker.config CircuitBreaker._failure_count
       CircuitBreaker._failure_timestamps].
  rewrite S.
  set (kept := List.filter _ _).
  assert (K : Forall (fun ts => (now - CircuitBreaker.failure_window_seconds
                                         (CircuitBreaker.config cb) <= ts)%Q) kept).
  { apply List.Forall_forall. intros ts I. subst kept.
    apply List.filter_In in I. destruct I as [_ I]. apply Qle_bool_iff. exact I. }
  destruct (Z.leb _ _) eqn:L.
  - apply Z.leb_le in L.
    unfold CircuitBreaker._transition_to, CircuitBreaker.set_opened_at. cbn.
    repeat split; try assumption; intros; lia.
  - apply Z.leb_gt in L. cbn.
    repeat split; try assumption; intros; lia.
Qed.

(** A breaker with two failures on record takes a third one. *)
Lemma closed_breaker_opens_at_threshold_witness :
  let cb := CircuitBreaker._record_failure 2
              (CircuitBreaker._record_failure 1
                 (CircuitBreaker.init CircuitBreaker.INTEL_API_CONFIG)) in
  let cb' := CircuitBreaker._record_failure 3 cb in
  let n := failures_in_window 3 cb in
  CircuitBreaker._failure_count cb' = n
  /\ Forall (fun ts => (3 - CircuitBreaker.failure_window_seconds
                              (CircuitBreaker.config cb) <= ts)%Q)
            (CircuitBreaker._failure_timestamps cb')
  /\ ((CircuitBreaker.failure_threshold (CircuitBreaker.config cb) <= n)%Z ->
      CircuitBreaker._state cb' = CircuitBreaker.OPEN
      /\ CircuitBreaker._opened_at cb' = 3%Q)
  /\ ((n < CircuitBreaker.failure_threshold (CircuitBreaker.config cb))%Z ->
      CircuitBreaker._state cb' = CircuitBreaker.CLOSED
      /\ CircuitBreaker._opened_at cb' = CircuitBreaker._opened_at cb).
Proof.
  cbn zeta.
  apply (closed_breaker_opens_at_threshold 3
           (CircuitBreaker._record_failure 2
              (CircuitBreaker._record_failure 1
                 (CircuitBreaker.init CircuitBreaker.INTEL_API_CONFIG)))).
  vm_compute. reflexivity.
Defined.

Lemma state_read_facts (now : Q) (cb : CircuitBreaker.t) :
  CircuitBreaker._state (snd (CircuitBreaker.state now cb))
  = fst (CircuitBreaker.state now cb)
  /\ CircuitBreaker.config (snd (CircuitBreaker.state now cb)) = CircuitBreaker.config cb.
Proof.
  unfold CircuitBreaker.state.
  destruct (CircuitBreaker._state cb) eqn:S; cbn; try (split; [ exact S | reflexivity ]).
  destruct (Qle_bool _ _); cbn; [ | split; [ exact S | reflexivity ] ].
  unfold CircuitBreaker._transition_to. rewrite S. cbn. split; reflexivity.
Qed.

(** X4.  When the breaker is (or, the timeout having elapsed, becomes)
    [HALF_OPEN] with its probe counter below [half_open_max_calls], a
    call whose function returns hands back the result and closes the
    breaker with the failure count, the timestamps and the probe counter
    cleared. *)
Theorem successful_probe_closes_the_breaker
        {W : Type} `{Runtime W} {A : Type}
        (fn : coro W A) (cb : CircuitBreaker.t) (w w' : W) (a : A) :
  fst (CircuitBreaker.state (monotonic w) cb) = CircuitBreaker.HALF_OPEN ->
  (CircuitBreaker._half_open_calls cb
   < CircuitBreaker.half_open_max_calls (CircuitBreaker.config cb))%Z ->
  fn w = (Returns a, w') ->
  exists cb',
    CircuitBreaker.call fn cb w = (Returns a, cb', w')
    /\ CircuitBreaker._state cb' = CircuitBreaker.CLOSED
    /\ CircuitBreaker._failure_count cb' = 0%Z
    /\ CircuitBreaker._failure_timestamps cb' = []
    /\ CircuitBreaker._half_open_calls cb' = 0%Z
    /\ CircuitBreaker.config cb' = CircuitBreaker.config cb.
Proof.
  intros S L F.
  pose proof (state_read_facts (monotonic w) cb) as [St Cf].
  pose proof (state_keeps_half_open_calls (monotonic w) cb) as Hc.
  unfold CircuitBreaker.call.
  destruct (CircuitBreaker.state (monotonic w) cb) as [s cb1].
  cbn [fst snd] in *. subst s. cbv beta iota zeta.
  unfold CircuitBreaker.incr_half_open_calls.
  cbn [CircuitBreaker.config CircuitBreaker._half_open_calls].
  rewrite Cf, Hc.
  destruct (Z.ltb _ _) eqn:E; [ apply Z.ltb_lt in E; lia | ].
  rewrite F. eexists. split; [ reflexivity | ].
  unfold CircuitBreaker._record_success.
  cbn [CircuitBreaker._state]. rewrite St.
  unfold CircuitBreaker._transition_to. cbn [CircuitBreaker._state]. rewrite ?St. cbn.
  repeat split; try exact Cf.
Qed.

Lemma successful_probe_closes_the_breaker_witness :
  exists cb',
    CircuitBreaker.call (returning (A := nat) 7%nat) opened_breaker probe_world
    = (Returns 7%nat, cb', probe_world)
    /\ CircuitBreaker._state cb' = CircuitBreaker.CLOSED
    /\ CircuitBreaker._failure_count cb' = 0%Z
    /\ CircuitBreaker._failure_timestamps cb' = []
    /\ CircuitBreaker._half_open_calls cb' = 0%Z
    /\ CircuitBreaker.config cb' = CircuitBreaker.config opened_breaker.
Proof.
  apply (successful_probe_closes_the_breaker
           (returning (A := nat) 7%nat) opened_breaker probe_world probe_world 7%nat).
  - vm_compute. reflexivity.
  - vm_compute. reflexivity.
  - reflexivity.
Defined.

(** X5.  An exception that is not an [Exception] (a cancellation) raised
    by the wrapped function of a [CLOSED] breaker goes through without
    being recorded as a failure: the breaker is unchanged. *)
Theorem cancellation_is_not_recorded_as_failure
        {W : Type} `{Runtime W} {A : Type}
        (fn : coro W A) (cb : CircuitBreaker.t) (w w' : W) (exc : exn) :
  CircuitBreaker._state cb = CircuitBreaker.CLOSED ->
  fn w = (Raises exc, w') ->
  isinstance_Exception exc = false ->
  CircuitBreaker.call fn cb w = (Raises exc, cb, w').
Proof.
  intros S F I. unfold CircuitBreaker.call, CircuitBreaker.state.
  rewrite S. cbv beta iota zeta. rewrite ?S, F, I. reflexivity.
Qed.

Lemma cancellation_is_not_recorded_as_failure_witness :
  CircuitBreaker.call (raising (A := nat) CancelledError)
                      (CircuitBreaker.init CircuitBreaker.INTEL_API_CONFIG) (world_at 5)
  = (Raises CancelledError,
     CircuitBreaker.init CircuitBreaker.INTEL_API_CONFIG, world_at 5).
Proof.
  apply (cancellation_is_not_recorded_as_failure
           (raising (A := nat) CancelledError)
           (CircuitBreaker.init CircuitBreaker.INTEL_API_CONFIG)
           (world_at 5) (world_at 5) CancelledError); reflexivity.
Defined.

(** *** The retry engine *)

(** X6.  With non-negative base delays and caps, the delay computed
    before jitter is never negative and never above the cap of the
    failure's class ([max_delay], or [rate_limit_max_delay] for a
    [RateLimitError]), except that a truthy [retry_after_seconds] larger
    than the capped backoff replaces it. *)
Theorem backoff_is_capped (p : Retry.params) (c : Retry.counters) (exc : exn) :
  (0 <= Retry.base_delay p)%Q -> (0 <= Retry.max_delay p)%Q ->
  (0 <= Retry.rate_limit_base_delay p)%Q -> (0 <= Retry.rate_limit_max_delay p)%Q ->
  (0 <= Retry.backoff p c exc)%Q
  /\ (isinstance_RateLimitError exc = false ->
      (Retry.backoff p c exc <= Retry.max_delay p)%Q)
  /\ (forall r, exc = RateLimitError r ->
                if truthy_float r
                then (Retry.backoff p c exc
                      == Qmax (Qmin (Retry.rate_limit_base_delay p
                                     * Retry.pow2 (Retry.rl_attempt c))
                                    (Retry.rate_limit_max_delay p))
                              (default 0 r))%Q
                else (Retry.backoff p c exc <= Retry.rate_limit_max_delay p)%Q).
Proof.
  intros Hb Hm Hrb Hrm.
  assert (N1 : (0 <= Qmin (Retry.base_delay p * Retry.pow2 (Retry.other_attempt c))
                          (Retry.max_delay p))%Q).
  { apply Qmin_nonneg; [ | assumption ].
    apply Qmult_le_0_compat; [ assumption | apply pow2_nonneg ]. }
  assert (N2 : (0 <= Qmin (Retry.rate_limit_base_delay p * Retry.pow2 (Retry.rl_attempt c))
                          (Retry.rate_limit_max_delay p))%Q).
  { apply Qmin_nonneg; [ | assumption ].
    apply Qmult_le_0_compat; [ assumption | apply pow2_nonneg ]. }
  unfold Retry.backoff.
  destruct exc; cbn [isinstance_RateLimitError Retry.retry_after_of];
    try (split; [ exact N1 | split; [ intros _; apply Q.le_min_r | intros r E; discriminate ] ]).
  destruct retry_after_seconds as [x|]; cbn [truthy_float].
  - destruct (Qeq_bool x 0) eqn:Z0; cbn [negb].
    + split; [ exact N2 | ]. split; [ discriminate | ].
      intros r E. injection E as <-. cbn [truthy_float]. rewrite Z0. cbn [negb].
      apply Q.le_min_r.
    + split; [ eapply Qle_trans; [ exact N2 | apply Q.le_max_l ] | ].
      split; [ discriminate | ].
      intros r E. injection E as <-. cbn [truthy_float default]. rewrite Z0. cbn [negb].
      reflexivity.
  - split; [ exact N2 | ]. split; [ discriminate | ].
    intros r E. injection E as <-. cbn [truthy_float]. apply Q.le_min_r.
Qed.

(** The parameters of the source clients, at the fourth rate-limit
    failure with [Retry-After: 5]. *)
Lemma backoff_is_capped_witness :
  let p := SourceClient.retry_params in
  let c := {| Retry.rl_attempt := 4; Retry.other_attempt := 0; Retry.total_attempt := 4 |} in
  let exc := RateLimitError (Some 5%Q) in
  (0 <= Retry.backoff p c exc)%Q
  /\ (isinstance_RateLimitError exc = false ->
      (Retry.backoff p c exc <= Retry.max_delay p)%Q)
  /\ (forall r, exc = RateLimitError r ->
                if truthy_float r
                then (Retry.backoff p c exc
                      == Qmax (Qmin (Retry.rate_limit_base_delay p
                                     * Retry.pow2 (Retry.rl_attempt c))
                                    (Retry.rate_limit_max_delay p))
                              (default 0 r))%Q
                else (Retry.backoff p c exc <= Retry.rate_limit_max_delay p)%Q).
Proof.
  cbn zeta.
  apply (backoff_is_capped SourceClient.retry_params
           {| Retry.rl_attempt := 4; Retry.other_attempt := 0; Retry.total_attempt := 4 |}
           (RateLimitError (Some 5%Q))); vm_compute; discriminate.
Defined.

Section AlwaysFailing.
Context {W : Type} `{Runtime W} {A : Type}.
Variable p : Retry.params.
Variable fn : coro W A.
Variable e : exn.
(** What stays true of the world, and two observations of it: how
    often [fn] was called and how often the loop slept. *)
Variable stable : W -> Prop.
Variables calls naps : W -> nat.

Hypothesis fn_fails :
  forall w, stable w ->
            exists w1, fn w = (Raises e, w1) /\ stable w1
                       /\ calls w1 = S (calls w) /\ naps w1 = naps w.
Hypothesis sleep_naps :
  forall d w, stable w ->
              stable (sleep d w) /\ calls (sleep d w) = calls w
              /\ naps (sleep d w) = S (naps w).
Hypothesis random_quiet :
  forall w, stable w ->
            stable (snd (random w)) /\ calls (snd (random w)) = calls w
            /\ naps (snd (random w)) = naps w.
Hypothesis e_retryable : Retry.retryable_exceptions p e = true.

Lemma draw_delay_quiet (d : Q) (w : W) :
  stable w ->
  stable (snd (Retry.draw_delay p d w))
  /\ calls (snd (Retry.draw_delay p d w)) = calls w
  /\ naps (snd (Retry.draw_delay p d w)) = naps w.
Proof.
  intros S. unfold Retry.draw_delay. destruct (Retry.jitter p).
  - pose proof (random_quiet w S) as R. destruct (random w) as [u w1]. exact R.
  - repeat split. exact S.
Qed.

Lemma loop_always_failing :
  forall (m fuel : nat) (c : Retry.counters) (caught : list exn) (w : W),
    stable w -> (m < fuel)%nat ->
    (consumed_by_class_of e c + Z.of_nat (S m) = budget_of p e)%Z ->
    exists c' w',
      Retry.loop p None fn fuel c caught w
      = Some (Raises e, c', caught ++ repeat e (S m), w')
      /\ Retry.total_attempt c' = (Retry.total_attempt c + Z.of_nat (S m))%Z
      /\ consumed_by_class_of e c' = budget_of p e
      /\ calls w' = (calls w + S m)%nat
      /\ naps w' = (naps w + m)%nat.
Proof.
  induction m as [|m IH]; intros fuel c caught w S Hfuel Hc;
    (destruct fuel as [|fuel]; [ lia | ]); cbn [Retry.loop];
    destruct (fn_fails w S) as (w1 & F & S1 & C1 & N1); rewrite F, e_retryable;
    pose proof (charge_touches_one_counter p (Retry.next_total c) e) as Ch;
    destruct (Retry.charge p (Retry.next_total c) e) as [[c1 effective_max] idx];
    destruct Ch as (-> & -> & T & Ch);
    assert (K : consumed_by_class_of e c1 = (consumed_by_class_of e c + 1)%Z)
      by (unfold consumed_by_class_of in *; cbn in Ch;
          destruct (isinstance_RateLimitError e); destruct Ch; assumption).
  - destruct (Z.leb _ _) eqn:L; [ | apply Z.leb_gt in L; lia ].
    exists c1, w1. cbn [repeat]. repeat split; try lia.
    + rewrite T. cbn. lia.
  - destruct (Z.leb _ _) eqn:L; [ apply Z.leb_le in L; lia | ].
    pose proof (draw_delay_quiet (Retry.backoff p c1 e) w1 S1) as (S2 & C2 & N2).
    destruct (Retry.draw_delay p (Retry.backoff p c1 e) w1) as [delay w2].
    cbn [snd] in *.
    destruct (sleep_naps delay w2 S2) as (S3 & C3 & N3).
    destruct (IH fuel c1 (caught ++ [e]) (sleep delay w2) S3) as (c' & w' & E & T' & K' & C' & N');
      [ lia | lia | ].
    exists c', w'. rewrite E, <- List.app_assoc. cbn [app repeat].
    repeat split; try lia.
    rewrite T', T. cbn. lia.
Qed.

Lemma always_failing_run (w : W) :
  stable w ->
  (1 <= budget_of p e)%Z ->
  exists c w',
    Retry.retry_with_backoff p None fn w = (Raises e, w')
    /\ Retry.run p None fn w
       = Some (Raises e, c, repeat e (Z.to_nat (budget_of p e)), w')
    /\ Retry.total_attempt c = budget_of p e
    /\ calls w' = (calls w + Z.to_nat (budget_of p e))%nat
    /\ naps w' = (naps w + Z.to_nat (budget_of p e) - 1)%nat.
Proof.
  intros Hw B.
  destruct (loop_always_failing (Z.to_nat (budget_of p e) - 1) (Retry.enough p)
                                Retry.start [] w Hw) as (c & w' & E & T & K & C & N).
  - unfold Retry.enough, budget_of in *. destruct (isinstance_RateLimitError e); lia.
  - unfold consumed_by_class_of, Retry.start.
    destruct (isinstance_RateLimitError e); cbn; lia.
  - replace (S (Z.to_nat (budget_of p e) - 1)) with (Z.to_nat (budget_of p e)) in * by lia.
    exists c, w'. unfold Retry.retry_with_backoff, Retry.run. rewrite E.
    repeat split; try lia.
    cbn in T. lia.
Qed.

End AlwaysFailing.

(** X7.  A function that fails every time with the same retryable
    error, whose class has a budget of at least 1 and at most 1025, is
    called exactly budget times: the run ends by re-raising that error
    after as many calls as the budget, with one sleep between
    consecutive calls.  (From the 1025th failure of a class on,
    [2 ** (n - 1)] no longer converts to a float and the delay cannot be
    computed; a budget of 1025 never asks for that delay.)
    [stable] is what stays true of the world; [calls] and [naps] are any
    two observations that a call of [fn], respectively a sleep, raises
    by one and nothing else changes. *)
Theorem failing_function_is_called_budget_times
        {W : Type} `{Runtime W} {A : Type}
        (p : Retry.params) (fn : coro W A) (e : exn)
        (stable : W -> Prop) (calls naps : W -> nat) (w : W) :
  (forall w, stable w ->
             exists w1, fn w = (Raises e, w1) /\ stable w1
                        /\ calls w1 = S (calls w) /\ naps w1 = naps w) ->
  (forall d w, stable w ->
               stable (sleep d w) /\ calls (sleep d w) = calls w
               /\ naps (sleep d w) = S (naps w)) ->
  (forall w, stable w ->
             stable (snd (random w)) /\ calls (snd (random w)) = calls w
             /\ naps (snd (random w)) = naps w) ->
  Retry.retryable_exceptions p e = true ->
  stable w ->
  (1 <= budget_of p e)%Z ->
  (budget_of p e <= 1025)%Z ->
  exists c w',
    Retry.retry_with_backoff p None fn w = (Raises e, w')
    /\ Retry.run p None fn w
       = Some (Raises e, c, repeat e (Z.to_nat (budget_of p e)), w')
    /\ Retry.total_attempt c = budget_of p e
    /\ calls w' = (calls w + Z.to_nat (budget_of p e))%nat
    /\ naps w' = (naps w + Z.to_nat (budget_of p e) - 1)%nat.
Proof.
  intros F Sl R Re St B _.
  exact (always_failing_run p fn e stable calls naps F Sl R Re w St B).
Qed.

Lemma posts_to_snoc (svc : service) (l : list service) :
  length (List.filter (service_eqb svc) (l ++ [svc]))
  = S (length (List.filter (service_eqb svc) l)).
Proof.
  rewrite List.filter_app, List.length_app. cbn [List.filter].
  destruct svc; cbn; lia.
Qed.

(** One request whose reply classifies as the error [e]. *)
Lemma do_request_raises {A} (svc : service) (parse : HttpResponse -> A)
      (e : exn) (b : service -> nat -> outcome HttpResponse) (w : World) :
  backend w = b ->
  (forall n, exists r, b svc n = Returns r /\ SourceClient.classify r = Raises e) ->
  exists w1,
    SourceClient._do_request svc parse w = (Raises e, w1)
    /\ backend w1 = b
    /\ posts_to svc w1 = S (posts_to svc w)
    /\ length (slept w1) = length (slept w).
Proof.
  intros B R. unfold SourceClient._do_request, post.
  destruct (R (posts_to svc w)) as (r & E & C). rewrite B, E, C.
  eexists. split; [ reflexivity | ]. cbn. unfold posts_to. cbn.
  repeat split. apply posts_to_snoc.
Qed.

(** X8.  A client request ([_execute_search] / [_execute_scrape])
    against a service whose every reply classifies as the same
    retryable error uses the whole budget of that error's class: it
    posts exactly 3 requests for an [APIError] and 5 for a
    [RateLimitError], sleeps between consecutive requests (2,
    respectively 4 times) and then raises the error. *)
Theorem client_request_uses_its_whole_budget
        {A : Type} (svc : service) (parse : HttpResponse -> A) (e : exn) (w : World) :
  (forall n, exists r, backend w svc n = Returns r
                       /\ SourceClient.classify r = Raises e) ->
  Retry.default_retryable e = true ->
  exists w',
    SourceClient._execute svc parse w = (Raises e, w')
    /\ posts_to svc w'
       = (posts_to svc w + if isinstance_RateLimitError e then 5 else 3)%nat
    /\ length (slept w')
       = (length (slept w) + if isinstance_RateLimitError e then 4 else 2)%nat.
Proof.
  intros R D.
  destruct (always_failing_run
              SourceClient.retry_params (SourceClient._do_request svc parse) e
              (fun w' => backend w' = backend w)
              (posts_to svc) (fun w' => length (slept w')))
    with (w := w) as (c & w' & E & _ & _ & C & N).
  - intros w0 B. destruct (do_request_raises svc parse e (backend w) w0 B R)
      as (w1 & E1 & B1 & P1 & S1).
    exists w1. repeat split; assumption.
  - intros d w0 B. cbn. unfold posts_to. cbn. rewrite List.length_app. cbn.
    repeat split; [ exact B | lia ].
  - intros w0 B. cbn. repeat split. exact B.
  - exact D.
  - reflexivity.
  - unfold budget_of. destruct (isinstance_RateLimitError e); cbn; lia.
  - exists w'. unfold SourceClient._execute. rewrite E.
    unfold budget_of in *. destruct (isinstance_RateLimitError e); cbn in *;
      repeat split; lia.
Qed.

Lemma client_request_uses_its_whole_budget_witness :
  exists w',
    SourceClient._execute exa ExaSource._parse_results
                          (fresh_world (rate_limited_backend 5) (1 # 2))
    = (Raises (RateLimitError (Some 5%Q)), w')
    /\ posts_to exa w'
       = (posts_to exa (fresh_world (rate_limited_backend 5) (1 # 2))
          + if isinstance_RateLimitError (RateLimitError (Some 5%Q)) then 5 else 3)%nat
    /\ length (slept w')
       = (length (slept (fresh_world (rate_limited_backend 5) (1 # 2)))
          + if isinstance_RateLimitError (RateLimitError (Some 5%Q)) then 4 else 2)%nat.
Proof.
  apply (client_request_uses_its_whole_budget
           exa ExaSource._parse_results (RateLimitError (Some 5%Q))
           (fresh_world (rate_limited_backend 5) (1 # 2))).
  - intros n. eexists. split; reflexivity.
  - reflexivity.
Defined.

(** The retry loop of a client against the 429 backend is an instance of
    X7: five calls, four sleeps. *)
Lemma failing_function_is_called_budget_times_witness :
  exists c w',
    Retry.retry_with_backoff SourceClient.retry_params None one_request
                             (fresh_world (rate_limited_backend 5) (1 # 2))
    = (Raises (RateLimitError (Some 5%Q)), w')
    /\ Retry.run SourceClient.retry_params None one_request
                 (fresh_world (rate_limited_backend 5) (1 # 2))
       = Some (Raises (RateLimitError (Some 5%Q)), c,
               repeat (RateLimitError (Some 5%Q))
                      (Z.to_nat (budget_of SourceClient.retry_params
                                           (RateLimitError (Some 5%Q)))), w')
    /\ Retry.total_attempt c
       = budget_of SourceClient.retry_params (RateLimitError (Some 5%Q))
    /\ posts_to exa w'
       = (posts_to exa (fresh_world (rate_limited_backend 5) (1 # 2))
          + Z.to_nat (budget_of SourceClient.retry_params (RateLimitError (Some 5%Q))))%nat
    /\ length (slept w')
       = (length (slept (fresh_world (rate_limited_backend 5) (1 # 2)))
          + Z.to_nat (budget_of SourceClient.retry_params (RateLimitError (Some 5%Q)))
          - 1)%nat.
Proof.
  apply (failing_function_is_called_budget_times
           SourceClient.retry_params one_request (RateLimitError (Some 5%Q))
           (fun w' => backend w' = rate_limited_backend 5)
           (posts_to exa) (fun w' => length (slept w'))
           (fresh_world (rate_limited_backend 5) (1 # 2))).
  - intros w0 B.
    destruct (do_request_raises exa ExaSource._parse_results (RateLimitError (Some 5%Q))
                                (rate_limited_backend 5) w0 B)
      as (w1 & E1 & B1 & P1 & S1).
    { intros n. eexists. split; reflexivity. }
    exists w1. repeat split; assumption.
  - intros d w0 B. cbn. unfold posts_to. cbn. rewrite List.length_app. cbn.
    repeat split; [ exact B | lia ].
  - intros w0 B. cbn. repeat split. exact B.
  - reflexivity.
  - reflexivity.
  - vm_compute. discriminate.
  - vm_compute. discriminate.
Defined.

Lemma loop_attempts_bounded {W} `{Runtime W} {A} (p : Retry.params)
      (on_retry : option (Z -> Q -> exn -> coro W unit)) (fn : coro W A) :
  forall (fuel : nat) (c : Retry.counters) (caught : list exn) (w : W),
    (Z.to_nat (Retry.max_attempts p - Retry.other_attempt c)
     + Z.to_nat (Retry.rate_limit_max_attempts p - Retry.rl_attempt c) < fuel)%nat ->
    (0 <= Retry.rl_attempt c)%Z -> (0 <= Retry.other_attempt c)%Z ->
    (Retry.rl_attempt c = 0 \/ Retry.rl_attempt c < Retry.rate_limit_max_attempts p)%Z ->
    (Retry.other_attempt c = 0 \/ Retry.other_attempt c < Retry.max_attempts p)%Z ->
    Retry.total_attempt c = (Retry.rl_attempt c + Retry.other_attempt c)%Z ->
    exists o c' caught' w',
      Retry.loop p on_retry fn fuel c caught w = Some (o, c', caught', w')
      /\ (1 <= Retry.total_attempt c')%Z
      /\ (Retry.total_attempt c'
          <= Z.max 0 (Retry.rate_limit_max_attempts p - 1)
             + Z.max 0 (Retry.max_attempts p - 1) + 1)%Z.
Proof.
  induction fuel as [|fuel IH]; intros c caught w Hfuel Nrl Not Brl Bot Tot; [ lia | ].
  cbn [Retry.loop].
  destruct (fn w) as [[result|exc] w1].
  - do 4 eexists. split; [ reflexivity | ]. cbn. lia.
  - destruct (Retry.retryable_exceptions p exc).
    + pose proof (charge_touches_one_counter p (Retry.next_total c) exc) as Hc.
      destruct (Retry.charge p (Retry.next_total c) exc) as [[c1 effective_max] idx].
      destruct Hc as (-> & -> & T & Hc). cbn in T, Hc.
      destruct (Z.leb (budget_of p exc) (consumed_by_class_of exc c1)) eqn:L.
      * do 4 eexists. split; [ reflexivity | ]. lia.
      * apply Z.leb_gt in L. unfold budget_of, consumed_by_class_of in L.
        destruct (Retry.draw_delay p (Retry.backoff p c1 exc) w1) as [delay w2].
        assert (Hn : (Z.to_nat (Retry.max_attempts p - Retry.other_attempt c1)
                      + Z.to_nat (Retry.rate_limit_max_attempts p - Retry.rl_attempt c1)
                      < fuel)%nat
                     /\ (0 <= Retry.rl_attempt c1)%Z /\ (0 <= Retry.other_attempt c1)%Z
                     /\ (Retry.rl_attempt c1 = 0
                         \/ Retry.rl_attempt c1 < Retry.rate_limit_max_attempts p)%Z
                     /\ (Retry.other_attempt c1 = 0
                         \/ Retry.other_attempt c1 < Retry.max_attempts p)%Z
                     /\ Retry.total_attempt c1
                        = (Retry.rl_attempt c1 + Retry.other_attempt c1)%Z)
          by (destruct (isinstance_RateLimitError exc); destruct Hc; lia).
        destruct Hn as (F1 & N1 & N2 & B1 & B2 & T1).
        destruct on_retry as [callback|].
        -- destruct (callback (Retry.total_attempt c1) delay exc w2) as [[u|e'] w3].
           ++ exact (IH c1 (caught ++ [exc]) (sleep delay w3) F1 N1 N2 B1 B2 T1).
           ++ do 4 eexists. split; [ reflexivity | ]. lia.
        -- exact (IH c1 (caught ++ [exc]) (sleep delay w2) F1 N1 N2 B1 B2 T1).
    + do 4 eexists. split; [ reflexivity | ]. cbn. lia.
Qed.

(** Counting the calls changes nothing else, and the count moves with
    [total_attempt]. *)
Lemma loop_counts_the_calls {W} `{Runtime W} {A} (p : Retry.params)
      (on_retry : option (Z -> Q -> exn -> coro W unit)) (fn : coro W A) :
  forall (fuel : nat) (c : Retry.counters) (caught : list exn) (n : nat) (w : W),
    Retry.loop p (uncounted_callback on_retry) (counting fn) fuel c caught (n, w)
    = option_map
        (fun r : outcome A * Retry.counters * list exn * W =>
           let '(o, c', caught', w') := r in
           (o, c', caught',
            (Z.to_nat (Z.of_nat n + Retry.total_attempt c' - Retry.total_attempt c), w')))
        (Retry.loop p on_retry fn fuel c caught w).
Proof.
  assert (Step : forall (n : nat) (t : Z), S n = Z.to_nat (Z.of_nat n + (t + 1) - t))
    by (intros; lia).
  induction fuel as [|fuel IH]; intros c caught n w; cbn [Retry.loop]; [ reflexivity | ].
  unfold counting. cbn [fst snd].
  destruct (fn w) as [[result|exc] w1].
  - cbn [option_map Retry.next_total Retry.total_attempt]. rewrite <- Step. reflexivity.
  - destruct (Retry.retryable_exceptions p exc);
      [ | cbn [option_map Retry.next_total Retry.total_attempt];
          rewrite <- Step; reflexivity ].
    pose proof (charge_touches_one_counter p (Retry.next_total c) exc) as Hc.
    destruct (Retry.charge p (Retry.next_total c) exc) as [[c1 effective_max] idx].
    destruct Hc as (-> & -> & T & _). cbn in T.
    assert (Again : forall w0 : W,
               Retry.loop p (uncounted_callback on_retry) (counting fn) fuel c1
                          (caught ++ [exc]) (S n, w0)
               = option_map
                   (fun r : outcome A * Retry.counters * list exn * W =>
                      let '(o, c', caught', w') := r in
                      (o, c', caught',
                       (Z.to_nat (Z.of_nat n + Retry.total_attempt c'
                                  - Retry.total_attempt c), w')))
                   (Retry.loop p on_retry fn fuel c1 (caught ++ [exc]) w0)).
    { intros w0. rewrite IH.
      destruct (Retry.loop p on_retry fn fuel c1 (caught ++ [exc]) w0)
        as [[[[o c'] caught'] w']|]; [ | reflexivity ].
      cbn [option_map].
      assert (E : Z.to_nat (Z.of_nat (S n) + Retry.total_attempt c'
                            - Retry.total_attempt c1)
                  = Z.to_nat (Z.of_nat n + Retry.total_attempt c'
                              - Retry.total_attempt c))
        by lia.
      rewrite E. reflexivity. }
    assert (Stop : S n = Z.to_nat (Z.of_nat n + Retry.total_attempt c1
                                   - Retry.total_attempt c))
      by lia.
    destruct (Z.leb _ _); [ cbn [option_map]; rewrite <- Stop; reflexivity | ].
    unfold Retry.draw_delay. destruct (Retry.jitter p).
    + cbn [random counted_runtime fst snd].
      destruct (random w1) as [u w2].
      destruct on_retry as [callback|]; cbn [uncounted_callback option_map].
      * unfold uncounted. cbn [fst snd].
        destruct (callback _ _ _ w2) as [[[]|e'] w3].
        -- cbn [sleep counted_runtime fst snd]. apply (Again _).
        -- cbn [option_map]. rewrite <- Stop. reflexivity.
      * cbn [sleep counted_runtime fst snd]. apply (Again _).
    + destruct on_retry as [callback|]; cbn [uncounted_callback option_map].
      * unfold uncounted. cbn [fst snd].
        destruct (callback _ _ _ w1) as [[[]|e'] w3].
        -- cbn [sleep counted_runtime fst snd]. apply (Again _).
        -- cbn [option_map]. rewrite <- Stop. reflexivity.
      * cbn [sleep counted_runtime fst snd]. apply (Again _).
Qed.

(** X9.  Whatever the function does, [retry_with_backoff] calls it at
    least once and at most
    [max(0, rate_limit_max_attempts - 1) + max(0, max_attempts - 1) + 1]
    times: at most 7 times with the default budgets 3 and 5.  The calls
    are counted in the world: [counting fn] is [fn] with a counter that
    each call raises by one and nothing else touches, and the run with
    the counter ends as the run without it. *)
Theorem retry_never_exceeds_the_two_budgets
        {W : Type} `{Runtime W} {A : Type} (p : Retry.params)
        (on_retry : option (Z -> Q -> exn -> coro W unit)) (fn : coro W A) (w : W) :
  (Z.max 0 (Retry.rate_limit_max_attempts Retry.defaults - 1)
   + Z.max 0 (Retry.max_attempts Retry.defaults - 1) + 1 = 7)%Z
  /\ exists (o : outcome A) (calls : nat) (w' : W),
      Retry.retry_with_backoff p (uncounted_callback on_retry) (counting fn) (0%nat, w)
      = (o, (calls, w'))
      /\ Retry.retry_with_backoff p on_retry fn w = (o, w')
      /\ (1 <= calls)%nat
      /\ (Z.of_nat calls
          <= Z.max 0 (Retry.rate_limit_max_attempts p - 1)
             + Z.max 0 (Retry.max_attempts p - 1) + 1)%Z.
Proof.
  split; [ reflexivity | ].
  destruct (loop_attempts_bounded p on_retry fn (Retry.enough p) Retry.start [] w)
    as (o & c & caught & w' & Run & Lo & Hi);
    [ unfold Retry.enough, Retry.start; cbn; lia | cbn; lia | cbn; lia
    | cbn; lia | cbn; lia | reflexivity | ].
  pose proof (loop_counts_the_calls p on_retry fn (Retry.enough p) Retry.start [] 0%nat w)
    as Count.
  rewrite Run in Count. cbn [option_map] in Count.
  exists o, (Z.to_nat (Retry.total_attempt c)), w'.
  unfold Retry.retry_with_backoff, Retry.run. rewrite Run, Count.
  cbn [Retry.start Retry.total_attempt].
  replace (Z.to_nat (Z.of_nat 0 + Retry.total_attempt c - 0))
    with (Z.to_nat (Retry.total_attempt c)) by lia.
  repeat split; lia.
Qed.

(** *** The source clients *)

(** X10.  A client's rate-limit mark moves only on a [RateLimitError]:
    when [search] / [scrape] returns, or raises anything else, the
    client's [rate_limited_until] is what it was. *)
Theorem only_a_rate_limit_error_marks_the_client
        {A : Type} (call : SourceClient.breaker_call A) (svc : service)
        (request : coro World A) (on_success : Q -> A -> A)
        (src src' : SourceClient.t) (w w' : World) (o : outcome A) :
  SourceClient.guarded_with call svc request on_success src w = (o, src', w') ->
  (forall r, o <> Raises (RateLimitError r)) ->
  SourceClient._rate_limited_until src' = SourceClient._rate_limited_until src.
Proof.
  unfold SourceClient.guarded_with. intros G N.
  destruct (call _ _ _ _ _) as [[[res|exc] cb] w1].
  - injection G as _ <- _. reflexivity.
  - destruct (isinstance_Exception exc).
    + injection G as <- <- _.
      destruct exc; cbn; try reflexivity. exfalso. exact (N _ eq_refl).
    + injection G as _ <- _. reflexivity.
Qed.

(** The real clients are an instance: their searches raise [TypeError]. *)
Lemma only_a_rate_limit_error_marks_the_client_witness :
  SourceClient._rate_limited_until
    (snd (fst (ExaSource.search SourceClient.init (world_at 5))))
  = SourceClient._rate_limited_until SourceClient.init.
Proof.
  apply (only_a_rate_limit_error_marks_the_client
           (@CircuitBreaker.call_expr World _ _) exa ExaSource._execute_search
           (fun _ r => r) SourceClient.init
           (snd (fst (ExaSource.search SourceClient.init (world_at 5))))
           (world_at 5)
           (snd (ExaSource.search SourceClient.init (world_at 5)))
           (fst (fst (ExaSource.search SourceClient.init (world_at 5))))).
  - vm_compute. reflexivity.
  - intros r. vm_compute. discriminate.
Defined.

(** *** The merge step *)

Lemma dict_get_None_keys {V} k (d : list (string * V)) :
  dict_get k d = None <-> ~ In k (map fst d).
Proof.
  induction d as [|[k' v'] d IH]; cbn.
  - tauto.
  - destruct (String.eqb k k') eqn:E.
    + apply String.eqb_eq in E. subst. split; [ discriminate | tauto ].
    + apply String.eqb_neq in E. rewrite IH. split.
      * intros N [C|C]; [ congruence | tauto ].
      * tauto.
Qed.

Lemma dict_set_keys {V} k (v : V) (d : list (string * V)) :
  map fst (dict_set k v d)
  = match dict_get k d with
    | Some _ => map fst d
    | None => map fst d ++ [k]
    end.
Proof.
  induction d as [|[k' v'] d IH]; cbn.
  - reflexivity.
  - destruct (String.eqb k k') eqn:E; cbn.
    + apply String.eqb_eq in E. subst. reflexivity.
    + rewrite IH. destruct (dict_get k d); reflexivity.
Qed.

Lemma dict_set_keyed k v (d : list (string * IntelSource.t)) :
  truthy_url (IntelSource.url v) = Some k ->
  keyed_by_url d -> keyed_by_url (dict_set k v d).
Proof.
  unfold keyed_by_url. intros U. induction d as [|[k' v'] d IH]; cbn; intros F.
  - repeat constructor. exact U.
  - inversion F; subst. destruct (String.eqb k k'); constructor; auto.
Qed.

Lemma present_urls_keyed (d : list (string * IntelSource.t)) :
  keyed_by_url d -> present_urls (dict_values d) = map fst d.
Proof.
  unfold keyed_by_url, dict_values, present_urls.
  induction 1 as [|[k v] d U F IH]; cbn in *; [ reflexivity | ].
  rewrite U, IH. reflexivity.
Qed.

Lemma present_urls_url_less (l : list IntelSource.t) :
  Forall (fun s => has_url s = false) l -> present_urls l = [].
Proof.
  unfold present_urls, has_url. induction 1 as [|s l U F IH]; cbn; [ reflexivity | ].
  destruct (truthy_url (IntelSource.url s)); [ discriminate | exact IH ].
Qed.

Lemma present_urls_app l1 l2 :
  present_urls (l1 ++ l2) = present_urls l1 ++ present_urls l2.
Proof. unfold present_urls. apply List.flat_map_app. Qed.

Lemma insert_desc_perm x l : Permutation (IntelOrchestrator.insert_desc x l) (x :: l).
Proof.
  induction l as [|y l IH]; cbn; [ reflexivity | ].
  destruct (Qltb _ _); [ | reflexivity ].
  rewrite IH. apply perm_swap.
Qed.

Lemma sort_desc_perm l : Permutation (IntelOrchestrator.sort_desc l) l.
Proof.
  induction l as [|x l IH]; cbn; [ reflexivity | ].
  fold (IntelOrchestrator.sort_desc l). rewrite insert_desc_perm, IH. reflexivity.
Qed.

(** What the merge loop keeps true of [seen_urls] and [no_url_sources]. *)
Lemma dedup_fold_keys (sources : list IntelSource.t) :
  forall seen no_url,
    keyed_by_url seen -> NoDup (map fst seen) ->
    Forall (fun s => has_url s = false) no_url ->
    let final := fold_left IntelOrchestrator.dedup_step sources (seen, no_url) in
    keyed_by_url (fst final) /\ NoDup (map fst (fst final))
    /\ Forall (fun s => has_url s = false) (snd final).
Proof.
  induction sources as [|s sources IH]; intros seen no_url K N U; cbn [fold_left]; cbn zeta.
  - repeat split; assumption.
  - unfold IntelOrchestrator.dedup_step at 2 4 6.
    destruct (truthy_url (IntelSource.url s)) as [u|] eqn:Us.
    + assert (K' : keyed_by_url (dict_set u s seen)) by (apply dict_set_keyed; assumption).
      assert (N' : NoDup (map fst (dict_set u s seen))).
      { rewrite dict_set_keys. destruct (dict_get u seen) eqn:G; [ exact N | ].
        apply NoDup_app. split; [ exact N | ]. split.
        - intros x Ix Iu. apply list_elem_of_In in Ix.
          apply list_elem_of_singleton in Iu. subst x.
          apply dict_get_None_keys in G. contradiction.
        - apply NoDup_singleton. }
      destruct (dict_get u seen) as [existing|].
      * destruct (Qltb _ _); apply IH; assumption.
      * apply IH; assumption.
    + apply IH; try assumption.
      apply List.Forall_app. split; [ assumption | ].
      repeat constructor. unfold has_url. rewrite Us. reflexivity.
Qed.

(** X11.  In the list the merge step returns, every URL occurs at most
    once. *)
Theorem merged_urls_are_unique (sources : list IntelSource.t) :
  NoDup (present_urls (IntelOrchestrator._deduplicate_sources sources)).
Proof.
  rewrite deduplicate_sources_unfold. cbn zeta.
  destruct (dedup_fold_keys sources [] []) as (K & N & U);
    [ constructor | constructor | constructor | ].
  cbn zeta in *.
  set (final := fold_left IntelOrchestrator.dedup_step sources ([], [])) in *.
  assert (P : Permutation
                (present_urls (IntelOrchestrator.sort_desc
                                 (dict_values (fst final) ++ snd final)))
                (present_urls (dict_values (fst final) ++ snd final))).
  { unfold present_urls. apply Permutation_flat_map. apply sort_desc_perm. }
  rewrite P.
  rewrite present_urls_app, (present_urls_keyed _ K), (present_urls_url_less _ U).
  rewrite List.app_nil_r. exact N.
Qed.

Lemma dict_set_values_In {V} k (v s : V) (d : list (string * V)) :
  In s (dict_values (dict_set k v d)) -> s = v \/ In s (dict_values d).
Proof.
  unfold dict_values. induction d as [|[k' v'] d IH]; cbn.
  - intros [E|[]]. left. congruence.
  - destruct (String.eqb k k'); cbn; intros [E|I]; auto.
    destruct (IH I); auto.
Qed.

Lemma dict_get_In {V} k (v : V) (d : list (string * V)) :
  dict_get k d = Some v -> In (k, v) d.
Proof.
  induction d as [|[k' v'] d IH]; cbn; [ discriminate | ].
  destruct (String.eqb k k') eqn:E.
  - apply String.eqb_eq in E. subst. intros G. injection G as <-. left. reflexivity.
  - intros G. right. exact (IH G).
Qed.

Lemma dedup_step_members seen no_url (t s : IntelSource.t) :
  In s (dict_values (fst (IntelOrchestrator.dedup_step (seen, no_url) t))
        ++ snd (IntelOrchestrator.dedup_step (seen, no_url) t)) ->
  In s (dict_values seen ++ no_url) \/ s = t.
Proof.
  unfold IntelOrchestrator.dedup_step.
  destruct (truthy_url (IntelSource.url t)) as [u|].
  - assert (D : In s (dict_values (dict_set u t seen) ++ no_url) ->
                In s (dict_values seen ++ no_url) \/ s = t).
    { intros J. apply List.in_app_or in J. destruct J as [J|J].
      - apply dict_set_values_In in J. destruct J as [->|J].
        + right. reflexivity.
        + left. apply List.in_or_app. left. exact J.
      - left. apply List.in_or_app. right. exact J. }
    destruct (dict_get u seen) as [existing|]; [ destruct (Qltb _ _) | ]; cbn [fst snd]; auto.
  - cbn [fst snd]. rewrite List.app_assoc. intros I.
    apply List.in_app_or in I. destruct I as [I|[<-|[]]]; auto.
Qed.

Lemma dedup_fold_members (sources : list IntelSource.t) :
  forall seen no_url s,
    let final := fold_left IntelOrchestrator.dedup_step sources (seen, no_url) in
    In s (dict_values (fst final) ++ snd final) ->
    In s (dict_values seen ++ no_url) \/ In s sources.
Proof.
  induction sources as [|t sources IH]; intros seen no_url s; cbn [fold_left]; cbn zeta.
  - intros I. left. exact I.
  - pose proof (dedup_step_members seen no_url t s) as M.
    destruct (IntelOrchestrator.dedup_step (seen, no_url) t) as [seen1 no_url1].
    intros I. apply (IH seen1 no_url1 s) in I. destruct I as [I|I].
    + destruct (M I) as [J|E]; [ left; exact J | right; left; symmetry; exact E ].
    + right. right. exact I.
Qed.

(** [s] is matched in the dictionary by a source of its URL that scores
    at least as high. *)
Lemma dedup_step_dominates seen no_url (t s : IntelSource.t) u :
  truthy_url (IntelSource.url s) = Some u ->
  (s = t \/ exists s', dict_get u seen = Some s'
                       /\ (IntelSource.relevance_score s <= IntelSource.relevance_score s')%Q) ->
  exists s', dict_get u (fst (IntelOrchestrator.dedup_step (seen, no_url) t)) = Some s'
             /\ (IntelSource.relevance_score s <= IntelSource.relevance_score s')%Q.
Proof.
  intros U D. unfold IntelOrchestrator.dedup_step.
  destruct (truthy_url (IntelSource.url t)) as [ut|] eqn:Ut.
  - destruct D as [->|(s' & G & L)].
    + rewrite U in Ut. injection Ut as <-.
      destruct (dict_get u seen) as [existing|] eqn:G.
      * destruct (Qltb _ _) eqn:Lt; cbn [fst].
        -- rewrite dict_get_set, String.eqb_refl. eexists. split; [ reflexivity | apply Qle_refl ].
        -- exists existing. split; [ exact G | apply Qltb_false_le; exact Lt ].
      * cbn [fst]. rewrite dict_get_set, String.eqb_refl.
        eexists. split; [ reflexivity | apply Qle_refl ].
    + destruct (String.eqb u ut) eqn:E.
      * apply String.eqb_eq in E. subst ut. rewrite G.
        destruct (Qltb _ _) eqn:Lt; cbn [fst].
        -- rewrite dict_get_set, String.eqb_refl. eexists. split; [ reflexivity | ].
           apply Qltb_lt in Lt. eapply Qle_trans; [ exact L | apply Qlt_le_weak; exact Lt ].
        -- exists s'. split; assumption.
      * assert (K : dict_get u (dict_set ut t seen) = Some s')
          by (rewrite dict_get_set, E; exact G).
        destruct (dict_get ut seen) as [existing|]; [ destruct (Qltb _ _) | ]; cbn [fst];
          exists s'; split; assumption.
  - destruct D as [->|(s' & G & L)]; [ congruence | ].
    cbn [fst]. exists s'. split; assumption.
Qed.

Lemma dedup_fold_dominates (sources : list IntelSource.t) :
  forall seen no_url s u,
    truthy_url (IntelSource.url s) = Some u ->
    (In s sources
     \/ exists s', dict_get u seen = Some s'
                   /\ (IntelSource.relevance_score s <= IntelSource.relevance_score s')%Q) ->
    let final := fold_left IntelOrchestrator.dedup_step sources (seen, no_url) in
    exists s', dict_get u (fst final) = Some s'
               /\ (IntelSource.relevance_score s <= IntelSource.relevance_score s')%Q.
Proof.
  induction sources as [|t sources IH]; intros seen no_url s u U D; cbn [fold_left]; cbn zeta.
  - destruct D as [[]|D]. exact D.
  - destruct (IntelOrchestrator.dedup_step (seen, no_url) t) as [seen1 no_url1] eqn:St.
    destruct D as [[<-|I]|D].
    + apply (IH seen1 no_url1 t u U). right.
      pose proof (dedup_step_dominates seen no_url t t u U (or_introl eq_refl)) as P.
      rewrite St in P. exact P.
    + apply (IH seen1 no_url1 s u U). left. exact I.
    + apply (IH seen1 no_url1 s u U). right.
      pose proof (dedup_step_dominates seen no_url t s u U (or_intror D)) as P.
      rewrite St in P. exact P.
Qed.

Lemma dedup_fold_keeps_url_less (sources : list IntelSource.t) :
  forall seen no_url s,
    has_url s = false ->
    In s no_url \/ In s sources ->
    In s (snd (fold_left IntelOrchestrator.dedup_step sources (seen, no_url))).
Proof.
  induction sources as [|t sources IH]; intros seen no_url s U D; cbn [fold_left].
  - destruct D as [D|[]]. exact D.
  - destruct (IntelOrchestrator.dedup_step (seen, no_url) t) as [seen1 no_url1] eqn:St.
    apply IH; [ exact U | ].
    unfold IntelOrchestrator.dedup_step in St.
    destruct D as [D|[<-|D]]; [ | | right; exact D ].
    + left. destruct (truthy_url (IntelSource.url t));
        [ destruct (dict_get _ seen); [ destruct (Qltb _ _) | ] | ];
        injection St as _ <-; try exact D.
      apply List.in_or_app. left. exact D.
    + left. unfold has_url in U.
      destruct (truthy_url (IntelSource.url t)); [ discriminate | ].
      injection St as _ <-. apply List.in_or_app. right. left. reflexivity.
Qed.

(** X12.  The merge step invents nothing and keeps the best source of
    each URL: every source it returns is one of the inputs; for every
    input source with a URL it returns a source of that URL whose score
    is at least as high; every URL-less input source is returned. *)
Theorem merge_keeps_the_best_source_of_each_url (sources : list IntelSource.t) :
  let merged := IntelOrchestrator._deduplicate_sources sources in
  (forall s, In s merged -> In s sources)
  /\ (forall s u, In s sources -> truthy_url (IntelSource.url s) = Some u ->
                  exists s', In s' merged
                             /\ truthy_url (IntelSource.url s') = Some u
                             /\ (IntelSource.relevance_score s
                                 <= IntelSource.relevance_score s')%Q)
  /\ (forall s, In s sources -> has_url s = false -> In s merged).
Proof.
  cbn zeta. rewrite deduplicate_sources_unfold. cbn zeta.
  set (final := fold_left IntelOrchestrator.dedup_step sources ([], [])).
  assert (P : forall s, In s (IntelOrchestrator.sort_desc
                                (dict_values (fst final) ++ snd final))
                        <-> In s (dict_values (fst final) ++ snd final)).
  { intros s. split; apply Permutation_in;
      [ apply sort_desc_perm | symmetry; apply sort_desc_perm ]. }
  split; [ | split ].
  - intros s I. apply P in I.
    destruct (dedup_fold_members sources [] [] s I) as [[]|J]. exact J.
  - intros s u I U.
    destruct (dedup_fold_dominates sources [] [] s u U (or_introl I)) as (s' & G & L).
    fold final in G.
    destruct (dedup_fold_keys sources [] []) as (K & _ & _);
      [ constructor | constructor | constructor | ].
    cbn zeta in K. fold final in K.
    apply dict_get_In in G.
    exists s'. split; [ | split; [ | exact L ] ].
    + apply P. apply List.in_or_app. left. unfold dict_values.
      apply (List.in_map snd) in G. exact G.
    + unfold keyed_by_url in K. rewrite List.Forall_forall in K. exact (K _ G).
  - intros s I U. apply P. apply List.in_or_app. right.
    apply dedup_fold_keeps_url_less; [ exact U | right; exact I ].
Qed.

(** *** The orchestrator *)

(** X13.  [_extract_scrape_urls] returns at most [max_urls] URLs; each
    is the non-empty URL of one of the hits, and none contains, once
    lowercased, one of the skip patterns ([twitter.com], [x.com],
    [reddit.com], [facebook.com], [youtube.com], [google.com]). *)
Theorem scrape_urls_are_few_and_filtered
        (results : list SearchResult.t) (max_urls : nat) :
  let urls := IntelOrchestrator._extract_scrape_urls results max_urls in
  (length urls <= max_urls)%nat
  /\ Forall (fun u =>
               (exists r, In r results /\ truthy_url (SearchResult.url r) = Some u)
               /\ forall pat, In pat IntelOrchestrator.skip_patterns ->
                              contains pat (lower u) = false)
            urls.
Proof.
  cbn zeta. unfold IntelOrchestrator._extract_scrape_urls.
  set (good := fun (seen : list SearchResult.t) (u : string) =>
                 (exists r, In r seen /\ truthy_url (SearchResult.url r) = Some u)
                 /\ forall pat, In pat IntelOrchestrator.skip_patterns ->
                                contains pat (lower u) = false).
  assert (G : forall (todo done : list SearchResult.t) (urls : list string),
             (length urls <= max_urls)%nat -> Forall (good (done ++ todo)) urls ->
             let out := fold_left
                          (fun urls r =>
                             match truthy_url (SearchResult.url r) with
                             | Some u =>
                                 if Nat.ltb (length urls) max_urls then
                                   if negb (existsb (fun p => contains p (lower u))
                                                    IntelOrchestrator.skip_patterns)
                                   then urls ++ [u] else urls
                                 else urls
                             | None => urls
                             end) todo urls in
             (length out <= max_urls)%nat /\ Forall (good (done ++ todo)) out).
  { induction todo as [|r todo IH]; intros done urls L F; cbn [fold_left]; cbn zeta.
    - split; assumption.
    - replace (done ++ r :: todo) with ((done ++ [r]) ++ todo) in *
        by (rewrite <- List.app_assoc; reflexivity).
      apply IH.
      + destruct (truthy_url (SearchResult.url r)); [ | exact L ].
        destruct (Nat.ltb (length urls) max_urls) eqn:Lt; [ | exact L ].
        destruct (negb _); [ | exact L ].
        apply Nat.ltb_lt in Lt. rewrite List.length_app. cbn. lia.
      + destruct (truthy_url (SearchResult.url r)) as [u|] eqn:U; [ | exact F ].
        destruct (Nat.ltb (length urls) max_urls); [ | exact F ].
        destruct (existsb _ _) eqn:Ex; cbn [negb]; [ exact F | ].
        apply List.Forall_app. split; [ exact F | ].
        repeat constructor.
        * exists r. split; [ | exact U ].
          apply List.in_or_app. left. apply List.in_or_app. right. left. reflexivity.
        * intros pat I. destruct (contains pat (lower u)) eqn:C; [ | reflexivity ].
          assert (existsb (fun p => contains p (lower u)) IntelOrchestrator.skip_patterns
                  = true) by (apply List.existsb_exists; exists pat; split; assumption).
          congruence. }
  apply (G results [] []); [ cbn; lia | constructor ].
Qed.


Lemma make_all_raises (l : list IntelSource.t) (e : exn) :
  IntelOrchestrator.make_all l = Raises e ->
  e = ValueError "validation error for IntelSource".
Proof.
  induction l as [|s l IH]; cbn; [ discriminate | ].
  unfold IntelSource.make. destruct (IntelSource.valid s).
  - destruct (IntelOrchestrator.make_all l) as [l'|e']; [ discriminate | ].
    intros Hr. injection Hr as <-. apply IH. reflexivity.
  - intros Hr. injection Hr as <-. reflexivity.
Qed.

Lemma standard_cost_nonneg (exa_results tavily_results : list SearchResult.t) :
  (0 <= match tavily_results with
        | [] => Float64.mul (Float64.of_int (IntelOrchestrator.len exa_results))
                            IntelOrchestrator.EXA_COST_PER_RESULT
        | _ => Float64.add
                 (Float64.mul (Float64.of_int (IntelOrchestrator.len exa_results))
                              IntelOrchestrator.EXA_COST_PER_RESULT)
                 IntelOrchestrator.TAVILY_COST_PER_SEARCH
        end)%Q.
Proof.
  destruct cost_constants as ([C0 _] & [T0 _] & _).
  assert (M : (0 <= Float64.mul (Float64.of_int (IntelOrchestrator.len exa_results))
                                IntelOrchestrator.EXA_COST_PER_RESULT)%Q).
  { unfold Float64.mul, Float64.of_int. apply round_nonneg.
    apply Qmult_le_0_compat; [ | exact C0 ]. apply round_nonneg.
    apply inject_nat_nonneg. }
  destruct tavily_results; [ exact M | ].
  unfold Float64.add. apply round_nonneg. lra.
Qed.

Lemma result_of_nonneg_returns query sources depth cost :
  (0 <= cost)%Q ->
  exists r, IntelOrchestrator.result_of query sources depth cost = Returns r
            /\ IntelResult.sources r = sources
            /\ IntelResult.depth_used r = depth
            /\ IntelResult.total_cost_usd r = cost
            /\ IntelResult.cached r = false.
Proof.
  intros C. unfold IntelOrchestrator.result_of, IntelResult.make.
  cbn [IntelResult.total_cost_usd IntelResult.latency_ms].
  apply Qle_bool_iff in C. rewrite C. cbn.
  eexists. split; [ reflexivity | repeat split ].
Qed.

Lemma standard_result_outcome query exa_results tavily_results :
  match IntelOrchestrator.standard_result query exa_results tavily_results with
  | Returns r =>
      IntelResult.depth_used r = STANDARD /\ IntelResult.cached r = false
  | Raises e => e = ValueError "validation error for IntelSource"
  end.
Proof.
  unfold IntelOrchestrator.standard_result.
  destruct (IntelOrchestrator._convert_search_results exa_results "exa") as [l1|e1] eqn:C1;
    [ | apply make_all_raises in C1; exact C1 ].
  destruct (IntelOrchestrator._convert_search_results tavily_results "tavily") as [l2|e2] eqn:C2;
    [ | apply make_all_raises in C2; exact C2 ].
  cbv zeta.
  destruct (result_of_nonneg_returns query
              (IntelOrchestrator._deduplicate_sources (l1 ++ l2)) STANDARD _
              (standard_cost_nonneg exa_results tavily_results))
    as (r & R & _ & D & _ & K).
  destruct tavily_results; rewrite R; split; assumption.
Qed.

Section StandardGather.
Context {E T F : Type}.
Variable exa_ops : SearchOps E.
Variable tavily_ops : SearchOps T.

(** X14.  When both search clients report a rate limit,
    [_gather_standard] calls neither of them: clients and world are as
    before, and the result is a STANDARD result without sources whose
    cost is 0. *)
Theorem rate_limited_clients_are_not_called
        (query : IntelQuery.t) (o : @IntelOrchestrator.t E T F) (w : World) :
  is_rate_limited exa_ops (IntelOrchestrator._exa o) w = true ->
  is_rate_limited tavily_ops (IntelOrchestrator._tavily o) w = true ->
  exists r,
    IntelOrchestrator._gather_standard exa_ops tavily_ops query o w = (Returns r, o, w)
    /\ IntelResult.sources r = []
    /\ (IntelResult.total_cost_usd r == 0)%Q
    /\ IntelResult.depth_used r = STANDARD.
Proof.
  intros R1 R2. unfold IntelOrchestrator._gather_standard.
  rewrite R1, R2.
  eexists. split; [ reflexivity | ].
  repeat split.
Qed.

(** X15.  [_gather_standard] never propagates what a client raised: a
    search that fails (with any exception, a cancellation included)
    counts as a search without hits.  The only exception the method can
    raise is the validation error of a hit whose fields [IntelSource]
    rejects; otherwise it returns a STANDARD result that is not marked
    as cached. *)
Theorem standard_gather_never_propagates_a_client_error
        (query : IntelQuery.t) (o : @IntelOrchestrator.t E T F) (w : World) :
  match fst (fst (IntelOrchestrator._gather_standard exa_ops tavily_ops query o w)) with
  | Returns r =>
      IntelResult.depth_used r = STANDARD /\ IntelResult.cached r = false
  | Raises e => e = ValueError "validation error for IntelSource"
  end.
Proof.
  destruct (IntelOrchestrator._gather_standard exa_ops tavily_ops query o w)
    as [[res o'] w'] eqn:G.
  destruct (gather_standard_result _ _ _ _ _ _ _ _ G) as (x & y & ->).
  cbn [fst]. apply standard_result_outcome.
Qed.

End StandardGather.

Lemma rate_limited_clients_are_not_called_witness :
  exists r,
    IntelOrchestrator._gather_standard
      (mock_search (Returns shared_exa_hits) true)
      (mock_search (Returns shared_tavily_hits) true)
      (query_of "q" STANDARD) mock_orchestrator (world_at 0)
    = (Returns r, mock_orchestrator, world_at 0)
    /\ IntelResult.sources r = []
    /\ (IntelResult.total_cost_usd r == 0)%Q
    /\ IntelResult.depth_used r = STANDARD.
Proof.
  apply (rate_limited_clients_are_not_called
           (mock_search (Returns shared_exa_hits) true)
           (mock_search (Returns shared_tavily_hits) true)
           (query_of "q" STANDARD) mock_orchestrator (world_at 0));
    reflexivity.
Defined.


Lemma with_exa_same {E T F} (o : @IntelOrchestrator.t E T F) :
  IntelOrchestrator.with_exa (IntelOrchestrator._exa o) o = o.
Proof. destruct o; reflexivity. Qed.

Lemma with_tavily_same {E T F} (o : @IntelOrchestrator.t E T F) :
  IntelOrchestrator.with_tavily (IntelOrchestrator._tavily o) o = o.
Proof. destruct o; reflexivity. Qed.

(** X16.  With the three real clients and no cache, no query ever
    reaches a backend, whatever the query, the state of the clients and
    the backend: at SHALLOW and DEEP depth [gather_intel] raises the
    [TypeError] of the breaker call; at STANDARD depth, where a failed
    search counts as a search without hits, it returns a result with no
    sources and a cost of 0.  No request is posted, nothing sleeps, and
    the orchestrator is as before. *)
Theorem real_clients_never_reach_the_backend
        (sha256_hexdigest : string -> string) (query : IntelQuery.t)
        (o : @IntelOrchestrator.t SourceClient.t SourceClient.t SourceClient.t)
        (w : World) :
  IntelOrchestrator._cache o = None ->
  exists res w',
    gather_intel_real sha256_hexdigest query o w = (res, o, w')
    /\ posts w' = posts w
    /\ slept w' = slept w
    /\ match IntelQuery.depth query with
       | STANDARD =>
           exists r, res = Returns r
                     /\ IntelResult.sources r = []
                     /\ (IntelResult.total_cost_usd r == 0)%Q
       | _ => res = Raises unexpected_query_id
       end.
Proof.
  intros NoCache.
  unfold gather_intel_real, IntelOrchestrator.gather_intel,
    IntelOrchestrator.gather_intel_try.
  rewrite NoCache.
  destruct (IntelQuery.depth query).
  - unfold IntelOrchestrator._gather_shallow.
    cbn [search ExaSource_ops]. unfold ExaSource.search. rewrite guarded_raises.
    rewrite with_exa_same. cbn [isinstance_Exception unexpected_query_id].
    do 2 eexists. split; [ reflexivity | ]. repeat split.
  - unfold IntelOrchestrator._gather_standard.
    cbn [search is_rate_limited ExaSource_ops TavilySource_ops].
    unfold ExaSource.search, TavilySource.search.
    assert (Empty : exists r,
               IntelOrchestrator.standard_result query [] [] = Returns r
               /\ IntelResult.sources r = []
               /\ (IntelResult.total_cost_usd r == 0)%Q)
      by (eexists; split; [ reflexivity | split; reflexivity ]).
    destruct Empty as (r & Empty & S0 & C0).
    destruct (SourceClient.is_rate_limited (IntelOrchestrator._exa o) _);
      destruct (SourceClient.is_rate_limited (IntelOrchestrator._tavily o) _);
      repeat (rewrite guarded_raises; cbv beta iota zeta);
      rewrite ?with_exa_same, ?with_tavily_same, Empty, NoCache;
      (do 2 eexists; split; [ reflexivity | ];
       split; [ reflexivity | ]; split; [ reflexivity | ];
       eexists; split; [ reflexivity | ]; split; assumption).
  - unfold IntelOrchestrator._gather_deep.
    cbn [search ExaSource_ops]. unfold ExaSource.search. rewrite guarded_raises.
    rewrite with_exa_same. cbn [isinstance_Exception unexpected_query_id].
    do 2 eexists. split; [ reflexivity | ]. repeat split.
Qed.

Lemma real_clients_never_reach_the_backend_witness :
  exists res w',
    gather_intel_real (fun s => s) (query_of "Bitcoin ETF" STANDARD) real_orchestrator
                      (fresh_world bitcoin_backend (1 # 2))
    = (res, real_orchestrator, w')
    /\ posts w' = posts (fresh_world bitcoin_backend (1 # 2))
    /\ slept w' = slept (fresh_world bitcoin_backend (1 # 2))
    /\ exists r, res = Returns r
                 /\ IntelResult.sources r = []
                 /\ (IntelResult.total_cost_usd r == 0)%Q.
Proof.
  apply (real_clients_never_reach_the_backend
           (fun s => s) (query_of "Bitcoin ETF" STANDARD) real_orchestrator
           (fresh_world bitcoin_backend (1 # 2))).
  reflexivity.
Defined.


(** *** The cache *)

Section CachedQueries.
Context {E T F : Type}.
Variable exa_ops : SearchOps E.
Variable tavily_ops : SearchOps T.
Variable firecrawl_ops : ScrapeOps F.
Variable sha256_hexdigest : string -> string.

(** The three gathering methods replace clients, never the cache. *)
Lemma gathering_keeps_the_cache query (o o' : @IntelOrchestrator.t E T F) w res w' :
  match IntelQuery.depth query with
  | SHALLOW => IntelOrchestrator._gather_shallow exa_ops query o w
  | STANDARD => IntelOrchestrator._gather_standard exa_ops tavily_ops query o w
  | DEEP => IntelOrchestrator._gather_deep exa_ops firecrawl_ops query o w
  end = (res, o', w') ->
  IntelOrchestrator._cache o' = IntelOrchestrator._cache o.
Proof.
  destruct (IntelQuery.depth query).
  - unfold IntelOrchestrator._gather_shallow.
    destruct (search exa_ops _ _ _ _) as [[[l|e] c] w1]; intros Hg;
      injection Hg as _ <- _; reflexivity.
  - unfold IntelOrchestrator._gather_standard.
    destruct (is_rate_limited exa_ops _ _);
      [ | destruct (search exa_ops _ _ _ _) as [[[l1|e1] c1] w1] ];
      (destruct (is_rate_limited tavily_ops _ _);
       [ | destruct (search tavily_ops _ _ _ _) as [[[l2|e2] c2] w2] ]);
      intros Hg; injection Hg as _ <- _; reflexivity.
  - unfold IntelOrchestrator._gather_deep.
    destruct (search exa_ops _ _ _ _) as [[[l|e] c] w1]; intros Hg.
    + destruct (IntelOrchestrator._extract_scrape_urls l 5) as [|u urls].
      * injection Hg as _ <- _. reflexivity.
      * destruct (batch_scrape firecrawl_ops _ _ _) as [[[pages|e] c'] w2];
          injection Hg as _ <- _; reflexivity.
    + injection Hg as _ <- _. reflexivity.
Qed.

(** X17.  With a connected cache, a query that [gather_intel] answered
    is answered from the cache when it is asked again (same text and
    depth, the entry not expired): the second call returns the same
    sources, cost and depth with [cached] set, touches no client (the
    orchestrator is as the first call left it) and posts no request. *)
Theorem repeated_query_is_served_from_the_cache
        (query query' : IntelQuery.t) (o o1 : @IntelOrchestrator.t E T F)
        (c : RedisCache.t) (w w1 w2 : World) (r : IntelResult.t) :
  IntelOrchestrator.gather_intel exa_ops tavily_ops firecrawl_ops sha256_hexdigest
                                 query o w = (Returns r, o1, w1) ->
  IntelOrchestrator._cache o = Some c ->
  RedisCache.connected c = true ->
  IntelQuery.text query' = IntelQuery.text query ->
  IntelQuery.depth query' = IntelQuery.depth query ->
  exists r' w',
    IntelOrchestrator.gather_intel exa_ops tavily_ops firecrawl_ops sha256_hexdigest
                                   query' o1 w2 = (Returns r', o1, w')
    /\ posts w' = posts w2
    /\ IntelResult.cached r' = true
    /\ IntelResult.sources r' = IntelResult.sources r
    /\ IntelResult.total_cost_usd r' = IntelResult.total_cost_usd r
    /\ IntelResult.depth_used r' = IntelResult.depth_used r.
Proof.
  intros G HC Conn Htext Hdepth.
  assert (K : IntelOrchestrator.cache_key sha256_hexdigest query'
              = IntelOrchestrator.cache_key sha256_hexdigest query)
    by (unfold IntelOrchestrator.cache_key; rewrite Htext, Hdepth; reflexivity).
  assert (Stored : exists c1 stored,
             IntelOrchestrator._cache o1 = Some c1
             /\ RedisCache.get (IntelOrchestrator.cache_key sha256_hexdigest query) c1
                = Some stored
             /\ IntelResult.sources stored = IntelResult.sources r
             /\ IntelResult.total_cost_usd stored = IntelResult.total_cost_usd r
             /\ IntelResult.depth_used stored = IntelResult.depth_used r).
  { unfold IntelOrchestrator.gather_intel in G.
    destruct (IntelOrchestrator.gather_intel_try _ _ _ _ _ _ _ _) as [[[r0|e] o0] w0] eqn:Try;
      [ | destruct (isinstance_Exception e); discriminate ].
    injection G as -> -> ->.
    unfold IntelOrchestrator.gather_intel_try in Try. rewrite HC in Try.
    destruct (RedisCache.get (IntelOrchestrator.cache_key sha256_hexdigest query) c)
      as [hit|] eqn:Hit.
    - injection Try as <- <- _. exists c, hit. rewrite HC. repeat split. exact Hit.
    - destruct (match IntelQuery.depth query with
                | SHALLOW => _ | STANDARD => _ | DEEP => _ end)
        as [[[r1|e] o2] w3] eqn:Gd; [ | discriminate ].
      apply gathering_keeps_the_cache in Gd. rewrite Gd, HC in Try.
      injection Try as <- <- _.
      eexists. eexists. split; [ reflexivity | ].
      unfold RedisCache.get, RedisCache.set. rewrite Conn.
      cbn [RedisCache.connected RedisCache.store]. rewrite lookup_insert_eq.
      split; [ reflexivity | repeat split ]. }
  destruct Stored as (c1 & stored & HC1 & Hit & S1 & S2 & S3).
  unfold IntelOrchestrator.gather_intel, IntelOrchestrator.gather_intel_try.
  rewrite HC1, K, Hit.
  do 2 eexists. split; [ reflexivity | ].
  split; [ reflexivity | ].
  split; [ exact (cache_hit_is_marked _ _ _ Hit) | ].
  repeat split; assumption.
Qed.

End CachedQueries.

Lemma repeated_query_is_served_from_the_cache_witness :
  let first := IntelOrchestrator.gather_intel
                 (mock_search (Returns shared_exa_hits) false)
                 (mock_search (Returns shared_tavily_hits) false)
                 (mock_scraper (Returns [])) (fun s => s)
                 (query_of "q" STANDARD) caching_orchestrator (world_at 0) in
  let r := result_or no_result (fst (fst first)) in
  let o1 := snd (fst first) in
  first = (Returns r, o1, snd first)
  /\ exists r' w',
      IntelOrchestrator.gather_intel
        (mock_search (Returns shared_exa_hits) false)
        (mock_search (Returns shared_tavily_hits) false)
        (mock_scraper (Returns [])) (fun s => s)
        (query_of "q" STANDARD) o1 (world_at 5) = (Returns r', o1, w')
      /\ posts w' = posts (world_at 5)
      /\ IntelResult.cached r' = true
      /\ IntelResult.sources r' = IntelResult.sources r
      /\ IntelResult.total_cost_usd r' = IntelResult.total_cost_usd r
      /\ IntelResult.depth_used r' = IntelResult.depth_used r.
Proof.
  intros first r o1.
  assert (G : first = (Returns r, o1, snd first)) by (vm_compute; reflexivity).
  split; [ exact G | ].
  exact (repeated_query_is_served_from_the_cache
           (mock_search (Returns shared_exa_hits) false)
           (mock_search (Returns shared_tavily_hits) false)
           (mock_scraper (Returns [])) (fun s => s)
           (query_of "q" STANDARD) (query_of "q" STANDARD)
           caching_orchestrator o1
           {| RedisCache.connected := true; RedisCache.store := ∅ |}
           (world_at 0) (snd first) (world_at 5) r
           G eq_refl eq_refl eq_refl eq_refl).
Defined.


Section DisconnectedCache.
Context {E T F : Type}.
Variable exa_ops : SearchOps E.
Variable tavily_ops : SearchOps T.
Variable firecrawl_ops : ScrapeOps F.
Variable sha256_hexdigest : string -> string.

(** The gathering methods do not look at the cache. *)
Lemma gathering_ignores_the_cache query (k : option RedisCache.t)
      (o : @IntelOrchestrator.t E T F) w :
  match IntelQuery.depth query with
  | SHALLOW =>
      IntelOrchestrator._gather_shallow exa_ops query (IntelOrchestrator.with_cache k o) w
  | STANDARD =>
      IntelOrchestrator._gather_standard exa_ops tavily_ops query
                                         (IntelOrchestrator.with_cache k o) w
  | DEEP =>
      IntelOrchestrator._gather_deep exa_ops firecrawl_ops query
                                     (IntelOrchestrator.with_cache k o) w
  end
  = let '(res, o', w') :=
      match IntelQuery.depth query with
      | SHALLOW => IntelOrchestrator._gather_shallow exa_ops query o w
      | STANDARD => IntelOrchestrator._gather_standard exa_ops tavily_ops query o w
      | DEEP => IntelOrchestrator._gather_deep exa_ops firecrawl_ops query o w
      end in
    (res, IntelOrchestrator.with_cache k o', w').
Proof.
  destruct o as [e t f k0 ttl]. destruct (IntelQuery.depth query).
  - unfold IntelOrchestrator._gather_shallow.
    cbn [IntelOrchestrator._exa IntelOrchestrator.with_cache].
    destruct (search exa_ops _ _ _ _) as [[[l|ex] c] w1]; reflexivity.
  - unfold IntelOrchestrator._gather_standard.
    cbn [IntelOrchestrator._exa IntelOrchestrator._tavily IntelOrchestrator.with_cache].
    destruct (is_rate_limited exa_ops _ _);
      [ | destruct (search exa_ops _ _ _ _) as [[[l1|e1] c1] w1] ];
      (destruct (is_rate_limited tavily_ops _ _);
       [ | cbn [IntelOrchestrator._tavily IntelOrchestrator.with_exa];
           destruct (search tavily_ops _ _ _ _) as [[[l2|e2] c2] w2] ]);
      reflexivity.
  - unfold IntelOrchestrator._gather_deep.
    cbn [IntelOrchestrator._exa IntelOrchestrator.with_cache].
    destruct (search exa_ops _ _ _ _) as [[[l|ex] c] w1]; [ | reflexivity ].
    destruct (IntelOrchestrator._extract_scrape_urls l 5) as [|u urls]; [ reflexivity | ].
    cbn [IntelOrchestrator._firecrawl IntelOrchestrator.with_exa].
    destruct (batch_scrape firecrawl_ops _ _ _) as [[[pages|ex] c'] w2]; reflexivity.
Qed.

(** X18.  A cache that is not connected never fails or alters a query:
    [get] and [set] catch the [RuntimeError] of the missing connection,
    so [gather_intel] returns (or raises) exactly what it does without a
    cache, in the same world, and the cache object is as before. *)
Theorem disconnected_cache_never_fails_a_query
        (query : IntelQuery.t) (o : @IntelOrchestrator.t E T F)
        (c : RedisCache.t) (w : World) :
  IntelOrchestrator._cache o = Some c ->
  RedisCache.connected c = false ->
  IntelOrchestrator.gather_intel exa_ops tavily_ops firecrawl_ops sha256_hexdigest
                                 query o w
  = let '(res, o', w') :=
      IntelOrchestrator.gather_intel exa_ops tavily_ops firecrawl_ops sha256_hexdigest
                                     query (IntelOrchestrator.with_cache None o) w in
    (res, IntelOrchestrator.with_cache (Some c) o', w').
Proof.
  intros HC Conn.
  assert (O : o = IntelOrchestrator.with_cache (Some c) (IntelOrchestrator.with_cache None o))
    by (destruct o; cbn in HC; subst; reflexivity).
  set (o0 := IntelOrchestrator.with_cache None o) in *.
  rewrite O at 1.
  unfold IntelOrchestrator.gather_intel, IntelOrchestrator.gather_intel_try.
  cbn [IntelOrchestrator._cache IntelOrchestrator.with_cache].
  unfold RedisCache.get at 1. rewrite Conn.
  change (IntelOrchestrator._cache o0) with (@None RedisCache.t).
  change {| IntelOrchestrator._exa := IntelOrchestrator._exa o0;
            IntelOrchestrator._tavily := IntelOrchestrator._tavily o0;
            IntelOrchestrator._firecrawl := IntelOrchestrator._firecrawl o0;
            IntelOrchestrator._cache := Some c;
            IntelOrchestrator._default_cache_ttl :=
              IntelOrchestrator._default_cache_ttl o0 |}
    with (IntelOrchestrator.with_cache (Some c) o0).
  rewrite gathering_ignores_the_cache.
  destruct (match IntelQuery.depth query with
            | SHALLOW => _ | STANDARD => _ | DEEP => _ end)
    as [[[r1|e] o2] w3] eqn:Gd.
  - apply gathering_keeps_the_cache in Gd.
    change (IntelOrchestrator._cache o0) with (@None RedisCache.t) in Gd.
    rewrite Gd. cbn [IntelOrchestrator._cache IntelOrchestrator.with_cache].
    unfold RedisCache.set. rewrite Conn. reflexivity.
  - destruct (isinstance_Exception e); reflexivity.
Qed.

End DisconnectedCache.


Lemma disconnected_cache_never_fails_a_query_witness :
  let down := {| RedisCache.connected := false; RedisCache.store := ∅ |} in
  let o := IntelOrchestrator.with_cache (Some down) mock_orchestrator in
  IntelOrchestrator.gather_intel
    (mock_search (Returns shared_exa_hits) false)
    (mock_search (Returns shared_tavily_hits) false)
    (mock_scraper (Returns [])) (fun s => s)
    (query_of "q" STANDARD) o (world_at 0)
  = let '(res, o', w') :=
      IntelOrchestrator.gather_intel
        (mock_search (Returns shared_exa_hits) false)
        (mock_search (Returns shared_tavily_hits) false)
        (mock_scraper (Returns [])) (fun s => s)
        (query_of "q" STANDARD) (IntelOrchestrator.with_cache None o) (world_at 0) in
    (res, IntelOrchestrator.with_cache (Some down) o', w').
Proof.
  intros down o.
  apply (disconnected_cache_never_fails_a_query
           (mock_search (Returns shared_exa_hits) false)
           (mock_search (Returns shared_tavily_hits) false)
           (mock_scraper (Returns [])) (fun s => s)
           (query_of "q" STANDARD) o down (world_at 0));
    reflexivity.
Defined.


(** *** The event bus *)

Lemma grown_from_refl q : grown_from q q.
Proof.
  repeat split; [ exists []; rewrite List.app_nil_r; reflexivity | tauto ].
Qed.

Lemma grown_from_trans q1 q2 q3 :
  grown_from q1 q2 -> grown_from q2 q3 -> grown_from q1 q3.
Proof.
  intros (M1 & [a1 I1] & C1) (M2 & [a2 I2] & C2). repeat split.
  - congruence.
  - exists (a1 ++ a2). rewrite I2, I1, List.app_assoc. reflexivity.
  - tauto.
Qed.

Lemma put_nowait_grows e q q' :
  EventBus.put_nowait e q = Some q' -> grown_from q q'.
Proof.
  unfold EventBus.put_nowait.
  destruct (Nat.ltb 0 (EventBus.maxsize q)) eqn:Pos;
    destruct (Nat.leb (EventBus.maxsize q) (length (EventBus.items q))) eqn:Full;
    cbn [andb]; try discriminate;
    intros Hp; injection Hp as <-; unfold grown_from, within_capacity;
    cbn [EventBus.maxsize EventBus.items];
    (split; [ reflexivity | split; [ eexists; reflexivity | ] ]);
    intros _; rewrite List.length_app; cbn [length].
  - apply Nat.leb_gt in Full. right. lia.
  - apply Nat.ltb_ge in Pos. left. lia.
  - apply Nat.ltb_ge in Pos. left. lia.
Qed.

Lemma offer_all_grows (e : EventBus.EventEnvelope) (queues : list nat) :
  forall (hp : gmap nat EventBus.Queue) a q',
    fst (EventBus.offer_all queues e hp) !! a = Some q' ->
    exists q, hp !! a = Some q /\ grown_from q q'.
Proof.
  induction queues as [|a0 queues IH]; intros hp a q'; cbn [EventBus.offer_all].
  - cbn [fst]. intros L. exists q'. split; [ exact L | apply grown_from_refl ].
  - destruct (hp !! a0) as [q0|] eqn:L0; [ | apply IH ].
    destruct (EventBus.put_nowait e q0) as [q1|] eqn:P.
    + specialize (IH (<[a0 := q1]> hp) a q').
      destruct (EventBus.offer_all queues e (<[a0 := q1]> hp)) as [hp' tr].
      cbn [fst] in *. intros L. destruct (IH L) as (q & Lq & G).
      destruct (decide (a0 = a)) as [<-|N].
      * rewrite lookup_insert_eq in Lq. injection Lq as <-.
        exists q0. split; [ exact L0 | ].
        eapply grown_from_trans; [ apply (put_nowait_grows _ _ _ P) | exact G ].
      * rewrite lookup_insert_ne in Lq by exact N. exists q. split; assumption.
    + specialize (IH hp a q').
      destruct (EventBus.offer_all queues e hp) as [hp' tr].
      cbn [fst] in *. exact IH.
Qed.

(** X19.  [emit] never overfills a streaming queue and never loses or
    reorders what a subscriber has not read yet: every queue of the bus
    after an [emit] is a queue that was there before, with the same
    capacity and its former contents first; a queue that was within its
    capacity still is (when it is full the envelope is dropped for that
    subscriber). *)
Theorem emit_respects_queue_capacity
        (event_type : string) (payload : gmap string string)
        (source_module correlation_id : string) (b : EventBus.t)
        (a : nat) (q' : EventBus.Queue) :
  EventBus.heap (snd (fst (EventBus.emit event_type payload source_module
                                         correlation_id b))) !! a = Some q' ->
  exists q,
    EventBus.heap b !! a = Some q
    /\ EventBus.maxsize q' = EventBus.maxsize q
    /\ (exists added, EventBus.items q' = EventBus.items q ++ added)
    /\ (within_capacity q -> within_capacity q').
Proof.
  unfold EventBus.emit.
  destruct (EventBus.dispatch _ _ _ _ _) as [[[[[]|exc] b1] tr]|] eqn:D.
  - destruct (dispatch_keeps_queues _ _ _ _ _ _ _ _ D) as (K1 & K2 & _ & _).
    cbn [EventBus._sse_queues EventBus.heap] in K1, K2. rewrite K1, K2.
    pose proof (offer_all_grows
                  {| EventBus.event_id := EventBus.next_event_id b;
                     EventBus.event_type := event_type;
                     EventBus.source_module := source_module;
                     EventBus.correlation_id := correlation_id;
                     EventBus.payload := payload |}
                  (EventBus._sse_queues b) (EventBus.heap b) a q') as G.
    destruct (EventBus.offer_all _ _ _) as [hp tr'].
    cbn [fst snd EventBus.heap] in *. intros L.
    destruct (G L) as (q & Lq & Gq). exists q. split; [ exact Lq | exact Gq ].
  - destruct (dispatch_keeps_queues _ _ _ _ _ _ _ _ D) as (K1 & _).
    cbn [EventBus.heap] in K1.
    cbn [fst snd]. rewrite K1. intros L. exists q'.
    split; [ exact L | apply grown_from_refl ].
  - cbn [fst snd EventBus.heap]. intros L. exists q'.
    split; [ exact L | apply grown_from_refl ].
Qed.

Lemma emit_respects_queue_capacity_witness :
  let b := bus_with_failing_handlers in
  let q' := {| EventBus.maxsize := 256;
               EventBus.items :=
                 [ {| EventBus.event_id := 0;
                      EventBus.event_type := "query_started";
                      EventBus.source_module := "intel.orchestrator";
                      EventBus.correlation_id := "req-1";
                      EventBus.payload := ∅ |} ] |} in
  exists q,
    EventBus.heap b !! 0%nat = Some q
    /\ EventBus.maxsize q' = EventBus.maxsize q
    /\ (exists added, EventBus.items q' = EventBus.items q ++ added)
    /\ (within_capacity q -> within_capacity q').
Proof.
  intros b q'.
  apply (emit_respects_queue_capacity
           "query_started" ∅ "intel.orchestrator" "req-1" b 0%nat q').
  vm_compute. reflexivity.
Defined.


Lemma remove_handler_absent (id : nat) (l : list EventBus.EventHandler) :
  (forall h', In h' l -> EventBus.handler_id h' <> id) ->
  EventBus.remove_handler id l = l.
Proof.
  induction l as [|x l IH]; intros N; cbn [EventBus.remove_handler]; [ reflexivity | ].
  destruct (Nat.eqb (EventBus.handler_id x) id) eqn:Eq.
  - apply Nat.eqb_eq in Eq. exfalso. exact (N x (or_introl eq_refl) Eq).
  - rewrite IH; [ reflexivity | ]. intros h' I. apply N. right. exact I.
Qed.

Lemma remove_handler_last (h : EventBus.EventHandler) (l : list EventBus.EventHandler) :
  (forall h', In h' l -> EventBus.handler_id h' <> EventBus.handler_id h) ->
  EventBus.remove_handler (EventBus.handler_id h) (l ++ [h]) = l.
Proof.
  induction l as [|x l IH]; intros N; cbn [EventBus.remove_handler app].
  - rewrite Nat.eqb_refl. reflexivity.
  - destruct (Nat.eqb (EventBus.handler_id x) (EventBus.handler_id h)) eqn:Eq.
    + apply Nat.eqb_eq in Eq. exfalso. exact (N x (or_introl eq_refl) Eq).
    + rewrite IH; [ reflexivity | ]. intros h' I. apply N. right. exact I.
Qed.

(** X20.  For a handler that is not registered for an event type:
    [unsubscribe] changes no subscription (the handler is looked up
    before it is removed, nothing is raised), and [unsubscribe] after
    [subscribe] restores, for every event type, the handlers that were
    registered before, in their order. *)
Theorem unsubscribe_undoes_subscribe
        (event_type : string) (h : EventBus.EventHandler) (b : EventBus.t) :
  (forall h', In h' (EventBus.handlers_for event_type b) ->
              EventBus.handler_id h' <> EventBus.handler_id h) ->
  forall ty,
    EventBus.handlers_for ty (EventBus.unsubscribe event_type h b)
    = EventBus.handlers_for ty b
    /\ EventBus.handlers_for ty
         (EventBus.unsubscribe event_type h (EventBus.subscribe event_type h b))
       = EventBus.handlers_for ty b.
Proof.
  intros N ty. split.
  - unfold EventBus.unsubscribe, EventBus.unsubscribe_id.
    destruct (EventBus._handlers b !! event_type) as [l|] eqn:L; [ | reflexivity ].
    assert (N' : forall h', In h' l -> EventBus.handler_id h' <> EventBus.handler_id h)
      by (intros h' I; apply N; unfold EventBus.handlers_for; rewrite L; exact I).
    unfold EventBus.handlers_for. cbn [EventBus._handlers].
    rewrite (remove_handler_absent _ _ N').
    destruct (decide (event_type = ty)) as [<-|D].
    + rewrite lookup_insert_eq, L. reflexivity.
    + rewrite lookup_insert_ne by exact D. reflexivity.
  - unfold EventBus.unsubscribe, EventBus.unsubscribe_id, EventBus.subscribe.
    cbn [EventBus._handlers].
    rewrite lookup_insert_eq. unfold EventBus.handlers_for at 1.
    cbn [EventBus._handlers]. rewrite (remove_handler_last _ _ N).
    destruct (decide (event_type = ty)) as [<-|D].
    + rewrite lookup_insert_eq. reflexivity.
    + rewrite !lookup_insert_ne by exact D. reflexivity.
Qed.

Lemma unsubscribe_undoes_subscribe_witness :
  EventBus.handlers_for "query_started"
    (EventBus.unsubscribe "query_started" (quiet_handler 7) bus_with_failing_handlers)
  = EventBus.handlers_for "query_started" bus_with_failing_handlers
  /\ EventBus.handlers_for "query_started"
       (EventBus.unsubscribe "query_started" (quiet_handler 7)
          (EventBus.subscribe "query_started" (quiet_handler 7)
                              bus_with_failing_handlers))
     = EventBus.handlers_for "query_started" bus_with_failing_handlers.
Proof.
  apply (unsubscribe_undoes_subscribe "query_started" (quiet_handler 7)
                                      bus_with_failing_handlers).
  intros h' I. vm_compute in I.
  destruct I as [<- | [<- | [<- | []]]]; cbn; lia.
Defined.


Lemma remove_addr_last (a : nat) (l : list nat) :
  ~ In a l -> EventBus.remove_addr a (l ++ [a]) = Some l.
Proof.
  induction l as [|x l IH]; intros N; cbn [EventBus.remove_addr app].
  - rewrite Nat.eqb_refl. reflexivity.
  - destruct (Nat.eqb x a) eqn:Eq.
    + apply Nat.eqb_eq in Eq. exfalso. apply N. left. exact Eq.
    + rewrite IH; [ reflexivity | ]. intros I. apply N. right. exact I.
Qed.

(** X21.  The life of a streaming subscription, on a bus whose listed
    queues are queues it allocated: [sse_subscribe] lists a new, empty
    queue of capacity 256 behind the others; closing the generator
    removes that queue and leaves the other subscribers listed as they
    were; but when [sse_unsubscribe_all] ran in between, the
    [list.remove] of the generator's [finally] raises [ValueError],
    the queue being no longer listed. *)
Theorem closing_a_subscription_removes_only_its_queue (b : EventBus.t) :
  (forall x, In x (EventBus._sse_queues b) -> (x < EventBus.next_addr b)%nat) ->
  let '(a, b1) := EventBus.sse_subscribe b in
  EventBus._sse_queues b1 = EventBus._sse_queues b ++ [a]
  /\ EventBus.heap b1 !! a = Some {| EventBus.maxsize := 256; EventBus.items := [] |}
  /\ fst (EventBus.sse_close a b1) = Returns tt
  /\ EventBus._sse_queues (snd (EventBus.sse_close a b1)) = EventBus._sse_queues b
  /\ EventBus.sse_close a (EventBus.sse_unsubscribe_all b1)
     = (Raises (ValueError "list.remove(x): x not in list"),
        EventBus.sse_unsubscribe_all b1).
Proof.
  intros Fresh. unfold EventBus.sse_subscribe.
  assert (N : ~ In (EventBus.next_addr b) (EventBus._sse_queues b))
    by (intros I; apply Fresh in I; lia).
  split; [ reflexivity | ].
  split; [ cbn [EventBus.heap]; apply lookup_insert_eq | ].
  unfold EventBus.sse_close. cbn [EventBus._sse_queues].
  rewrite (remove_addr_last _ _ N). cbn [fst snd EventBus._sse_queues].
  repeat split.
Qed.

Lemma closing_a_subscription_removes_only_its_queue_witness :
  let '(a, b1) := EventBus.sse_subscribe bus_with_failing_handlers in
  EventBus._sse_queues b1 = EventBus._sse_queues bus_with_failing_handlers ++ [a]
  /\ EventBus.heap b1 !! a = Some {| EventBus.maxsize := 256; EventBus.items := [] |}
  /\ fst (EventBus.sse_close a b1) = Returns tt
  /\ EventBus._sse_queues (snd (EventBus.sse_close a b1))
     = EventBus._sse_queues bus_with_failing_handlers
  /\ EventBus.sse_close a (EventBus.sse_unsubscribe_all b1)
     = (Raises (ValueError "list.remove(x): x not in list"),
        EventBus.sse_unsubscribe_all b1).
Proof.
  apply (closing_a_subscription_removes_only_its_queue bus_with_failing_handlers).
  intros x I. vm_compute in I. destruct I as [<- | []]. vm_compute. lia.
Defined.


(** *** The model rotator and the completion client *)

Lemma nth_error_mod_in {X} (l : list X) (i : nat) :
  l <> [] -> exists x, nth_error l (i mod length l) = Some x /\ In x l.
Proof.
  intros N.
  assert (L : (i mod length l < length l)%nat)
    by (apply Nat.mod_upper_bound; destruct l; [ congruence | cbn; lia ]).
  destruct (nth_error l (i mod length l)) as [x|] eqn:E.
  - exists x. split; [ reflexivity | ]. eapply List.nth_error_In. exact E.
  - apply List.nth_error_None in E. lia.
Qed.

(** X22.  [get_next_model] on a rotator that has models returns the id
    of one of them, advances the index by one, and never returns a model
    that is marked rate-limited: when every model is marked it first
    waits 60 seconds and clears the marks, otherwise marks and world are
    untouched.  When a model that is not marked has the requested
    strength, the model returned has that strength. *)
Theorem get_next_model_picks_an_available_model
        (task_type : string) (r : ModelRotator.t) (w : World) :
  ModelRotator.models r <> [] ->
  exists m r' w',
    ModelRotator.get_next_model task_type r w = (Some (ModelRotator.id m), r', w')
    /\ In m (ModelRotator.models r)
    /\ (ModelRotator.id m ∉ ModelRotator.rate_limited r')
    /\ ModelRotator.current_index r' = S (ModelRotator.current_index r)
    /\ ModelRotator.models r' = ModelRotator.models r
    /\ ((exists m0, In m0 (ModelRotator.models r)
                    /\ (ModelRotator.id m0 ∉ ModelRotator.rate_limited r)) ->
        ModelRotator.rate_limited r' = ModelRotator.rate_limited r /\ w' = w)
    /\ ((forall m0, In m0 (ModelRotator.models r) ->
                    ModelRotator.id m0 ∈ ModelRotator.rate_limited r) ->
        ModelRotator.rate_limited r' = ∅
        /\ w' = ModelRotator.wait_handler r 60 w)
    /\ (task_type <> "" ->
        (exists m0, In m0 (ModelRotator.models r)
                    /\ (ModelRotator.id m0 ∉ ModelRotator.rate_limited r')
                    /\ ModelRotator.strength m0 = task_type) ->
        ModelRotator.strength m = task_type).
Proof.
  intros Models.
  (* the candidates after the reset, the marks they were filtered by *)
  assert (Base : exists c1 limited w1,
             c1 <> []
             /\ (forall m, In m c1 <->
                           In m (ModelRotator.models r) /\ ModelRotator.id m ∉ limited)
             /\ (let candidates :=
                   List.filter (ModelRotator.available (ModelRotator.rate_limited r))
                               (ModelRotator.models r) in
                 match candidates with
                 | [] =>
                     (ModelRotator.models r,
                      {| ModelRotator.models := ModelRotator.models r;
                         ModelRotator.current_index := ModelRotator.current_index r;
                         ModelRotator.rate_limited := ∅;
                         ModelRotator.wait_handler := ModelRotator.wait_handler r |},
                      ModelRotator.wait_handler r 60 w)
                 | _ => (candidates, r, w)
                 end)
                = (c1,
                   {| ModelRotator.models := ModelRotator.models r;
                      ModelRotator.current_index := ModelRotator.current_index r;
                      ModelRotator.rate_limited := limited;
                      ModelRotator.wait_handler := ModelRotator.wait_handler r |},
                   w1)
             /\ ((exists m0, In m0 (ModelRotator.models r)
                             /\ (ModelRotator.id m0 ∉ ModelRotator.rate_limited r)) ->
                 limited = ModelRotator.rate_limited r /\ w1 = w)
             /\ ((forall m0, In m0 (ModelRotator.models r) ->
                             ModelRotator.id m0 ∈ ModelRotator.rate_limited r) ->
                 limited = ∅ /\ w1 = ModelRotator.wait_handler r 60 w)).
  { assert (Fi : forall m,
               In m (List.filter (ModelRotator.available (ModelRotator.rate_limited r))
                                 (ModelRotator.models r))
               <-> In m (ModelRotator.models r)
                   /\ (ModelRotator.id m ∉ ModelRotator.rate_limited r)).
    { intros m. rewrite List.filter_In. unfold ModelRotator.available.
      rewrite negb_true_iff, bool_decide_eq_false. reflexivity. }
    destruct (List.filter (ModelRotator.available (ModelRotator.rate_limited r))
                          (ModelRotator.models r)) as [|m1 c] eqn:F.
    - exists (ModelRotator.models r), ∅, (ModelRotator.wait_handler r 60 w).
      split; [ exact Models | ]. split.
      { intros m. split; [ intros I; split; [ exact I | set_solver ] | tauto ]. }
      split; [ reflexivity | ]. split.
      + intros (m0 & I0 & A0). exfalso. apply (Fi m0). split; assumption.
      + intros _. split; reflexivity.
    - exists (m1 :: c), (ModelRotator.rate_limited r), w.
      split; [ discriminate | ]. split; [ exact Fi | ].
      split; [ destruct r; reflexivity | ]. split.
      + intros _. split; reflexivity.
      + intros All. exfalso. destruct (Fi m1) as [Hm _].
        destruct (Hm (or_introl eq_refl)) as [I1 A1]. exact (A1 (All m1 I1)). }
  destruct Base as (c1 & limited & w1 & N1 & In1 & Eq1 & Some1 & All1).
  (* the candidates after the preference for the task *)
  set (c2 := if negb (String.eqb task_type "") then
               match List.filter
                       (fun m => String.eqb (ModelRotator.strength m) task_type) c1 with
               | [] => c1
               | preferred => preferred
               end
             else c1).
  assert (Pref : c2 <> []
                 /\ (forall m, In m c2 -> In m c1)
                 /\ (task_type <> "" ->
                     (exists m0, In m0 c1 /\ ModelRotator.strength m0 = task_type) ->
                     forall m, In m c2 -> ModelRotator.strength m = task_type)).
  { subst c2. destruct (String.eqb task_type "") eqn:Empty; cbn [negb].
    - apply String.eqb_eq in Empty. repeat split; [ exact N1 | tauto | congruence ].
    - destruct (List.filter (fun m => String.eqb (ModelRotator.strength m) task_type) c1)
        as [|p ps] eqn:F.
      + repeat split; [ exact N1 | tauto | ].
        intros _ (m0 & I0 & S0). exfalso.
        assert (I : In m0 (List.filter
                             (fun m => String.eqb (ModelRotator.strength m) task_type) c1))
          by (apply List.filter_In; split; [ exact I0 | apply String.eqb_eq; exact S0 ]).
        rewrite F in I. exact I.
      + rewrite <- F. repeat split.
        * rewrite F. discriminate.
        * intros m I. apply List.filter_In in I. tauto.
        * intros _ _ m I. apply List.filter_In in I. apply String.eqb_eq. tauto. }
  destruct Pref as (N2 & Sub2 & Str2).
  destruct (nth_error_mod_in c2 (ModelRotator.current_index r) N2) as (m & Nth & Im).
  exists m,
    {| ModelRotator.models := ModelRotator.models r;
       ModelRotator.current_index := S (ModelRotator.current_index r);
       ModelRotator.rate_limited := limited;
       ModelRotator.wait_handler := ModelRotator.wait_handler r |},
    w1.
  split.
  { unfold ModelRotator.get_next_model. cbv zeta in Eq1. rewrite Eq1.
    cbn [ModelRotator.current_index ModelRotator.models ModelRotator.rate_limited
         ModelRotator.wait_handler].
    fold c2. rewrite Nth. reflexivity. }
  cbn [ModelRotator.current_index ModelRotator.models ModelRotator.rate_limited].
  pose proof (proj1 (In1 m) (Sub2 m Im)) as [Imodels Avail].
  repeat split; try assumption.
  - apply Some1. assumption.
  - apply Some1. assumption.
  - apply All1. assumption.
  - apply All1. assumption.
  - intros NotEmpty (m0 & I0 & A0 & S0). apply (Str2 NotEmpty); [ | exact Im ].
    exists m0. split; [ apply In1; split; assumption | exact S0 ].
Qed.

Lemma get_next_model_picks_an_available_model_witness :
  let r := ModelRotator.mark_rate_limited "deepseek/deepseek-r1-0528:free"
             (ModelRotator.init time_sleep) in
  exists m r' w',
    ModelRotator.get_next_model "reasoning" r (world_at 0)
    = (Some (ModelRotator.id m), r', w')
    /\ In m (ModelRotator.models r)
    /\ (ModelRotator.id m ∉ ModelRotator.rate_limited r')
    /\ ModelRotator.current_index r' = S (ModelRotator.current_index r)
    /\ ModelRotator.models r' = ModelRotator.models r
    /\ ((exists m0, In m0 (ModelRotator.models r)
                    /\ (ModelRotator.id m0 ∉ ModelRotator.rate_limited r)) ->
        ModelRotator.rate_limited r' = ModelRotator.rate_limited r /\ w' = world_at 0)
    /\ ((forall m0, In m0 (ModelRotator.models r) ->
                    ModelRotator.id m0 ∈ ModelRotator.rate_limited r) ->
        ModelRotator.rate_limited r' = ∅
        /\ w' = ModelRotator.wait_handler r 60 (world_at 0))
    /\ ("reasoning" <> "" ->
        (exists m0, In m0 (ModelRotator.models r)
                    /\ (ModelRotator.id m0 ∉ ModelRotator.rate_limited r')
                    /\ ModelRotator.strength m0 = "reasoning") ->
        ModelRotator.strength m = "reasoning").
Proof.
  intros r.
  apply (get_next_model_picks_an_available_model "reasoning" r (world_at 0)).
  discriminate.
Defined.

(** X23.  [OpenRouterClient.complete] never returns a completion and
    never sends a request: it takes one model from the rotator, and the
    call [breaker.call(self._execute_with_backoff, prompt, model_id,
    max_tokens)] raises [TypeError], [call] taking the function only.
    Neither [except] clause of the loop catches it, so the first attempt
    ends [complete]; no event is emitted and the session cost is as
    before.  (A rotator without models makes the rotator's index
    computation fail instead.) *)
Theorem complete_raises_TypeError_on_the_first_attempt
        (prompt task_type : string) (max_tokens : Z)
        (c : OpenRouterClient.t) (w : World) :
  let '(picked, r1, w1) :=
    ModelRotator.get_next_model task_type (OpenRouterClient.rotator c) w in
  let '(res, c', w') := OpenRouterClient.complete prompt task_type max_tokens c w in
  res = match picked with
        | Some _ =>
            inr (OpenRouterClient.Raised
                   (TypeError "call() takes too many positional arguments"))
        | None => inr OpenRouterClient.ZeroDivisionError
        end
  /\ w' = w1
  /\ OpenRouterClient.rotator c' = r1
  /\ OpenRouterClient.session_cost c' = OpenRouterClient.session_cost c.
Proof.
  unfold OpenRouterClient.complete.
  change 10%nat with (S 9). generalize 9%nat. intros remaining.
  cbn [OpenRouterClient.complete_loop].
  destruct (ModelRotator.get_next_model task_type (OpenRouterClient.rotator c) w)
    as [[[model_id|] r1] w1].
  - repeat split;
      destruct (OpenRouterClient.breakers (OpenRouterClient.with_rotator r1 c) !! model_id);
      reflexivity.
  - repeat split.
Qed.


Lemma get_next_model_without_reset (task_type : string) (r : ModelRotator.t) (w : World)
      (m : ModelRotator.OpenRouterModel) (c : list ModelRotator.OpenRouterModel) :
  List.filter (ModelRotator.available (ModelRotator.rate_limited r)) (ModelRotator.models r)
  = m :: c ->
  ModelRotator.get_next_model task_type r w
  = let c2 := if negb (String.eqb task_type "") then
                match List.filter
                        (fun x => String.eqb (ModelRotator.strength x) task_type)
                        (m :: c) with
                | [] => m :: c
                | preferred => preferred
                end
              else m :: c in
    match nth_error c2 (ModelRotator.current_index r mod length c2) with
    | None => (None, r, w)
    | Some model =>
        (Some (ModelRotator.id model),
         {| ModelRotator.models := ModelRotator.models r;
            ModelRotator.current_index := S (ModelRotator.current_index r);
            ModelRotator.rate_limited := ModelRotator.rate_limited r;
            ModelRotator.wait_handler := ModelRotator.wait_handler r |},
         w)
    end.
Proof. intros F. unfold ModelRotator.get_next_model. rewrite F. reflexivity. Qed.

Lemma NoDup_map_injective {X Y} (f : X -> Y) (l : list X) (x y : X) :
  List.NoDup (map f l) -> In x l -> In y l -> f x = f y -> x = y.
Proof.
  induction l as [|z l IH]; cbn [map]; intros N Ix Iy E; [ destruct Ix | ].
  inversion N as [|? ? Nz Nl]; subst.
  destruct Ix as [<-|Ix], Iy as [<-|Iy].
  - reflexivity.
  - exfalso. apply Nz. rewrite E. apply List.in_map. exact Iy.
  - exfalso. apply Nz. rewrite <- E. apply List.in_map. exact Ix.
  - apply IH; assumption.
Qed.

Lemma two_members_length {X} (l : list X) (x y : X) :
  In x l -> In y l -> x <> y -> (2 <= length l)%nat.
Proof.
  destruct l as [|a [|b l]]; cbn; intros Ix Iy N; try lia.
  destruct Ix as [<-|[]], Iy as [<-|[]]. congruence.
Qed.

Lemma successor_moves_modulo (i n : nat) :
  (2 <= n)%nat -> S i mod n <> i mod n.
Proof.
  intros N. assert (K : (i mod n < n)%nat) by (apply Nat.mod_upper_bound; lia).
  replace (S i) with (i + 1)%nat by lia.
  rewrite Nat.Div0.add_mod, (Nat.mod_small 1 n) by lia.
  destruct (Nat.eq_dec (i mod n + 1) n) as [E|E].
  - rewrite E, Nat.Div0.mod_same. lia.
  - rewrite Nat.mod_small by lia. lia.
Qed.

(** X24.  Rotation: when [get_next_model] returned a model that is not
    marked, and another unmarked model suits the task as well (it has
    the requested strength, or the returned model has not, or no task
    type was given), the next call for the same task type returns a
    different model.  Model ids are assumed distinct, as they are in
    [OPENROUTER_FREE_MODELS]. *)
Theorem successive_calls_return_different_models
        (task_type : string) (r r1 : ModelRotator.t) (w w1 : World)
        (m1 m2 : ModelRotator.OpenRouterModel) :
  List.NoDup (map ModelRotator.id (ModelRotator.models r)) ->
  In m1 (ModelRotator.models r) ->
  In m2 (ModelRotator.models r) ->
  ModelRotator.get_next_model task_type r w = (Some (ModelRotator.id m1), r1, w1) ->
  ModelRotator.id m1 ∉ ModelRotator.rate_limited r ->
  ModelRotator.id m2 ∉ ModelRotator.rate_limited r ->
  ModelRotator.id m2 <> ModelRotator.id m1 ->
  (ModelRotator.strength m2 = task_type
   \/ ModelRotator.strength m1 <> task_type
   \/ task_type = "") ->
  exists m' r2,
    ModelRotator.get_next_model task_type r1 w1 = (Some (ModelRotator.id m'), r2, w1)
    /\ In m' (ModelRotator.models r)
    /\ ModelRotator.id m' <> ModelRotator.id m1.
Proof.
  intros Ids I1 I2 First A1 A2 Diff Suits.
  assert (Fi : forall m,
             In m (List.filter (ModelRotator.available (ModelRotator.rate_limited r))
                               (ModelRotator.models r))
             <-> In m (ModelRotator.models r)
                 /\ ModelRotator.id m ∉ ModelRotator.rate_limited r).
  { intros m. rewrite List.filter_In. unfold ModelRotator.available.
    rewrite negb_true_iff, bool_decide_eq_false. reflexivity. }
  assert (Nodup1 : List.NoDup (List.filter
                                 (ModelRotator.available (ModelRotator.rate_limited r))
                                 (ModelRotator.models r)))
    by (apply List.NoDup_filter; eapply List.NoDup_map_inv; exact Ids).
  destruct (List.filter (ModelRotator.available (ModelRotator.rate_limited r))
                        (ModelRotator.models r)) as [|m c] eqn:F.
  { exfalso. apply (Fi m1). split; assumption. }
  rewrite (get_next_model_without_reset task_type r w m c F) in First.
  cbv zeta in First.
  set (c2 := if negb (String.eqb task_type "") then
               match List.filter
                       (fun x => String.eqb (ModelRotator.strength x) task_type)
                       (m :: c) with
               | [] => m :: c
               | preferred => preferred
               end
             else m :: c) in *.
  assert (Sub : forall x, In x c2 -> In x (m :: c)).
  { subst c2. destruct (negb (String.eqb task_type "")); [ | tauto ].
    destruct (List.filter _ (m :: c)) as [|p ps] eqn:Fp; [ tauto | ].
    rewrite <- Fp. intros x I. apply List.filter_In in I. tauto. }
  assert (Nodup2 : List.NoDup c2).
  { subst c2. destruct (negb (String.eqb task_type "")); [ | exact Nodup1 ].
    destruct (List.filter _ (m :: c)) as [|p ps] eqn:Fp; [ exact Nodup1 | ].
    rewrite <- Fp. apply List.NoDup_filter. exact Nodup1. }
  destruct (nth_error c2 (ModelRotator.current_index r mod length c2)) as [x|] eqn:Nth1;
    [ | discriminate ].
  injection First as Ex <- <-.
  assert (Ix : In x c2) by (eapply List.nth_error_In; exact Nth1).
  assert (X1 : x = m1).
  { apply (NoDup_map_injective ModelRotator.id (ModelRotator.models r)); try assumption.
    apply Fi, Sub, Ix. }
  subst x.
  assert (In2 : In m2 c2).
  { assert (I2c : In m2 (m :: c)) by (apply Fi; split; assumption).
    subst c2. destruct (String.eqb task_type "") eqn:Empty; cbn [negb] in *;
      [ exact I2c | ].
    destruct (List.filter (fun x => String.eqb (ModelRotator.strength x) task_type) (m :: c))
      as [|p ps] eqn:Fp; [ exact I2c | ].
    rewrite <- Fp in *. apply List.filter_In. split; [ exact I2c | ].
    apply String.eqb_eq. apply List.filter_In in Ix. destruct Ix as [_ S1].
    apply String.eqb_eq in S1. apply String.eqb_neq in Empty.
    destruct Suits as [S2 | [S2 | S2]]; [ exact S2 | contradiction | contradiction ]. }
  assert (Len : (2 <= length c2)%nat)
    by (apply (two_members_length c2 m1 m2); [ assumption | assumption | congruence ]).
  destruct (nth_error_mod_in c2 (S (ModelRotator.current_index r))) as (m' & Nth2 & Im');
    [ intros Hnil; rewrite Hnil in Ix; destruct Ix | ].
  exists m'. eexists. split.
  { rewrite (get_next_model_without_reset task_type _ w m c) by exact F.
    cbv zeta. fold c2. cbn [ModelRotator.current_index]. rewrite Nth2. reflexivity. }
  split; [ apply Fi, Sub, Im' | ].
  intros Same.
  assert (M : m' = m1).
  { apply (NoDup_map_injective ModelRotator.id (ModelRotator.models r)); try assumption.
    apply Fi, Sub, Im'. }
  subst m'.
  apply (successor_moves_modulo (ModelRotator.current_index r) (length c2) Len).
  apply (proj1 (List.NoDup_nth_error c2) Nodup2).
  - apply Nat.mod_upper_bound. lia.
  - rewrite Nth1, Nth2. reflexivity.
Qed.


Lemma successive_calls_return_different_models_witness :
  exists m' r2,
    ModelRotator.get_next_model "reasoning" rotator_after_one_call (world_at 0)
    = (Some (ModelRotator.id m'), r2, world_at 0)
    /\ In m' (ModelRotator.models (ModelRotator.init time_sleep))
    /\ ModelRotator.id m' <> ModelRotator.id deepseek_r1.
Proof.
  apply (successive_calls_return_different_models
           "reasoning" (ModelRotator.init time_sleep) rotator_after_one_call
           (world_at 0) (world_at 0) deepseek_r1 gpt_oss).
  - cbn. repeat (constructor; [ cbn; intuition discriminate | ]). constructor.
  - cbn. tauto.
  - cbn. tauto.
  - reflexivity.
  - cbn. set_solver.
  - cbn. set_solver.
  - cbn. discriminate.
  - left. reflexivity.
Defined.


(** *** The depth recommender *)

Lemma append_cons (c : Ascii.ascii) (a b : string) :
  (String c a ++ b)%string = String c (a ++ b)%string.
Proof. reflexivity. Qed.

Lemma lower_app (a b : string) : lower (a ++ b)%string = (lower a ++ lower b)%string.
Proof.
  induction a as [|c a IH]; [ reflexivity | ].
  cbn [lower]. rewrite !append_cons. cbn [lower]. rewrite IH. reflexivity.
Qed.

Lemma prefix_app (t y : string) : String.prefix t (t ++ y)%string = true.
Proof.
  induction t as [|c t IH]; [ destruct y; reflexivity | ].
  rewrite append_cons. cbn [String.prefix].
  destruct (Ascii.ascii_dec c c) as [_|N]; [ exact IH | congruence ].
Qed.

Lemma contains_app (t x y : string) : contains t (x ++ t ++ y)%string = true.
Proof.
  induction x as [|c x IH].
  - change ("" ++ t ++ y)%string with (t ++ y)%string.
    destruct (t ++ y)%string eqn:E; cbn [contains];
      rewrite <- E, prefix_app; reflexivity.
  - rewrite append_cons. cbn [contains]. rewrite IH. apply orb_true_r.
Qed.

(** X25.  [DepthRecommender.recommend] looks for its triggers anywhere
    in the query and in any letter case, the deep triggers first: a
    query in which a deep trigger occurs is recommended DEEP whatever
    else it contains (a shallow trigger included), and a query in which
    a shallow trigger occurs is never recommended STANDARD. *)
Theorem a_trigger_anywhere_decides_the_depth (before s after t : string) :
  lower s = t ->
  (In t DepthRecommender.deep_triggers ->
   DepthRecommender.recommend (before ++ s ++ after)%string = DEEP)
  /\ (In t DepthRecommender.shallow_triggers ->
      DepthRecommender.recommend (before ++ s ++ after)%string <> STANDARD).
Proof.
  intros L.
  assert (C : contains t (lower (before ++ s ++ after)%string) = true)
    by (rewrite !lower_app, L; apply contains_app).
  unfold DepthRecommender.recommend. cbv zeta.
  set (q := lower (before ++ s ++ after)%string) in *.
  split; intros I.
  - assert (Ex : existsb (fun t' => contains t' q) DepthRecommender.deep_triggers = true)
      by (apply List.existsb_exists; exists t; split; assumption).
    rewrite Ex. reflexivity.
  - assert (Ex : existsb (fun t' => contains t' q) DepthRecommender.shallow_triggers = true)
      by (apply List.existsb_exists; exists t; split; assumption).
    destruct (existsb _ DepthRecommender.deep_triggers); [ discriminate | ].
    rewrite Ex. discriminate.
Qed.

Lemma a_trigger_anywhere_decides_the_depth_witness :
  (In "report" DepthRecommender.deep_triggers ->
   DepthRecommender.recommend
     ("Current price " ++ "REPORT" ++ " for BTC")%string = DEEP)
  /\ (In "report" DepthRecommender.shallow_triggers ->
      DepthRecommender.recommend
        ("Current price " ++ "REPORT" ++ " for BTC")%string <> STANDARD).
Proof.
  apply (a_trigger_anywhere_decides_the_depth "Current price " "REPORT" " for BTC" "report").
  reflexivity.
Defined.
